(** * image-upload-aws: a shallow embedding of the handlers and services

    The development follows the layout of the repository:
    - [Py]            the fragment of the Python runtime the code relies on
                      (exceptions, truthiness, string methods);
    - [Base64], [Json] the two standard-library codecs behind the
                      pagination token of [list_images];
    - [Validators]    [src/utils/validators.py];
    - [Models]        [src/models/requests.py] and [src/models/image.py];
    - [ApiResponse]   [src/utils/api_response.py];
    - [Aws]           the two backends (an object store and a table with a
                      secondary index) as explicit state;
    - [S3Service], [DynamoDBService]  [src/services/*.py];
    - the five handlers of [src/lambda_handlers/].

    Text.  A Python [str] is modelled as a [string] whose characters are the
    code points U+0000..U+00FF; a [bytes] object is a [string] as well, one
    character per byte. *)

From Stdlib Require Import NArith ZArith Ascii String Lia.
From stdpp Require Import base option list gmap strings sorting pretty.

Local Open Scope Z_scope.
Set Warnings "-register-all".

(* ===================================================================== *)
(** * The Python fragment                                                 *)
(* ===================================================================== *)

Module Py.

(** Exceptions.  The handlers distinguish three families:
    [botocore.exceptions.ClientError] (carrying the backend error code,
    the operation name and the backend message), pydantic's
    [ValidationError] (carrying the model name and the list of
    field errors) and every other subclass of [Exception]. *)
Inductive exn :=
| ClientError (code operation message : string)
| ValidationError (model : string) (errors : list (string * string * string))
| PyError (class_name text : string).

(** One entry of pydantic's [e.errors()]: location, message and type. *)
Definition error_line (err : string * string * string) : string :=
  String "010" (err.1.1 +:+ String "010" ("  " +:+ err.1.2 +:+ " (type=" +:+ err.2 +:+ ")")).

(** [str(e)] *)
Definition str_exn (e : exn) : string :=
  match e with
  | ClientError code operation message =>
      "An error occurred (" +:+ code +:+ ") when calling the " +:+ operation
        +:+ " operation: " +:+ message
  | ValidationError model errors =>
      pretty (length errors)
        +:+ (if bool_decide (length errors = 1%nat) then " validation error for "
             else " validation errors for ")
        +:+ model +:+ String.concat EmptyString (map error_line errors)
  | PyError _ text => text
  end.

(** The outcome of evaluating an expression that may raise. *)
Inductive result (A : Type) :=
| Ok (a : A)
| Raise (e : exn).
Arguments Ok {A} a.
Arguments Raise {A} e.

Definition bind {A B} (r : result A) (k : A → result B) : result B :=
  match r with
  | Ok a => k a
  | Raise e => Raise e
  end.

(** Truthiness of an [Optional[str]]: [None] and [''] are falsy. *)
Definition truthy_str (s : string) : bool :=
  match s with
  | EmptyString => false
  | String _ _ => true
  end.

Definition truthy (o : option string) : bool :=
  match o with
  | Some s => truthy_str s
  | None => false
  end.

(** [len(s)] *)
Definition len (s : string) : Z := Z.of_nat (String.length s).

(** [c in s] for a one-character [c] *)
Fixpoint contains (c : ascii) (s : string) : bool :=
  match s with
  | EmptyString => false
  | String a r => if Ascii.eqb a c then true else contains c r
  end.

(** [s.split(sep)] for a one-character separator: never the empty list. *)
Fixpoint split (sep : ascii) (s : string) : list string :=
  match s with
  | EmptyString => [EmptyString]
  | String c r =>
      if Ascii.eqb c sep then EmptyString :: split sep r
      else match split sep r with
           | h :: t => String c h :: t
           | [] => [String c EmptyString]
           end
  end.

(** [l[-1]] on the result of a [split] *)
Definition last_item (l : list string) : string := List.last l EmptyString.

(** [sep.join(l)] *)
Definition join (sep : string) (l : list string) : string := String.concat sep l.

(** [s.rsplit(sep, 1)] when [sep in s]: the text before the last
    separator and the text after it. *)
Definition rsplit1 (sep : ascii) (s : string) : string * string :=
  let parts := split sep s in
  (join (String sep EmptyString) (List.removelast parts), last_item parts).

Fixpoint take_chars (n : nat) (s : string) : string :=
  match n, s with
  | S n', String c r => String c (take_chars n' r)
  | _, _ => EmptyString
  end.

(** [s[:n]]: a negative bound counts from the end and is clipped at 0. *)
Definition slice_to (n : Z) (s : string) : string :=
  if n <? 0 then take_chars (Z.to_nat (len s + n)) s else take_chars (Z.to_nat n) s.

Fixpoint map_chars (f : ascii → ascii) (s : string) : string :=
  match s with
  | EmptyString => EmptyString
  | String c r => String (f c) (map_chars f r)
  end.

Definition code (c : ascii) : Z := Z.of_N (N_of_ascii c).

Definition chr (n : Z) : ascii := ascii_of_N (Z.to_N n).

Definition in_range (lo hi : ascii) (c : ascii) : bool :=
  (code lo <=? code c) && (code c <=? code hi).

(** [needle in hay] *)
Definition occurs_in (needle hay : string) : bool :=
  match String.index 0 needle hay with
  | Some _ => true
  | None => false
  end.

(** [all(ord(c) < 128 for c in s)] *)
Fixpoint is_ascii (s : string) : bool :=
  match s with
  | EmptyString => true
  | String c r => (code c <? 128) && is_ascii r
  end.

(** [c.lower()] for a character of U+0000..U+00FF: the letters [A-Z]
    and the capital letters U+00C0..U+00DE (the multiplication sign
    U+00D7 is no letter) move 32 places up. *)
Definition lower_char (c : ascii) : ascii :=
  if in_range "A" "Z" c then chr (code c + 32)
  else if (192 <=? code c) && (code c <=? 222) && negb (code c =? 215) then chr (code c + 32)
  else c.

(** [s.lower()] *)
Definition lower (s : string) : string := map_chars lower_char s.

(** [s.endswith(suffix)] *)
Fixpoint endswith (s suffix : string) : bool :=
  if String.eqb s suffix then true
  else match s with
       | EmptyString => false
       | String _ r => endswith r suffix
       end.

(** [s.replace(old, new)] for a one-character [old] *)
Fixpoint replace_char (old : ascii) (new : string) (s : string) : string :=
  match s with
  | EmptyString => EmptyString
  | String c r =>
      if Ascii.eqb c old then new +:+ replace_char old new r
      else String c (replace_char old new r)
  end.

End Py.

Export Py.

#[global] Instance result_ret : MRet result := @Ok.
#[global] Instance result_bind : MBind result := fun A B k r => Py.bind r k.
#[global] Instance result_fmap : FMap result := fun A B f r => Py.bind r (fun a => Ok (f a)).

(* ===================================================================== *)
(** * [src/utils/validators.py]                                           *)
(* ===================================================================== *)

Module Validators.

(** The complement of the class [[^a-zA-Z0-9._-]] of [sanitize_filename]. *)
Definition safe_char (c : ascii) : bool :=
  in_range "a" "z" c || in_range "A" "Z" c || in_range "0" "9" c
  || Ascii.eqb c "." || Ascii.eqb c "_" || Ascii.eqb c "-".

(** [re.sub(r'[^a-zA-Z0-9._-]', '_', filename)] *)
Definition replace_unsafe (filename : string) : string :=
  map_chars (fun c => if safe_char c then c else "_"%char) filename.

Definition sanitize_filename (filename : string) : string :=
  (* Remove path components *)
  let filename := last_item (split "\" (last_item (split "/" filename))) in
  (* Replace unsafe characters *)
  let filename := replace_unsafe filename in
  (* Limit length *)
  if 255 <? len filename then
    let '(name, ext) :=
      if contains "." filename then rsplit1 "." filename
      else (filename, EmptyString) in
    let max_name_len := 255 - len ext - 1 in
    if truthy_str ext then slice_to max_name_len name +:+ "." +:+ ext
    else slice_to 255 name
  else filename.

Definition allowed_types : list string :=
  ["image/jpeg"; "image/png"; "image/gif"; "image/webp"; "image/bmp"].

(** [validate_content_type] *)
Definition validate_content_type (content_type : string) : bool :=
  bool_decide (content_type ∈ allowed_types).

(** The class [[0-9a-f]] under [re.IGNORECASE]. *)
Definition is_hex (c : ascii) : bool :=
  in_range "0" "9" c || in_range "a" "f" c || in_range "A" "F" c.

(** [[0-9a-f]{n}]: the text left after [n] hexadecimal digits. *)
Fixpoint hex_run (n : nat) (s : string) : option string :=
  match n, s with
  | O, _ => Some s
  | S n', String c r => if is_hex c then hex_run n' r else None
  | S _, EmptyString => None
  end.

(** The literal [-] of the pattern. *)
Definition hyphen (s : string) : option string :=
  match s with
  | String c r => if Ascii.eqb c "-" then Some r else None
  | EmptyString => None
  end.

(** [$] without [re.MULTILINE]: the end of the text, or the place
    before a newline that ends the text. *)
Definition at_end (s : string) : bool :=
  match s with
  | EmptyString => true
  | String c EmptyString => Ascii.eqb c "010"
  | String _ (String _ _) => false
  end.

(** [validate_uuid]: [uuid_pattern.match], the pattern read from left
    to right. *)
Definition validate_uuid (uuid_string : string) : bool :=
  let matched : option string :=
    s ← hex_run 8 uuid_string; s ← hyphen s;
    s ← hex_run 4 s; s ← hyphen s;
    s ← hex_run 4 s; s ← hyphen s;
    s ← hex_run 4 s; s ← hyphen s;
    hex_run 12 s in
  match matched with
  | Some rest => at_end rest
  | None => false
  end.

Definition allowed_extensions : list string :=
  [".jpg"; ".jpeg"; ".png"; ".gif"; ".webp"; ".bmp"].

(** [validate_image_extension] *)
Definition validate_image_extension (filename : string) : bool :=
  existsb (endswith (lower filename)) allowed_extensions.

Section iso_date.
(** Whether [datetime.fromisoformat] accepts a text; the accepted
    grammar depends on the Python version and is left open. *)
Variable fromisoformat : string → bool.

(** [validate_iso_date] *)
Definition validate_iso_date (date_string : option string) : bool :=
  match date_string with
  | Some s =>
      if truthy_str s then fromisoformat (replace_char "Z" "+00:00" s) else true
  | None => true
  end.
End iso_date.

End Validators.

(* ===================================================================== *)
(** * [base64]: the transport encoding of the pagination token           *)
(* ===================================================================== *)

Module Base64.

Definition alphabet : string :=
  "ABCDEFGHIJKLMNOPQRSTUVWXYZabcdefghijklmnopqrstuvwxyz0123456789+/".

Definition PAD : ascii := "=".

(** [table_b2a_base64[i]] *)
Definition b2a (i : Z) : ascii :=
  match String.get (Z.to_nat i) alphabet with
  | Some c => c
  | None => PAD
  end.

(** [table_a2b_base64[c]]; [None] stands for the entries that are not
    base64 digits. *)
Definition a2b (c : ascii) : option Z :=
  if in_range "A" "Z" c then Some (code c - 65)
  else if in_range "a" "z" c then Some (code c - 97 + 26)
  else if in_range "0" "9" c then Some (code c - 48 + 52)
  else if Ascii.eqb c "+" then Some 62
  else if Ascii.eqb c "/" then Some 63
  else None.

(** [base64.b64encode(s)] (RFC 4648, no line breaks): three bytes give
    four digits, a tail of one or two bytes is padded with [=]. *)
Fixpoint b64encode (s : string) : string :=
  match s with
  | EmptyString => EmptyString
  | String a EmptyString =>
      String (b2a (code a / 4)) (String (b2a (code a mod 4 * 16))
        (String PAD (String PAD EmptyString)))
  | String a (String b EmptyString) =>
      String (b2a (code a / 4)) (String (b2a (code a mod 4 * 16 + code b / 16))
        (String (b2a (code b mod 16 * 4)) (String PAD EmptyString)))
  | String a (String b (String c r)) =>
      String (b2a (code a / 4)) (String (b2a (code a mod 4 * 16 + code b / 16))
        (String (b2a (code b mod 16 * 4 + code c / 64))
          (String (b2a (code c mod 64)) (b64encode r))))
  end.

Definition binascii_error (text : string) : exn := PyError "binascii.Error" text.

(** A byte is written to the output buffer; the buffer is returned only
    when the rest of the input decodes. *)
Definition emit (byte : Z) (k : result string) : result string :=
  match k with
  | Ok out => Ok (String (chr (byte mod 256)) out)
  | Raise e => Raise e
  end.

(** The decoding loop of [binascii.a2b_base64] with [strict_mode] off:
    characters outside the alphabet are skipped, a pad sequence that
    completes the current quad ends the input. *)
Fixpoint a2b_loop (s : string) (quad_pos leftchar pads : Z) : result string :=
  match s with
  | EmptyString =>
      if quad_pos =? 0 then Ok EmptyString
      else if quad_pos =? 1 then
        Raise (binascii_error
          "Invalid base64-encoded string: number of data characters cannot be 1 more than a multiple of 4")
      else Raise (binascii_error "Incorrect padding")
  | String this_ch r =>
      if Ascii.eqb this_ch PAD then
        if (2 <=? quad_pos) && (4 <=? quad_pos + (pads + 1)) then Ok EmptyString
        else a2b_loop r quad_pos leftchar (if 2 <=? quad_pos then pads + 1 else pads)
      else
        match a2b this_ch with
        | None => a2b_loop r quad_pos leftchar pads
        | Some v =>
            if quad_pos =? 0 then a2b_loop r 1 v 0
            else if quad_pos =? 1 then
              emit (Z.lor (Z.shiftl leftchar 2) (Z.shiftr v 4))
                   (a2b_loop r 2 (Z.land v 15) 0)
            else if quad_pos =? 2 then
              emit (Z.lor (Z.shiftl leftchar 4) (Z.shiftr v 2))
                   (a2b_loop r 3 (Z.land v 3) 0)
            else
              emit (Z.lor (Z.shiftl leftchar 6) v) (a2b_loop r 0 0 0)
        end
  end.

(** [base64.b64decode(s)] for a [str] argument: the text must be ASCII
    ([s.encode('ascii')]), then [binascii.a2b_base64]. *)
Definition b64decode (s : string) : result string :=
  if is_ascii s then a2b_loop s 0 0 0
  else Raise (PyError "ValueError" "string argument should contain only ASCII characters").

End Base64.

(* ===================================================================== *)
(** * [json]: the serialisation of the pagination key                    *)
(* ===================================================================== *)

Module Json.

(** A Python [float] obtained from a literal: the decimal
    [mantissa * 10 ^ exp10] (to be rounded to the nearest double), or
    one of the constants [NaN], [Infinity], [-Infinity]. *)
Inductive pyfloat :=
| FNaN
| FInf (negative : bool)
| FDec (negative : bool) (mantissa exp10 : Z).

(** The Python values [json.loads] produces. *)
Inductive value :=
| JNull
| JBool (b : bool)
| JInt (n : Z)
| JFloat (f : pyfloat)
| JStr (s : string)
| JList (items : list value)
| JDict (pairs : list (string * value)).

(** [bool(f)]: a literal is falsy when it rounds to zero, that is when it
    does not exceed half of the smallest subnormal, [2 ^ -1075]. *)
Definition truthy_float (f : pyfloat) : bool :=
  match f with
  | FNaN | FInf _ => true
  | FDec _ m e =>
      if 0 <=? e then negb (m =? 0)
      else negb (m * 2 ^ 1075 <=? 10 ^ (- e))
  end.

(** [bool(v)] *)
Definition truthy_value (v : value) : bool :=
  match v with
  | JNull => false
  | JBool b => b
  | JInt n => negb (n =? 0)
  | JFloat f => truthy_float f
  | JStr s => truthy_str s
  | JList items => match items with [] => false | _ => true end
  | JDict pairs => match pairs with [] => false | _ => true end
  end.

(** A native key of the table or of its index as boto3 returns it: a
    [dict] from attribute names to [str] values, in insertion order. *)
Definition keymap := list (string * string).


Definition QUOTE : ascii := "034".
Definition BACKSLASH : ascii := "\".

(** ** [json.dumps] *)

Definition hex_char (d : Z) : ascii :=
  if d <? 10 then chr (48 + d) else chr (87 + d).

(** One character of [py_encode_basestring_ascii]: printable ASCII is
    kept, the rest is escaped. *)
Definition escape_char (c : ascii) : string :=
  if Ascii.eqb c QUOTE then String BACKSLASH (String QUOTE EmptyString)
  else if Ascii.eqb c BACKSLASH then String BACKSLASH (String BACKSLASH EmptyString)
  else if Ascii.eqb c "010" then String BACKSLASH "n"
  else if Ascii.eqb c "013" then String BACKSLASH "r"
  else if Ascii.eqb c "009" then String BACKSLASH "t"
  else if Ascii.eqb c "012" then String BACKSLASH "f"
  else if Ascii.eqb c "008" then String BACKSLASH "b"
  else if in_range " " "~" c then String c EmptyString
  else String BACKSLASH (String "u" (String "0" (String "0"
         (String (hex_char (code c / 16))
            (String (hex_char (code c mod 16)) EmptyString))))).

Fixpoint escape (s : string) : string :=
  match s with
  | EmptyString => EmptyString
  | String c r => escape_char c +:+ escape r
  end.

Definition encode_basestring_ascii (s : string) : string :=
  String QUOTE (escape s +:+ String QUOTE EmptyString).

Definition dumps_item (p : string * string) : string :=
  encode_basestring_ascii p.1 +:+ ": " +:+ encode_basestring_ascii p.2.

(** [json.dumps(k)] for a [dict] of [str] to [str], with the default
    separators [', '] and [': '] and [ensure_ascii=True]. *)
Definition dumps (k : keymap) : string :=
  "{" +:+ join ", " (map dumps_item k) +:+ "}".

(** ** [json.loads] *)

Definition JSONDecodeError (text : string) : exn := PyError "JSONDecodeError" text.

Definition is_ws (c : ascii) : bool :=
  Ascii.eqb c " " || Ascii.eqb c "009" || Ascii.eqb c "010" || Ascii.eqb c "013".

Fixpoint skip_ws (s : string) : string :=
  match s with
  | String c r => if is_ws c then skip_ws r else s
  | EmptyString => EmptyString
  end.

Definition is_digit (c : ascii) : bool := in_range "0" "9" c.

Definition hex_digit (c : ascii) : option Z :=
  if in_range "0" "9" c then Some (code c - 48)
  else if in_range "a" "f" c then Some (code c - 87)
  else if in_range "A" "F" c then Some (code c - 55)
  else None.

(** The table [BACKSLASH] of [json.decoder]. *)
Definition unescape (esc : ascii) : option ascii :=
  if Ascii.eqb esc QUOTE then Some QUOTE
  else if Ascii.eqb esc BACKSLASH then Some BACKSLASH
  else if Ascii.eqb esc "/" then Some "/"%char
  else if Ascii.eqb esc "b" then Some "008"%char
  else if Ascii.eqb esc "f" then Some "012"%char
  else if Ascii.eqb esc "n" then Some "010"%char
  else if Ascii.eqb esc "r" then Some "013"%char
  else if Ascii.eqb esc "t" then Some "009"%char
  else None.

Definition push (c : ascii) (k : result (string * string)) : result (string * string) :=
  match k with
  | Ok (s, rest) => Ok (String c s, rest)
  | Raise e => Raise e
  end.

(** [scanstring] with [strict=True], entered after the opening quote:
    the decoded text and the input after the closing quote.  An escape
    [\uXXXX] above U+00FF denotes a character outside the modelled text
    and is reported as a decoding failure. *)
Fixpoint scanstring (s : string) : result (string * string) :=
  match s with
  | EmptyString => Raise (JSONDecodeError "Unterminated string starting at")
  | String c r =>
      if Ascii.eqb c QUOTE then Ok (EmptyString, r)
      else if Ascii.eqb c BACKSLASH then
        match r with
        | EmptyString => Raise (JSONDecodeError "Unterminated string starting at")
        | String esc r1 =>
            if Ascii.eqb esc "u" then
              match r1 with
              | String h1 (String h2 (String h3 (String h4 r2))) =>
                  match hex_digit h1, hex_digit h2, hex_digit h3, hex_digit h4 with
                  | Some d1, Some d2, Some d3, Some d4 =>
                      let uni := ((d1 * 16 + d2) * 16 + d3) * 16 + d4 in
                      if uni <? 256 then push (chr uni) (scanstring r2)
                      else Raise (JSONDecodeError "character outside U+0000..U+00FF")
                  | _, _, _, _ => Raise (JSONDecodeError "Invalid \uXXXX escape")
                  end
              | _ => Raise (JSONDecodeError "Invalid \uXXXX escape")
              end
            else
              match unescape esc with
              | Some ch => push ch (scanstring r1)
              | None => Raise (JSONDecodeError "Invalid \escape")
              end
        end
      else if code c <? 32 then Raise (JSONDecodeError "Invalid control character at")
      else push c (scanstring r)
  end.

(** The longest prefix of decimal digits and what follows it. *)
Fixpoint span_digits (s : string) : string * string :=
  match s with
  | String c r =>
      if is_digit c then let '(ds, rest) := span_digits r in (String c ds, rest)
      else (EmptyString, s)
  | EmptyString => (EmptyString, EmptyString)
  end.

(** [int(ds)] for a text of decimal digits, most significant first. *)
Fixpoint digits_value (acc : Z) (ds : string) : Z :=
  match ds with
  | EmptyString => acc
  | String c r => digits_value (acc * 10 + (code c - 48)) r
  end.

(** The integer part of [NUMBER_RE]: [0|[1-9]\d*]. *)
Definition match_int (s : string) : option (string * string) :=
  match s with
  | String c r =>
      if Ascii.eqb c "0" then Some ("0", r)
      else if is_digit c then Some (span_digits s)
      else None
  | EmptyString => None
  end.

(** The fraction [\.\d+], when present. *)
Definition match_frac (s : string) : string * string :=
  match s with
  | String c r =>
      if Ascii.eqb c "." then
        match span_digits r with
        | (EmptyString, _) => (EmptyString, s)
        | (ds, rest) => (ds, rest)
        end
      else (EmptyString, s)
  | EmptyString => (EmptyString, s)
  end.

(** The exponent [[eE][-+]?\d+], when present: its value. *)
Definition match_exp (s : string) : option Z * string :=
  match s with
  | String c r =>
      if Ascii.eqb c "e" || Ascii.eqb c "E" then
        let '(neg, r1) :=
          match r with
          | String sg r' =>
              if Ascii.eqb sg "-" then (true, r')
              else if Ascii.eqb sg "+" then (false, r')
              else (false, r)
          | EmptyString => (false, r)
          end in
        match span_digits r1 with
        | (EmptyString, _) => (None, s)
        | (ds, rest) =>
            (Some (if neg : bool then - digits_value 0 ds else digits_value 0 ds), rest)
        end
      else (None, s)
  | EmptyString => (None, s)
  end.

(** [NUMBER_RE.match]: an [int] when there is neither fraction nor
    exponent, a [float] otherwise. *)
Definition match_number (s : string) : option (value * string) :=
  let '(neg, s1) :=
    match s with
    | String c r => if Ascii.eqb c "-" then (true, r) else (false, s)
    | EmptyString => (false, s)
    end in
  match match_int s1 with
  | None => None
  | Some (int_ds, s2) =>
      let '(frac_ds, s3) := match_frac s2 in
      let '(exp, s4) := match_exp s3 in
      match frac_ds, exp with
      | EmptyString, None =>
          let n := digits_value 0 int_ds in
          Some (JInt (if neg : bool then - n else n), s4)
      | _, _ =>
          let m := digits_value 0 (int_ds +:+ frac_ds) in
          let e := default 0 exp - len frac_ds in
          Some (JFloat (FDec neg m e), s4)
      end
  end.

(** [s.startswith(lit)]: the rest of [s] after [lit]. *)
Fixpoint strip_prefix (lit s : string) : option string :=
  match lit, s with
  | EmptyString, _ => Some s
  | String a l, String b r => if Ascii.eqb a b then strip_prefix l r else None
  | String _ _, EmptyString => None
  end.

(** [dict(pairs)]: a repeated key keeps its first position and takes
    the last value. *)
Fixpoint dict_set (k : string) (v : value) (d : list (string * value))
  : list (string * value) :=
  match d with
  | [] => [(k, v)]
  | (k', v') :: r => if String.eqb k k' then (k, v) :: r else (k', v') :: dict_set k v r
  end.

Definition dict_of_pairs (pairs : list (string * value)) : list (string * value) :=
  fold_left (fun d p => dict_set p.1 p.2 d) pairs [].

Definition expecting_value : exn := JSONDecodeError "Expecting value".

Section scanner.

(** [scan_once] one nesting level further down. *)
Variable scan_once : string → result (value * string).

(** The loop of [JSONArray], entered before a value; [n] bounds the
    number of items. *)
Fixpoint array_loop (n : nat) (s : string) (values : list value)
  : result (value * string) :=
  match n with
  | O => Raise (PyError "RecursionError" "maximum recursion depth exceeded")
  | S n' =>
      match scan_once s with
      | Raise e => Raise e
      | Ok (v, rest) =>
          match skip_ws rest with
          | String c r =>
              if Ascii.eqb c "]" then Ok (JList (values ++ [v]), r)
              else if Ascii.eqb c "," then array_loop n' (skip_ws r) (values ++ [v])
              else Raise (JSONDecodeError "Expecting ',' delimiter")
          | EmptyString => Raise (JSONDecodeError "Expecting ',' delimiter")
          end
      end
  end.

(** [JSONArray], entered after the opening bracket. *)
Definition JSONArray (s : string) : result (value * string) :=
  match skip_ws s with
  | String c r =>
      if Ascii.eqb c "]" then Ok (JList [], r)
      else array_loop (String.length s) (skip_ws s) []
  | EmptyString => Raise expecting_value
  end.

(** The loop of [JSONObject], entered after the opening quote of a
    property name. *)
Fixpoint object_loop (n : nat) (s : string) (pairs : list (string * value))
  : result (value * string) :=
  match n with
  | O => Raise (PyError "RecursionError" "maximum recursion depth exceeded")
  | S n' =>
      match scanstring s with
      | Raise e => Raise e
      | Ok (key, rest) =>
          match skip_ws rest with
          | String c r =>
              if Ascii.eqb c ":" then
                match scan_once (skip_ws r) with
                | Raise e => Raise e
                | Ok (v, rest') =>
                    match skip_ws rest' with
                    | String c' r' =>
                        if Ascii.eqb c' "}" then
                          Ok (JDict (dict_of_pairs (pairs ++ [(key, v)])), r')
                        else if Ascii.eqb c' "," then
                          match skip_ws r' with
                          | String q r'' =>
                              if Ascii.eqb q QUOTE then
                                object_loop n' r'' (pairs ++ [(key, v)])
                              else Raise (JSONDecodeError
                                "Expecting property name enclosed in double quotes")
                          | EmptyString => Raise (JSONDecodeError
                                "Expecting property name enclosed in double quotes")
                          end
                        else Raise (JSONDecodeError "Expecting ',' delimiter")
                    | EmptyString => Raise (JSONDecodeError "Expecting ',' delimiter")
                    end
                end
              else Raise (JSONDecodeError "Expecting ':' delimiter")
          | EmptyString => Raise (JSONDecodeError "Expecting ':' delimiter")
          end
      end
  end.

(** [JSONObject], entered after the opening brace. *)
Definition JSONObject (s : string) : result (value * string) :=
  match skip_ws s with
  | String c r =>
      if Ascii.eqb c QUOTE then object_loop (String.length s) r []
      else if Ascii.eqb c "}" then Ok (JDict [], r)
      else Raise (JSONDecodeError "Expecting property name enclosed in double quotes")
  | EmptyString =>
      Raise (JSONDecodeError "Expecting property name enclosed in double quotes")
  end.

Definition literal (lit : string) (v : value) (s : string) : result (value * string) :=
  match strip_prefix lit s with
  | Some rest => Ok (v, rest)
  | None => Raise expecting_value
  end.

(** The dispatch of [scan_once] on the next character. *)
Definition scan_value (s : string) : result (value * string) :=
  match s with
  | EmptyString => Raise expecting_value
  | String c r =>
      if Ascii.eqb c QUOTE then
        match scanstring r with
        | Ok (text, rest) => Ok (JStr text, rest)
        | Raise e => Raise e
        end
      else if Ascii.eqb c "{" then JSONObject r
      else if Ascii.eqb c "[" then JSONArray r
      else if Ascii.eqb c "n" then literal "null" JNull s
      else if Ascii.eqb c "t" then literal "true" (JBool true) s
      else if Ascii.eqb c "f" then literal "false" (JBool false) s
      else
        match match_number s with
        | Some res => Ok res
        | None =>
            if Ascii.eqb c "N" then literal "NaN" (JFloat FNaN) s
            else if Ascii.eqb c "I" then literal "Infinity" (JFloat (FInf false)) s
            else if Ascii.eqb c "-" then literal "-Infinity" (JFloat (FInf true)) s
            else Raise expecting_value
        end
  end.

End scanner.

(** [scan_once], with the nesting depth bounded by [depth]. *)
Fixpoint scan_once (depth : nat) (s : string) : result (value * string) :=
  match depth with
  | O => Raise (PyError "RecursionError" "maximum recursion depth exceeded")
  | S d => scan_value (scan_once d) s
  end.

(** [JSONDecoder.decode] on a [str]: one value, surrounded by optional
    white space.  A text of [n] characters nests at most [n] deep. *)
Definition decode (s : string) : result value :=
  match scan_once (S (String.length s)) (skip_ws s) with
  | Raise e => Raise e
  | Ok (obj, rest) =>
      match skip_ws rest with
      | EmptyString => Ok obj
      | String _ _ => Raise (JSONDecodeError "Extra data")
      end
  end.

(** [s.encode()]: UTF-8. *)
Fixpoint utf8_encode (s : string) : string :=
  match s with
  | EmptyString => EmptyString
  | String c r =>
      if code c <? 128 then String c (utf8_encode r)
      else String (chr (192 + code c / 64)) (String (chr (128 + code c mod 64)) (utf8_encode r))
  end.

Definition UnicodeDecodeError : exn :=
  PyError "UnicodeDecodeError" "'utf-8' codec can't decode byte".

(** [b.decode('utf-8')] for the code points the model has: one-byte
    sequences and the two-byte sequences led by [0xC2] and [0xC3].
    Every other byte sequence is either invalid UTF-8 or denotes a
    character above U+00FF; both are reported as a decoding failure. *)
Fixpoint utf8_decode (b : string) : result string :=
  match b with
  | EmptyString => Ok EmptyString
  | String c r =>
      if code c <? 128 then
        match utf8_decode r with
        | Ok s => Ok (String c s)
        | Raise e => Raise e
        end
      else if (code c =? 194) || (code c =? 195) then
        match r with
        | String c2 r2 =>
            if (128 <=? code c2) && (code c2 <? 192) then
              match utf8_decode r2 with
              | Ok s => Ok (String (chr ((code c - 192) * 64 + (code c2 - 128))) s)
              | Raise e => Raise e
              end
            else Raise UnicodeDecodeError
        | EmptyString => Raise UnicodeDecodeError
        end
      else Raise UnicodeDecodeError
  end.

(** [detect_encoding]: a UTF-8 byte order mark is dropped; input that
    [json] would read as UTF-16 or UTF-32 (a byte order mark of these,
    or a zero byte among the first two) is outside the modelled text. *)
Definition decode_bytes (b : string) : result string :=
  match b with
  | String c0 (String c1 (String c2 r)) =>
      if (code c0 =? 239) && (code c1 =? 187) && (code c2 =? 191) then utf8_decode r
      else if (code c0 =? 0) || (code c1 =? 0) then Raise UnicodeDecodeError
      else if ((code c0 =? 255) && (code c1 =? 254)) || ((code c0 =? 254) && (code c1 =? 255))
      then Raise UnicodeDecodeError
      else utf8_decode b
  | String c0 (String c1 EmptyString) =>
      if (code c0 =? 0) || (code c1 =? 0) then Raise UnicodeDecodeError
      else utf8_decode b
  | _ => utf8_decode b
  end.

(** [json.loads(b)] for a [bytes] argument. *)
Definition loads (b : string) : result value :=
  match decode_bytes b with
  | Ok s => decode s
  | Raise e => Raise e
  end.

End Json.

(* ===================================================================== *)
(** * [src/models/]                                                      *)
(* ===================================================================== *)

Module Models.

(** The members of a JSON request body, each with the JSON type its
    model declares; [None] is a member that is missing or [null]. *)
Module Body.
Record t := mk {
  image_id : option string;
  user_id : option string;
  filename : option string;
  content_type : option string;
  file_size : option Z;
  tags : option (list string);
  description : option string
}.
End Body.

Definition error := (string * string * string)%type.

Definition missing (loc : string) : error :=
  (loc, "field required", "value_error.missing").

(** [Field(..., min_length=1)] on a [str] *)
Definition check_required_str (loc : string) (v : option string) : list error :=
  match v with
  | None => [missing loc]
  | Some s =>
      if len s <? 1 then
        [(loc, "ensure this value has at least 1 characters", "value_error.any_str.min_length")]
      else []
  end.

(** A required [str] without constraint. *)
Definition check_present {A} (loc : string) (v : option A) : list error :=
  match v with
  | None => [missing loc]
  | Some _ => []
  end.

Definition content_type_message : string :=
  "Content type must be one of ['image/jpeg', 'image/png', 'image/gif', 'image/webp', 'image/bmp']".

(** The [@validator('content_type')] shared by the three models. *)
Definition validate_content_type (v : string) : list error :=
  if bool_decide (v ∈ Validators.allowed_types) then []
  else [("content_type", content_type_message, "value_error")].

(** [content_type: str = Field(..., min_length=1)] followed by the
    validator, which runs only on a value that passed the constraint. *)
Definition check_content_type (v : option string) : list error :=
  match check_required_str "content_type" v, v with
  | [], Some s => validate_content_type s
  | errs, _ => errs
  end.

Definition check_gt (loc : string) (bound : Z) (v : Z) : list error :=
  if bound <? v then []
  else [(loc, "ensure this value is greater than " +:+ pretty bound, "value_error.number.not_gt")].

Definition check_ge (loc : string) (bound : Z) (v : Z) : list error :=
  if bound <=? v then []
  else [(loc, "ensure this value is greater than or equal to " +:+ pretty bound,
         "value_error.number.not_ge")].

Definition check_le (loc : string) (bound : Z) (v : Z) : list error :=
  if v <=? bound then []
  else [(loc, "ensure this value is less than or equal to " +:+ pretty bound,
         "value_error.number.not_le")].

(** [Field(default=None, max_length=500)] *)
Definition check_description (v : option string) : list error :=
  match v with
  | None => []
  | Some s =>
      if 500 <? len s then
        [("description", "ensure this value has at most 500 characters",
          "value_error.any_str.max_length")]
      else []
  end.

Definition MAX_FILE_SIZE : Z := 10485760.

(** A number constraint stops at its first failure: [gt] before [le]. *)
Definition check_file_size (upper : option Z) (v : option Z) : list error :=
  match v with
  | None => [missing "file_size"]
  | Some n =>
      match check_gt "file_size" 0 n, upper with
      | [], Some bound => check_le "file_size" bound n
      | errs, _ => errs
      end
  end.

Module UploadPresignedUrlRequest.
Record t := mk {
  user_id : string;
  filename : string;
  content_type : string;
  file_size : Z;
  tags : option (list string);
  description : option string
}.

Definition errors (body : Body.t) : list error :=
  check_required_str "user_id" (Body.user_id body)
  ++ check_required_str "filename" (Body.filename body)
  ++ check_content_type (Body.content_type body)
  ++ check_file_size (Some MAX_FILE_SIZE) (Body.file_size body)
  ++ check_description (Body.description body).

(** The constructor, applied to the members of the body. *)
Definition new (body : Body.t) : result t :=
  match errors body, Body.user_id body, Body.filename body,
        Body.content_type body, Body.file_size body with
  | [], Some u, Some f, Some c, Some n =>
      Ok (mk u f c n (Body.tags body) (Body.description body))
  | errs, _, _, _, _ => Raise (ValidationError "UploadPresignedUrlRequest" errs)
  end.
End UploadPresignedUrlRequest.

Module CompleteUploadRequest.
Record t := mk {
  image_id : string;
  user_id : string;
  filename : string;
  content_type : string;
  file_size : Z;
  tags : option (list string);
  description : option string
}.

Definition errors (body : Body.t) : list error :=
  check_required_str "image_id" (Body.image_id body)
  ++ check_required_str "user_id" (Body.user_id body)
  ++ check_required_str "filename" (Body.filename body)
  ++ check_content_type (Body.content_type body)
  ++ check_file_size None (Body.file_size body)
  ++ check_description (Body.description body).

(** The constructor, applied to the members of the body. *)
Definition new (body : Body.t) : result t :=
  match errors body, Body.image_id body, Body.user_id body, Body.filename body,
        Body.content_type body, Body.file_size body with
  | [], Some i, Some u, Some f, Some c, Some n =>
      Ok (mk i u f c n (Body.tags body) (Body.description body))
  | errs, _, _, _, _, _ => Raise (ValidationError "CompleteUploadRequest" errs)
  end.
End CompleteUploadRequest.

(** [v.replace('Z', '+00:00')] *)
Fixpoint replace_Z (v : string) : string :=
  match v with
  | EmptyString => EmptyString
  | String c r => if Ascii.eqb c "Z" then "+00:00" +:+ replace_Z r else String c (replace_Z r)
  end.

Module ListImagesRequest.
Record t := mk {
  user_id : option string;
  start_date : option string;
  end_date : option string;
  limit : Z;
  next_token : option string
}.

Section validation.
(** Whether [datetime.fromisoformat] accepts a text; the accepted
    grammar depends on the Python version and is left open. *)
Variable fromisoformat : string → bool.

(** [@validator('start_date', 'end_date')] *)
Definition validate_date (loc : string) (v : option string) : list error :=
  match v with
  | Some s =>
      if truthy_str s && negb (fromisoformat (replace_Z s)) then
        [(loc, "Date must be in ISO 8601 format", "value_error")]
      else []
  | None => []
  end.

Definition check_limit (v : Z) : list error :=
  match check_ge "limit" 1 v with
  | [] => check_le "limit" 100 v
  | errs => errs
  end.

Definition errors (r : t) : list error :=
  validate_date "start_date" (start_date r)
  ++ validate_date "end_date" (end_date r)
  ++ check_limit (limit r).

(** The constructor, applied to the members of [request_data]. *)
Definition new (request_data : t) : result t :=
  match errors request_data with
  | [] => Ok request_data
  | errs => Raise (ValidationError "ListImagesRequest" errs)
  end.
End validation.
End ListImagesRequest.

Inductive ImageStatus := PENDING | COMPLETED | FAILED.

(** [status.value] *)
Definition status_value (s : ImageStatus) : string :=
  match s with
  | PENDING => "pending"
  | COMPLETED => "completed"
  | FAILED => "failed"
  end.

(** [ImageStatus(v)] *)
Definition status_of_value (v : string) : option ImageStatus :=
  if String.eqb v "pending" then Some PENDING
  else if String.eqb v "completed" then Some COMPLETED
  else if String.eqb v "failed" then Some FAILED
  else None.

Module ImageMetadata.
Record t := mk {
  image_id : string;
  user_id : string;
  filename : string;
  content_type : string;
  file_size : Z;
  upload_timestamp : string;
  tags : option (list string);
  description : option string;
  status : ImageStatus;
  s3_key : string
}.

(** The keyword arguments of the constructor; [None] is an argument
    that is missing or [None]. *)
Record args := mk_args {
  a_image_id : option string;
  a_user_id : option string;
  a_filename : option string;
  a_content_type : option string;
  a_file_size : option Z;
  a_upload_timestamp : option string;
  a_tags : option (list string);
  a_description : option string;
  a_status : option string;
  a_s3_key : option string
}.

Definition check_status (v : option string) : list error :=
  match v with
  | None => []
  | Some s =>
      match status_of_value s with
      | Some _ => []
      | None =>
          [("status",
            "value is not a valid enumeration member; permitted: 'pending', 'completed', 'failed'",
            "type_error.enum")]
      end
  end.

(** [content_type: str = Field(...)] and its validator. *)
Definition check_content_type (v : option string) : list error :=
  match v with
  | None => [missing "content_type"]
  | Some s => validate_content_type s
  end.

Definition errors (a : args) : list error :=
  check_present "image_id" (a_image_id a)
  ++ check_present "user_id" (a_user_id a)
  ++ check_present "filename" (a_filename a)
  ++ check_content_type (a_content_type a)
  ++ check_file_size None (a_file_size a)
  ++ check_present "upload_timestamp" (a_upload_timestamp a)
  ++ check_status (a_status a)
  ++ check_present "s3_key" (a_s3_key a).

(** The constructor; [status] defaults to [COMPLETED]. *)
Definition new (a : args) : result t :=
  match errors a, a_image_id a, a_user_id a, a_filename a, a_content_type a,
        a_file_size a, a_upload_timestamp a, a_s3_key a with
  | [], Some i, Some u, Some f, Some c, Some n, Some ts, Some k =>
      Ok (mk i u f c n ts (a_tags a) (a_description a)
            (default COMPLETED (a_status a ≫= status_of_value)) k)
  | errs, _, _, _, _, _, _, _ => Raise (ValidationError "ImageMetadata" errs)
  end.
End ImageMetadata.

End Models.

(* ===================================================================== *)
(** * [src/utils/api_response.py] and [src/models/responses.py]          *)
(* ===================================================================== *)

Module ApiResponse.
Import Models.

(** The policy a presigned POST is signed for. *)
Record PresignedPost := {
  post_url : string;
  post_key : string;
  post_content_type : string;
  post_length_range : Z * Z;
  post_expires_in : Z
}.

(** The response body before [json.dumps]. *)
Inductive body :=
| ErrorBody (error message : string) (details : option (list Models.error))
| PresignedUrlResponse (image_id : string) (presigned : PresignedPost)
    (expires_in : Z) (s3_key : string)
| PresignedDownloadUrlResponse (image_id presigned_url : string) (expires_in : Z)
    (filename content_type : string)
| CompleteUploadResponse (image_id status message : string)
| ListImagesResponse (images : list ImageMetadata.t) (count : Z)
    (next_token : option string) (has_more : bool)
| DeleteImageResponse (image_id status message : string).

Record response := {
  statusCode : Z;
  headers : list (string * string);
  resp_body : body
}.

Definition default_headers : list (string * string) :=
  [("Content-Type", "application/json");
   ("Access-Control-Allow-Origin", "*");
   ("Access-Control-Allow-Headers", "Content-Type,X-Amz-Date,Authorization,X-Api-Key");
   ("Access-Control-Allow-Methods", "GET,POST,PUT,DELETE,OPTIONS")].

Definition create_response (status_code : Z) (b : body) : response :=
  {| statusCode := status_code; headers := default_headers; resp_body := b |}.

Definition success_response (data : body) (status_code : Z) : response :=
  create_response status_code data.

Definition error_response (error message : string) (status_code : Z)
    (details : option (list Models.error)) : response :=
  create_response status_code (ErrorBody error message details).

Definition validation_error_response (message : string)
    (details : option (list Models.error)) : response :=
  error_response "ValidationError" message 400 details.

Definition not_found_response (message : string) : response :=
  error_response "NotFound" message 404 None.

Definition internal_error_response (message : string) : response :=
  error_response "InternalError" message 500 None.

Definition unauthorized_response (message : string) : response :=
  error_response "Unauthorized" message 401 None.

Definition throttle_response (message : string) : response :=
  error_response "ThrottleError" message 429 None.

(** The [error] and [message] members of an error body. *)
Definition error_of (r : response) : option (string * string) :=
  match resp_body r with
  | ErrorBody error message _ => Some (error, message)
  | _ => None
  end.

End ApiResponse.

(* ===================================================================== *)
(** * The two backends                                                    *)
(* ===================================================================== *)

(** The object store and the table are external services.  They are
    modelled by their documented contracts over an explicit state:
    - the bucket maps a key to what [HeadObject] reports of the object;
    - the table maps [image_id] (its hash key) to an item; the secondary
      index [UserIdTimestampIndex] holds the items that carry both
      [user_id] (hash key) and [upload_timestamp] (range key);
    - [outage] tells, per operation, the error the service answers with
      when it is failing.
    Each call of a handler runs alone on the state; size and throughput
    limits of the services are not modelled. *)

Module Aws.
Import Json.

Module S3Object.
Record t := mk {
  ContentType : option string;
  ContentLength : option Z
}.
End S3Object.

(** The attributes this program writes, apart from the hash key;
    [None] is an attribute the item lacks (or, for [tags] and
    [description], one that is [NULL]). *)
Module Item.
Record t := mk {
  user_id : option string;
  filename : option string;
  content_type : option string;
  file_size : option Z;
  upload_timestamp : option string;
  tags : option (list string);
  description : option string;
  status : option string;
  s3_key : option string;
  created_at : option string;
  updated_at : option string
}.

Definition empty : t :=
  mk None None None None None None None None None None None.
End Item.

Inductive operation :=
| HeadObject | DeleteObject | GeneratePresignedPost | GeneratePresignedUrl
| PutItem | GetItem | DeleteItem | UpdateItem | Query | Scan.

Definition operation_name (op : operation) : string :=
  match op with
  | HeadObject => "HeadObject"
  | DeleteObject => "DeleteObject"
  | GeneratePresignedPost => "GeneratePresignedPost"
  | GeneratePresignedUrl => "GeneratePresignedUrl"
  | PutItem => "PutItem"
  | GetItem => "GetItem"
  | DeleteItem => "DeleteItem"
  | UpdateItem => "UpdateItem"
  | Query => "Query"
  | Scan => "Scan"
  end.

Record World := {
  table : gmap string Item.t;
  bucket : gmap string S3Object.t;
  outage : operation → option (string * string)
}.

Definition with_table (f : gmap string Item.t → gmap string Item.t) (w : World) : World :=
  {| table := f (table w); bucket := bucket w; outage := outage w |}.

Definition with_bucket (f : gmap string S3Object.t → gmap string S3Object.t) (w : World)
  : World :=
  {| table := table w; bucket := f (bucket w); outage := outage w |}.

(** Computations that read and write the backends and may raise; what
    was written before an exception stays written. *)
Definition M (A : Type) : Type := World → result A * World.

#[global] Instance M_ret : MRet M := fun A a w => (Ok a, w).

#[global] Instance M_bind : MBind M := fun A B k m w =>
  match m w with
  | (Ok a, w') => k a w'
  | (Raise e, w') => (Raise e, w')
  end.

Definition raise {A} (e : exn) : M A := fun w => (Raise e, w).

Definition lift {A} (r : result A) : M A := fun w => (r, w).

Definition gets {A} (f : World → A) : M A := fun w => (Ok (f w), w).

Definition modify (f : World → World) : M unit := fun w => (Ok tt, f w).

(** [try: m except Exception as e: h(e)] *)
Definition try_except {A} (m : M A) (h : exn → M A) : M A := fun w =>
  match m w with
  | (Ok a, w') => (Ok a, w')
  | (Raise e, w') => h e w'
  end.

(** The request reaches the service, which may be failing. *)
Definition call (op : operation) : M unit := fun w =>
  match outage w op with
  | Some (code, message) => (Raise (ClientError code (operation_name op) message), w)
  | None => (Ok tt, w)
  end.

Definition ValidationException (op : operation) (message : string) : exn :=
  ClientError "ValidationException" (operation_name op) message.

Definition ParamValidationError (message : string) : exn :=
  PyError "ParamValidationError" ("Parameter validation failed:" +:+ String "010" message).

(** ** The object store *)

Definition head_object (Key : string) : M S3Object.t :=
  _ ← call HeadObject;
  o ← gets (fun w => bucket w !! Key);
  match o with
  | Some obj => mret obj
  | None => raise (ClientError "404" (operation_name HeadObject) "Not Found")
  end.

(** Deleting a key that holds no object succeeds. *)
Definition delete_object (Key : string) : M unit :=
  _ ← call DeleteObject;
  modify (with_bucket (delete Key)).

(** Signing is local; the signature itself is not modelled. *)
Definition generate_presigned_post (Bucket Key content_type : string)
    (length_range : Z * Z) (ExpiresIn : Z) : M ApiResponse.PresignedPost :=
  _ ← call GeneratePresignedPost;
  mret {| ApiResponse.post_url := "https://" +:+ Bucket +:+ ".s3.amazonaws.com/";
          ApiResponse.post_key := Key;
          ApiResponse.post_content_type := content_type;
          ApiResponse.post_length_range := length_range;
          ApiResponse.post_expires_in := ExpiresIn |}.

Definition generate_presigned_url (Bucket Key : string)
    (ResponseContentDisposition : option string) (ExpiresIn : Z) : M string :=
  _ ← call GeneratePresignedUrl;
  mret ("https://" +:+ Bucket +:+ ".s3.amazonaws.com/" +:+ Key
          +:+ "?X-Amz-Expires=" +:+ pretty ExpiresIn
          +:+ match ResponseContentDisposition with
              | Some d => "&response-content-disposition=" +:+ d
              | None => EmptyString
              end).

(** ** The table *)

Definition empty_key : string :=
  "One or more parameter values are not valid. The AttributeValue for a key attribute cannot contain an empty string value.".

(** A key attribute of the table or of the index may not be the empty
    string. *)
Definition valid_key_attribute (v : option string) : bool :=
  match v with
  | Some EmptyString => false
  | _ => true
  end.

(** [PutItem] replaces the whole item. *)
Definition put_item (image_id : string) (item : Item.t) : M unit :=
  _ ← call PutItem;
  if truthy_str image_id && valid_key_attribute (Item.user_id item)
     && valid_key_attribute (Item.upload_timestamp item)
  then modify (with_table (insert image_id item))
  else raise (ValidationException PutItem empty_key).

Definition get_item (image_id : string) : M (option Item.t) :=
  _ ← call GetItem;
  if truthy_str image_id then gets (fun w => table w !! image_id)
  else raise (ValidationException GetItem empty_key).

(** Deleting a key that holds no item succeeds. *)
Definition delete_item (image_id : string) : M unit :=
  _ ← call DeleteItem;
  if truthy_str image_id then modify (with_table (delete image_id))
  else raise (ValidationException DeleteItem empty_key).

(** [SET #status = :status, updated_at = :updated_at] on one item. *)
Definition set_status (status updated_at : string) (item : Item.t) : Item.t :=
  Item.mk (Item.user_id item) (Item.filename item) (Item.content_type item)
    (Item.file_size item) (Item.upload_timestamp item) (Item.tags item)
    (Item.description item) (Some status) (Item.s3_key item)
    (Item.created_at item) (Some updated_at).

(** [UpdateItem] without a condition expression edits the item with
    that key, or adds a new item to the table when there is none. *)
Definition update_item (image_id status updated_at : string) : M unit :=
  _ ← call UpdateItem;
  if truthy_str image_id then
    modify (with_table (fun t =>
      <[image_id := set_status status updated_at (default Item.empty (t !! image_id))]> t))
  else raise (ValidationException UpdateItem empty_key).

(** ** The index and the two traversals *)

(** The position of an item in a traversal: its range key, then its
    hash key. *)
Definition position := (string * string)%type.

(** Strings are ordered by their bytes. *)
Definition position_leb (a b : position) : bool :=
  match String.compare a.1 b.1 with
  | Lt => true
  | Eq => String.leb a.2 b.2
  | Gt => false
  end.

Definition position_ltb (a b : position) : bool := negb (position_leb b a).

(** An item of the index: upload time stamp, image id, the item. *)
Definition entry := (string * string * Item.t)%type.

Definition entry_position (e : entry) : position := e.1.

Definition entry_le (a b : entry) : Prop :=
  position_leb (entry_position a) (entry_position b).

(** The items of one owner, in the order the table holds them. *)
Definition index_entry (user_id : string) (kv : string * Item.t) : option entry :=
  match Item.user_id kv.2, Item.upload_timestamp kv.2 with
  | Some u, Some ts => if String.eqb u user_id then Some (ts, kv.1, kv.2) else None
  | _, _ => None
  end.

Definition index_partition (t : gmap string Item.t) (user_id : string) : list entry :=
  omap (index_entry user_id) (map_to_list t).

(** The range-key part of a key condition. *)
Inductive range_condition :=
| BETWEEN (lo hi : string)
| GE (lo : string)
| LE (hi : string).

Definition in_condition (c : option range_condition) (ts : string) : bool :=
  match c with
  | None => true
  | Some (BETWEEN lo hi) => String.leb lo ts && String.leb ts hi
  | Some (GE lo) => String.leb lo ts
  | Some (LE hi) => String.leb ts hi
  end.

Record query_params := {
  KeyUserId : string;
  KeyUploadTimestamp : option range_condition;
  Limit : Z;
  ScanIndexForward : bool;
  ExclusiveStartKey : option value
}.

Fixpoint lookup_member (name : string) (pairs : list (string * value)) : option value :=
  match pairs with
  | [] => None
  | (k, v) :: r => if String.eqb k name then Some v else lookup_member name r
  end.

Definition str_member (name : string) (pairs : list (string * value)) : option string :=
  match lookup_member name pairs with
  | Some (JStr s) => if truthy_str s then Some s else None
  | _ => None
  end.

Definition invalid_start_key : string :=
  "The provided starting key is invalid".

(** A starting key of [Scan] names exactly the hash key of the table. *)
Definition scan_start_key (k : value) : result string :=
  match k with
  | JDict pairs =>
      match str_member "image_id" pairs, length pairs with
      | Some i, 1%nat => Ok i
      | _, _ => Raise (ValidationException Scan invalid_start_key)
      end
  | _ => Raise (ParamValidationError
           "Invalid type for parameter ExclusiveStartKey, valid types: <class 'dict'>")
  end.

(** A starting key of a [Query] on the index names exactly the keys of
    the index and of the table, and lies inside the key condition. *)
Definition query_start_key (p : query_params) (k : value) : result position :=
  match k with
  | JDict pairs =>
      match str_member "user_id" pairs, str_member "upload_timestamp" pairs,
            str_member "image_id" pairs, length pairs with
      | Some u, Some ts, Some i, 3%nat =>
          if String.eqb u (KeyUserId p) && in_condition (KeyUploadTimestamp p) ts
          then Ok (ts, i)
          else Raise (ValidationException Query
                 "The provided starting key is outside query boundaries based on provided conditions")
      | _, _, _, _ => Raise (ValidationException Query invalid_start_key)
      end
  | _ => Raise (ParamValidationError
           "Invalid type for parameter ExclusiveStartKey, valid types: <class 'dict'>")
  end.

Definition valid_condition (c : option range_condition) : bool :=
  match c with
  | Some (BETWEEN lo hi) => String.leb lo hi
  | _ => true
  end.

Definition check_limit (limit : Z) : result unit :=
  if 1 <=? limit then Ok tt
  else Raise (ParamValidationError
         "Invalid value for parameter Limit, valid min value: 1").

Definition query_key (user_id : string) (e : entry) : keymap :=
  [("image_id", e.1.2); ("user_id", user_id); ("upload_timestamp", e.1.1)].

Definition scan_key (kv : string * Item.t) : keymap := [("image_id", kv.1)].

(** The page cut out of what is left of a traversal, and the key of
    its last item when the page is full: the service stops at [Limit]
    items without looking further. *)
Definition page {A} (limit : Z) (key_of : A → keymap) (rest : list A)
  : list A * option keymap :=
  let items := List.firstn (Z.to_nat limit) rest in
  (items,
   if limit <=? Z.of_nat (length rest) then key_of <$> List.last (Some <$> items) None
   else None).

(** Whether a position comes after the starting key in the direction
    of the traversal. *)
Definition beyond (forward : bool) (start : position) (pos : position) : bool :=
  if forward then position_ltb start pos else position_ltb pos start.

(** [Query] on the index: the items of one owner that satisfy the
    condition, by ascending time stamp, or descending when
    [ScanIndexForward] is off, after the starting key. *)
Definition query (p : query_params)
  : M (list (string * Item.t) * option keymap) :=
  _ ← call Query;
  _ ← lift (check_limit (Limit p));
  if negb (truthy_str (KeyUserId p)) then raise (ValidationException Query empty_key)
  else if negb (valid_condition (KeyUploadTimestamp p)) then
    raise (ValidationException Query
      "Invalid KeyConditionExpression: The BETWEEN operator requires upper bound to be greater than or equal to lower bound")
  else
    start ← lift (match ExclusiveStartKey p with
                  | Some k => Some <$> query_start_key p k
                  | None => Ok None
                  end);
    t ← gets table;
    let hits := filter (fun e : entry => in_condition (KeyUploadTimestamp p) e.1.1)
                  (index_partition t (KeyUserId p)) in
    let ascending := merge_sort entry_le hits in
    let run := if ScanIndexForward p then ascending else reverse ascending in
    let rest :=
      match start with
      | None => run
      | Some pos =>
          filter (fun e : entry => beyond (ScanIndexForward p) pos (entry_position e)) run
      end in
    let '(items, last_key) := page (Limit p) (query_key (KeyUserId p)) rest in
    mret ((fun e : entry => (e.1.2, e.2)) <$> items, last_key).

(** [Scan]: every item of the table.  The service fixes the order of
    the traversal; the model takes the order of the hash keys. *)
Definition scan (limit : Z) (start_key : option value)
  : M (list (string * Item.t) * option keymap) :=
  _ ← call Scan;
  _ ← lift (check_limit limit);
  start ← lift (match start_key with
                | Some k => Some <$> scan_start_key k
                | None => Ok None
                end);
  t ← gets table;
  let run := merge_sort (fun a b : string * Item.t => String.leb a.1 b.1) (map_to_list t) in
  let rest :=
    match start with
    | None => run
    | Some i => filter (fun kv : string * Item.t => String.ltb i kv.1) run
    end in
  mret (page limit scan_key rest).

End Aws.

(* ===================================================================== *)
(** * [src/utils/config.py]: the defaults                                 *)
(* ===================================================================== *)

Module Config.
Definition S3_BUCKET_NAME : string := "mont-images".
Definition S3_PRESIGNED_URL_EXPIRY_UPLOAD : Z := 3600.
Definition S3_PRESIGNED_URL_EXPIRY_DOWNLOAD : Z := 900.
Definition DYNAMODB_TABLE_NAME : string := "ImageMetadata".
Definition DYNAMODB_GSI_NAME : string := "UserIdTimestampIndex".
Definition DEFAULT_PAGE_SIZE : Z := 50.
Definition MAX_PAGE_SIZE : Z := 100.
End Config.

(* ===================================================================== *)
(** * [src/services/s3_service.py]                                        *)
(* ===================================================================== *)

Module S3Service.
Import Aws.

Definition bucket_name : string := Config.S3_BUCKET_NAME.

Definition generate_presigned_post (s3_key content_type : string) (file_size : Z)
    (expires_in : option Z) : M ApiResponse.PresignedPost :=
  let expires_in := default Config.S3_PRESIGNED_URL_EXPIRY_UPLOAD expires_in in
  Aws.generate_presigned_post bucket_name s3_key content_type (file_size, file_size)
    expires_in.

Definition generate_presigned_get (s3_key : string) (expires_in : option Z)
    (filename : option string) : M string :=
  let expires_in := default Config.S3_PRESIGNED_URL_EXPIRY_DOWNLOAD expires_in in
  let disposition :=
    match filename with
    | Some f =>
        if truthy_str f then
          Some ("attachment; filename=" +:+ String Json.QUOTE (f +:+ String Json.QUOTE EmptyString))
        else None
    | None => None
    end in
  Aws.generate_presigned_url bucket_name s3_key disposition expires_in.

(** A [ClientError] whose code is ['404'] means the object is absent;
    any other error is raised again. *)
Definition not_found_as {A} (absent : A) (e : exn) : M A :=
  match e with
  | ClientError code _ _ => if String.eqb code "404" then mret absent else raise e
  | _ => raise e
  end.

Definition check_object_exists (s3_key : string) : M bool :=
  try_except (_ ← head_object s3_key; mret true) (not_found_as false).

Definition delete_object (s3_key : string) : M bool :=
  _ ← Aws.delete_object s3_key;
  mret true.

(** The returned dictionary always has the members [content_type] and
    [content_length]; either may hold [None]. *)
Definition get_object_metadata (s3_key : string) : M (option S3Object.t) :=
  try_except (response ← head_object s3_key; mret (Some response)) (not_found_as None).

End S3Service.

(* ===================================================================== *)
(** * [src/services/dynamodb_service.py]                                  *)
(* ===================================================================== *)

Module DynamoDBService.
Import Aws Models.

(** [metadata.dict()] with [created_at], [updated_at] and the status
    value. *)
Definition item_of (metadata : ImageMetadata.t) (now : string) : Item.t :=
  {| Item.user_id := Some (ImageMetadata.user_id metadata);
     Item.filename := Some (ImageMetadata.filename metadata);
     Item.content_type := Some (ImageMetadata.content_type metadata);
     Item.file_size := Some (ImageMetadata.file_size metadata);
     Item.upload_timestamp := Some (ImageMetadata.upload_timestamp metadata);
     Item.tags := ImageMetadata.tags metadata;
     Item.description := ImageMetadata.description metadata;
     Item.status := Some (status_value (ImageMetadata.status metadata));
     Item.s3_key := Some (ImageMetadata.s3_key metadata);
     Item.created_at := Some now;
     Item.updated_at := Some now |}.

(** The keyword arguments an item gives to [ImageMetadata]; the model
    ignores [created_at] and [updated_at]. *)
Definition args_of (kv : string * Item.t) : ImageMetadata.args :=
  {| ImageMetadata.a_image_id := Some kv.1;
     ImageMetadata.a_user_id := Item.user_id kv.2;
     ImageMetadata.a_filename := Item.filename kv.2;
     ImageMetadata.a_content_type := Item.content_type kv.2;
     ImageMetadata.a_file_size := Item.file_size kv.2;
     ImageMetadata.a_upload_timestamp := Item.upload_timestamp kv.2;
     ImageMetadata.a_tags := Item.tags kv.2;
     ImageMetadata.a_description := Item.description kv.2;
     ImageMetadata.a_status := Item.status kv.2;
     ImageMetadata.a_s3_key := Item.s3_key kv.2 |}.

(** [now] is the reading of the clock inside the call. *)
Definition put_item (now : string) (metadata : ImageMetadata.t) : M bool :=
  _ ← Aws.put_item (ImageMetadata.image_id metadata) (item_of metadata now);
  mret true.

Definition get_item (image_id : string) : M (option ImageMetadata.t) :=
  response ← Aws.get_item image_id;
  match response with
  | None => mret None
  | Some item => lift (Some <$> ImageMetadata.new (args_of (image_id, item)))
  end.

Definition delete_item (image_id : string) : M bool :=
  _ ← Aws.delete_item image_id;
  mret true.

(** The key condition built from the two optional bounds. *)
Definition key_condition (start_date end_date : option string) : option range_condition :=
  match start_date, end_date with
  | Some s, Some e =>
      if truthy_str s && truthy_str e then Some (BETWEEN s e)
      else if truthy_str s then Some (GE s)
      else if truthy_str e then Some (LE e)
      else None
  | Some s, None => if truthy_str s then Some (GE s) else None
  | None, Some e => if truthy_str e then Some (LE e) else None
  | None, None => None
  end.

(** [if last_evaluated_key: params['ExclusiveStartKey'] = last_evaluated_key] *)
Definition start_key (last_evaluated_key : option Json.value) : option Json.value :=
  match last_evaluated_key with
  | Some k => if Json.truthy_value k then Some k else None
  | None => None
  end.

(** The comprehension over [response.get('Items', [])] gives the list
    of the parsed items, or the first failure. *)
Definition parse_items (items : list (string * Item.t)) : result (list ImageMetadata.t) :=
  mapM (fun kv => ImageMetadata.new (args_of kv)) items.

Definition query_by_user (user_id : string) (start_date end_date : option string)
    (limit : Z) (last_evaluated_key : option Json.value)
  : M (list ImageMetadata.t * option Json.keymap) :=
  response ← Aws.query
    {| KeyUserId := user_id;
       KeyUploadTimestamp := key_condition start_date end_date;
       Limit := limit;
       ScanIndexForward := false;
       ExclusiveStartKey := start_key last_evaluated_key |};
  images ← lift (parse_items response.1);
  mret (images, response.2).

Definition scan_all (limit : Z) (last_evaluated_key : option Json.value)
  : M (list ImageMetadata.t * option Json.keymap) :=
  response ← Aws.scan limit (start_key last_evaluated_key);
  images ← lift (parse_items response.1);
  mret (images, response.2).

Definition update_status (now : string) (image_id status : string) : M bool :=
  _ ← Aws.update_item image_id status now;
  mret true.

End DynamoDBService.

(* ===================================================================== *)
(** * [src/lambda_handlers/]                                              *)
(* ===================================================================== *)

(** The outermost [try] of every handler: an exception that escapes the
    body becomes a 500 response whose message ends with [str(e)]. *)
Definition respond (failure : string) (body : Aws.M ApiResponse.response)
  : Aws.World → ApiResponse.response * Aws.World := fun w =>
  match body w with
  | (Ok r, w') => (r, w')
  | (Raise e, w') => (ApiResponse.internal_error_response (failure +:+ str_exn e), w')
  end.

(** [images/{user_id}/{image_id}_{filename}] *)
Definition object_key (user_id image_id filename : string) : string :=
  "images/" +:+ user_id +:+ "/" +:+ image_id +:+ "_" +:+ filename.

Module upload_presigned_url.
Import Aws Models ApiResponse.

(** The body of the [try] block.  [uuid4] is the identifier
    [uuid.uuid4()] draws; [body] is what [json.loads] makes of the
    request body. *)
Definition flow (uuid4 : string) (body : result Body.t) : M response :=
    body ← lift body;
    match UploadPresignedUrlRequest.new body with
    | Raise (ValidationError _ errors) =>
        mret (validation_error_response "Invalid request data" (Some errors))
    | Raise e => raise e
    | Ok request =>
        let image_id := uuid4 in
        let safe_filename :=
          Validators.sanitize_filename (UploadPresignedUrlRequest.filename request) in
        let s3_key :=
          object_key (UploadPresignedUrlRequest.user_id request) image_id safe_filename in
        presigned_data ← S3Service.generate_presigned_post s3_key
          (UploadPresignedUrlRequest.content_type request)
          (UploadPresignedUrlRequest.file_size request)
          (Some Config.S3_PRESIGNED_URL_EXPIRY_UPLOAD);
        mret (success_response
                (PresignedUrlResponse image_id presigned_data
                   Config.S3_PRESIGNED_URL_EXPIRY_UPLOAD s3_key) 200)
    end.

Definition failure : string := "Failed to generate upload URL: ".

Definition handler (uuid4 : string) (body : result Body.t)
  : World → response * World :=
  respond failure (flow uuid4 body).
End upload_presigned_url.

Module complete_upload.
Import Aws Models ApiResponse.

(** The body of the [try] block.  [utcnow 0] and [utcnow 1] are the two
    readings of the clock, the first for [upload_timestamp], the second
    inside [put_item]. *)
Definition flow (utcnow : nat → string) (body : result Body.t) : M response :=
    body ← lift body;
    match CompleteUploadRequest.new body with
    | Raise (ValidationError _ errors) =>
        mret (validation_error_response "Invalid request data" (Some errors))
    | Raise e => raise e
    | Ok request =>
        let filename := CompleteUploadRequest.filename request in
        let tags := CompleteUploadRequest.tags request in
        let description := CompleteUploadRequest.description request in
        (* Construct S3 key *)
        let s3_key :=
          object_key (CompleteUploadRequest.user_id request)
            (CompleteUploadRequest.image_id request) filename in
        (* Verify object exists in S3 *)
        found ← S3Service.check_object_exists s3_key;
        if negb found then
          mret (not_found_response "Image not uploaded to S3. Please upload the file first.")
        else
          (* Get actual file metadata from S3 *)
          s3_metadata ← S3Service.get_object_metadata s3_key;
          let content_type :=
            match s3_metadata with
            | Some md => S3Object.ContentType md
            | None => Some (CompleteUploadRequest.content_type request)
            end in
          let file_size :=
            match s3_metadata with
            | Some md => S3Object.ContentLength md
            | None => Some (CompleteUploadRequest.file_size request)
            end in
          metadata ← lift (ImageMetadata.new
            {| ImageMetadata.a_image_id := Some (CompleteUploadRequest.image_id request);
               ImageMetadata.a_user_id := Some (CompleteUploadRequest.user_id request);
               ImageMetadata.a_filename := Some filename;
               ImageMetadata.a_content_type := content_type;
               ImageMetadata.a_file_size := file_size;
               ImageMetadata.a_upload_timestamp := Some (utcnow 0%nat);
               ImageMetadata.a_tags := tags;
               ImageMetadata.a_description := description;
               ImageMetadata.a_status := Some (status_value COMPLETED);
               ImageMetadata.a_s3_key := Some s3_key |});
          (* Save to DynamoDB *)
          _ ← DynamoDBService.put_item (utcnow 1%nat) metadata;
          mret (success_response
                  (CompleteUploadResponse (CompleteUploadRequest.image_id request)
                     "completed" "Image upload completed successfully") 200)
    end.

Definition failure : string := "Failed to complete upload: ".

Definition handler (utcnow : nat → string) (body : result Body.t)
  : World → response * World :=
  respond failure (flow utcnow body).
End complete_upload.

Module get_image_presigned_url.
Import Aws Models ApiResponse.

(** The body of the [try] block.  [image_id] is the path parameter.  The
    module does not import [validation_error_response], so the branch
    for a missing [image_id] raises [NameError]. *)
Definition flow (image_id : option string) : M response :=
    match image_id with
    | Some image_id =>
        if negb (truthy_str image_id) then
          raise (PyError "NameError" "name 'validation_error_response' is not defined")
        else
          metadata ← DynamoDBService.get_item image_id;
          match metadata with
          | None => mret (not_found_response ("Image not found: " +:+ image_id))
          | Some metadata =>
              found ← S3Service.check_object_exists (ImageMetadata.s3_key metadata);
              if negb found then mret (not_found_response "Image file not found in storage")
              else
                presigned_url ← S3Service.generate_presigned_get
                  (ImageMetadata.s3_key metadata)
                  (Some Config.S3_PRESIGNED_URL_EXPIRY_DOWNLOAD)
                  (Some (ImageMetadata.filename metadata));
                mret (success_response
                        (PresignedDownloadUrlResponse image_id presigned_url
                           Config.S3_PRESIGNED_URL_EXPIRY_DOWNLOAD
                           (ImageMetadata.filename metadata)
                           (ImageMetadata.content_type metadata)) 200)
          end
    | None => raise (PyError "NameError" "name 'validation_error_response' is not defined")
    end.

Definition failure : string := "Failed to generate download URL: ".

Definition handler (image_id : option string)
  : World → response * World :=
  respond failure (flow image_id).
End get_image_presigned_url.

Module delete_image.
Import Aws Models ApiResponse.

Record event := {
  path_image_id : option string;
  body : result Json.value
}.

(** [body.get('user_id')] *)
Definition get_user_id (body : Json.value) : result (option Json.value) :=
  match body with
  | Json.JDict pairs => Ok (lookup_member "user_id" pairs)
  | _ => Raise (PyError "AttributeError" "object has no attribute 'get'")
  end.

Definition truthy_member (v : option Json.value) : bool :=
  match v with
  | Some v => Json.truthy_value v
  | None => false
  end.

(** [metadata.user_id != user_id]: a [str] equals a JSON value only
    when the value is the same [str]. *)
Definition differs (owner : string) (user_id : option Json.value) : bool :=
  match user_id with
  | Some (Json.JStr u) => negb (String.eqb owner u)
  | _ => true
  end.

(** The body of the [try] block. *)
Definition flow (ev : event) : M response :=
    match path_image_id ev with
    | None => mret (validation_error_response "Missing image_id in path" None)
    | Some image_id =>
        if negb (truthy_str image_id) then
          mret (validation_error_response "Missing image_id in path" None)
        else
          body ← lift (body ev);
          user_id ← lift (get_user_id body);
          if negb (truthy_member user_id) then
            mret (validation_error_response "Missing user_id in request body" None)
          else
            (* Retrieve metadata from DynamoDB *)
            metadata ← DynamoDBService.get_item image_id;
            match metadata with
            | None => mret (not_found_response ("Image not found: " +:+ image_id))
            | Some metadata =>
                (* Verify user owns the image (basic authorization) *)
                if differs (ImageMetadata.user_id metadata) user_id then
                  mret (unauthorized_response
                          "You don't have permission to delete this image")
                else
                  (* Delete from S3; a failure is logged and dropped *)
                  _ ← try_except (S3Service.delete_object (ImageMetadata.s3_key metadata))
                        (fun _ => mret false);
                  (* Delete from DynamoDB *)
                  _ ← DynamoDBService.delete_item image_id;
                  mret (success_response
                          (DeleteImageResponse image_id "deleted"
                             "Image deleted successfully") 200)
            end
    end.

Definition failure : string := "Failed to delete image: ".

Definition handler (ev : event)
  : World → response * World :=
  respond failure (flow ev).
End delete_image.

Module list_images.
Import Aws Models ApiResponse.

(** [event['queryStringParameters']] *)
Record query_string := {
  user_id : option string;
  start_date : option string;
  end_date : option string;
  limit : option string;
  next_token : option string
}.

(** [json.loads(base64.b64decode(token))] *)
Definition decode (token : string) : result Json.value :=
  bytes ← Base64.b64decode token;
  Json.loads bytes.

(** [base64.b64encode(json.dumps(next_key).encode()).decode()] *)
Definition encode (next_key : Json.keymap) : string :=
  Base64.b64encode (Json.utf8_encode (Json.dumps next_key)).

(** The encoded token of a page: none for [None] and for an empty key. *)
Definition token_of (next_key : option Json.keymap) : option string :=
  match next_key with
  | Some (p :: k) => Some (encode (p :: k))
  | _ => None
  end.

Section handler.
(** [datetime.fromisoformat] and [int] on a [str], as in [Models]:
    which texts they accept is left open. *)
Variable fromisoformat : string → bool.
Variable int : string → option Z.

Definition parse_limit (v : option string) : result Z :=
  match v with
  | None => Ok 50
  | Some s =>
      match int s with
      | Some n => Ok n
      | None => Raise (PyError "ValueError"
                  ("invalid literal for int() with base 10: '" +:+ s +:+ "'"))
      end
  end.

(** Query based on filters: the owner's index when [user_id] is given,
    the whole table otherwise. *)
Definition fetch (request : ListImagesRequest.t) (last_evaluated_key : option Json.value)
  : M (list ImageMetadata.t * option Json.keymap) :=
  match ListImagesRequest.user_id request with
  | Some u =>
      if truthy_str u then
        DynamoDBService.query_by_user u (ListImagesRequest.start_date request)
          (ListImagesRequest.end_date request) (ListImagesRequest.limit request)
          last_evaluated_key
      else DynamoDBService.scan_all (ListImagesRequest.limit request) last_evaluated_key
  | None => DynamoDBService.scan_all (ListImagesRequest.limit request) last_evaluated_key
  end.

(** The part of the handler after the request is validated and the
    token decoded. *)
Definition list_page (request : ListImagesRequest.t)
    (last_evaluated_key : option Json.value) : M response :=
  found ← fetch request last_evaluated_key;
  let images := found.1 in
  let next_key := found.2 in
  mret (success_response
          (ListImagesResponse images (Z.of_nat (length images)) (token_of next_key)
             (bool_decide (is_Some next_key))) 200).

(** The body of the [try] block. *)
Definition flow (query_params : query_string) : M response :=
    limit ← lift (parse_limit (limit query_params));
    let request_data :=
      ListImagesRequest.mk (user_id query_params) (start_date query_params)
        (end_date query_params) limit (next_token query_params) in
    match ListImagesRequest.new fromisoformat request_data with
    | Raise (ValidationError _ errors) =>
        mret (validation_error_response "Invalid request parameters" (Some errors))
    | Raise e => raise e
    | Ok request =>
        (* Decode pagination token if present *)
        match ListImagesRequest.next_token request with
        | Some token =>
            if truthy_str token then
              match decode token with
              | Ok key => list_page request (Some key)
              | Raise _ => mret (validation_error_response "Invalid pagination token" None)
              end
            else list_page request None
        | None => list_page request None
        end
    end.

Definition failure : string := "Failed to list images: ".

Definition handler (query_params : query_string)
  : World → response * World :=
  respond failure (flow query_params).
End handler.
End list_images.

(* ===================================================================== *)
(** * The vocabulary of the properties and the sample states               *)
(* ===================================================================== *)

Import Aws Models ApiResponse.

Definition sample_upload (content_type : string) (file_size : Z) : Body.t :=
  Body.mk None (Some "user123") (Some "photo.jpg") (Some content_type) (Some file_size)
    None None.

Definition idle : World := {| table := ∅; bucket := ∅; outage := fun _ => None |}.

Definition sample_clock (n : nat) : string :=
  match n with
  | O => "2026-02-13T10:00:00.000001"
  | _ => "2026-02-13T10:00:00.000002"
  end.

Definition sample_complete (filename : string) : Body.t :=
  Body.mk (Some "img-1") (Some "user123") (Some filename) (Some "image/jpeg") (Some 1024)
    None None.

Definition sample_object : S3Object.t := S3Object.mk (Some "image/jpeg") (Some 1024).

(** The item [UpdateItem] creates for a key the table does not hold. *)
Definition status_only (status updated_at : string) : Item.t :=
  Item.mk None None None None None None None (Some status) None None (Some updated_at).

Definition sample_record (user_id upload_timestamp : string) : Item.t :=
  {| Item.user_id := Some user_id;
     Item.filename := Some "photo.jpg";
     Item.content_type := Some "image/jpeg";
     Item.file_size := Some 1024;
     Item.upload_timestamp := Some upload_timestamp;
     Item.tags := None;
     Item.description := None;
     Item.status := Some "completed";
     Item.s3_key := Some "images/owner/img-1_photo.jpg";
     Item.created_at := Some upload_timestamp;
     Item.updated_at := Some upload_timestamp |}.

(** A world with one record and its object, where the object store
    refuses deletions. *)
Definition stuck_store : World :=
  {| table := {[ "img-1" := sample_record "owner" "2026-02-13T10:00:00" ]};
     bucket := {[ "images/owner/img-1_photo.jpg" := sample_object ]};
     outage := fun op =>
       match op with
       | DeleteObject => Some ("AccessDenied", "Access Denied")
       | _ => None
       end |}.

Definition delete_by (user_id : string) : delete_image.event :=
  {| delete_image.path_image_id := Some "img-1";
     delete_image.body := Ok (Json.JDict [("user_id", Json.JStr user_id)]) |}.

(** A date bound that passes the validator of [ListImagesRequest]. *)
Definition valid_or_absent (fromisoformat : string → bool) (d : option string) : Prop :=
  match d with
  | Some s => truthy_str s = true → fromisoformat (replace_Z s) = true
  | None => True
  end.

(** What the list flow does when there is no owner filter and the date
    bounds pass validation: the bounds do not occur. *)
Definition unfiltered_listing (int : string → option Z)
    (limit next_token : option string) : M response :=
  limit ← lift (list_images.parse_limit int limit);
  let listing key :=
    found ← DynamoDBService.scan_all limit key;
    mret (success_response
            (ListImagesResponse found.1 (Z.of_nat (length found.1))
               (list_images.token_of found.2) (bool_decide (is_Some found.2))) 200) in
  match ListImagesRequest.check_limit limit with
  | [] =>
      match next_token with
      | Some token =>
          if truthy_str token then
            match list_images.decode token with
            | Ok key => listing (Some key)
            | Raise _ => mret (validation_error_response "Invalid pagination token" None)
            end
          else listing None
      | None => listing None
      end
  | errors => mret (validation_error_response "Invalid request parameters" (Some errors))
  end.

(** One invocation of one of the five handlers, with what it reads from
    its event and from the runtime. *)
Inductive invocation :=
| IssueUpload (uuid4 : string) (body : result Body.t)
| CompleteUpload (utcnow : nat → string) (body : result Body.t)
| IssueDownload (image_id : option string)
| DeleteImage (ev : delete_image.event)
| ListImages (fromisoformat : string → bool) (int : string → option Z)
    (query_params : list_images.query_string).

Definition flow_of (i : invocation) : M response :=
  match i with
  | IssueUpload uuid4 body => upload_presigned_url.flow uuid4 body
  | CompleteUpload utcnow body => complete_upload.flow utcnow body
  | IssueDownload image_id => get_image_presigned_url.flow image_id
  | DeleteImage ev => delete_image.flow ev
  | ListImages fromisoformat int query_params =>
      list_images.flow fromisoformat int query_params
  end.

Definition failure_of (i : invocation) : string :=
  match i with
  | IssueUpload _ _ => upload_presigned_url.failure
  | CompleteUpload _ _ => complete_upload.failure
  | IssueDownload _ => get_image_presigned_url.failure
  | DeleteImage _ => delete_image.failure
  | ListImages _ _ _ => list_images.failure
  end.

Definition handler_of (i : invocation) : World → response * World :=
  match i with
  | IssueUpload uuid4 body => upload_presigned_url.handler uuid4 body
  | CompleteUpload utcnow body => complete_upload.handler utcnow body
  | IssueDownload image_id => get_image_presigned_url.handler image_id
  | DeleteImage ev => delete_image.handler ev
  | ListImages fromisoformat int query_params =>
      list_images.handler fromisoformat int query_params
  end.

Definition no_filter : list_images.query_string :=
  {| list_images.user_id := None;
     list_images.start_date := None;
     list_images.end_date := None;
     list_images.limit := None;
     list_images.next_token := None |}.

(** A table that is out of read capacity. *)
Definition throttled : World :=
  {| table := ∅;
     bucket := ∅;
     outage := fun op =>
       match op with
       | Scan => Some ("ProvisionedThroughputExceededException",
                       "The level of configured provisioned throughput for the table was exceeded.")
       | _ => None
       end |}.

Definition dated : list_images.query_string :=
  {| list_images.user_id := None;
     list_images.start_date := Some "2026-01-01T00:00:00";
     list_images.end_date := Some "2026-02-13T23:59:59Z";
     list_images.limit := None;
     list_images.next_token := None |}.

Definition with_token (token : string) : list_images.query_string :=
  {| list_images.user_id := None;
     list_images.start_date := None;
     list_images.end_date := None;
     list_images.limit := None;
     list_images.next_token := Some token |}.

(** A bound that is given: present and not the empty text. *)
Definition given (d : option string) : option string :=
  match d with
  | Some EmptyString => None
  | _ => d
  end.

(** The interval the two optional bounds describe. *)
Definition within (start_date end_date : option string) (ts : string) : Prop :=
  match given start_date, given end_date with
  | Some s, Some e => String.leb s ts = true ∧ String.leb ts e = true
  | Some s, None => String.leb s ts = true
  | None, Some e => String.leb ts e = true
  | None, None => True
  end.

(** Most recent first. *)
Definition newer_first (a b : ImageMetadata.t) : Prop :=
  String.leb (ImageMetadata.upload_timestamp b) (ImageMetadata.upload_timestamp a) = true.

(** How a returned image relates to the index entry it was read from. *)
Definition read_from (w : World) (user_id : string) (c : option range_condition)
    (e : entry) (m : ImageMetadata.t) : Prop :=
  ImageMetadata.image_id m = e.1.2
  ∧ ImageMetadata.user_id m = user_id
  ∧ ImageMetadata.upload_timestamp m = e.1.1
  ∧ in_condition c e.1.1 = true
  ∧ table w !! e.1.2 = Some e.2
  ∧ Item.user_id e.2 = Some user_id
  ∧ Item.upload_timestamp e.2 = Some e.1.1.

(** A table whose items are all complete image records. *)
Definition well_formed (w : World) : Prop :=
  ∀ image_id item, table w !! image_id = Some item →
    ∃ m, ImageMetadata.new (DynamoDBService.args_of (image_id, item)) = Ok m.

(** The same, as a check that computes. *)
Definition all_complete (w : World) : bool :=
  forallb (fun kv => match ImageMetadata.new (DynamoDBService.args_of kv) with
                     | Ok _ => true
                     | Raise _ => false
                     end) (map_to_list (table w)).

(** Records of two owners over five days. *)
Definition gallery : World :=
  {| table := {[ "img-10" := sample_record "user-123" "2026-02-10T10:00:00";
                 "img-11" := sample_record "user-123" "2026-02-11T10:00:00";
                 "img-12" := sample_record "user-123" "2026-02-12T10:00:00";
                 "img-13" := sample_record "user-123" "2026-02-13T10:00:00";
                 "img-14" := sample_record "user-123" "2026-02-14T10:00:00";
                 "other-12" := sample_record "user-456" "2026-02-12T10:00:00" ]};
     bucket := ∅;
     outage := fun _ => None |}.

(** The image ids on a page. *)
Definition page_ids (r : result (list ImageMetadata.t * option Json.keymap) * World)
  : result (list string) :=
  (fun found : list ImageMetadata.t * option Json.keymap =>
     ImageMetadata.image_id <$> found.1) <$> r.1.





Definition sample_key : Json.keymap :=
  [("image_id", "img-13"); ("user_id", "user-123");
   ("upload_timestamp", "2026-02-13T10:00:00")].


(** [int] on the one text the samples use. *)
Definition sample_int (s : string) : option Z :=
  if String.eqb s "2" then Some 2 else None.

(** ** File names and patterns *)

(** [all(P(c) for c in s)] *)
Fixpoint all_chars (P : ascii → bool) (s : string) : bool :=
  match s with
  | EmptyString => true
  | String c r => P c && all_chars P r
  end.

(** The last path component of a file name. *)
Definition stripped (filename : string) : string :=
  last_item (split "\" (last_item (split "/" filename))).

(** The extension of a file name: what follows the last dot of its last
    path component, nothing when that has no dot. *)
Definition extension (filename : string) : string :=
  let name := last_item (split "\" (last_item (split "/" filename))) in
  if contains "." name then last_item (split "." name) else EmptyString.

(** The letters [a-z] and [A-Z]. *)
Definition letter (c : ascii) : bool := in_range "a" "z" c || in_range "A" "Z" c.

(** A step of a pattern that takes exactly [n] characters off the front
    of the text, whatever follows them. *)
Definition consumes (f : string → option string) (n : nat) : Prop :=
  ∀ s r, f s = Some r →
    ∃ p, s = p +:+ r ∧ String.length p = n ∧ ∀ t, f (p +:+ t) = Some t.

(** A step of a pattern that does not tell the case of letters. *)
Definition caseless (f : string → option string) : Prop :=
  ∀ s, f (lower s) = lower <$> f s.

(** The text made of one newline. *)
Definition NEWLINE : string := String "010" EmptyString.

(** ** Records and requests *)

(** The same record with another status. *)
Definition with_status (status : ImageStatus) (m : ImageMetadata.t) : ImageMetadata.t :=
  ImageMetadata.mk (ImageMetadata.image_id m) (ImageMetadata.user_id m)
    (ImageMetadata.filename m) (ImageMetadata.content_type m) (ImageMetadata.file_size m)
    (ImageMetadata.upload_timestamp m) (ImageMetadata.tags m) (ImageMetadata.description m)
    status (ImageMetadata.s3_key m).

(** The complete-upload body made of an issue-upload body, an image id
    and the size of the uploaded file. *)
Definition completion_of (body : Body.t) (image_id : string) (file_size : Z) : Body.t :=
  Body.mk (Some image_id) (Body.user_id body) (Body.filename body) (Body.content_type body)
    (Some file_size) (Body.tags body) (Body.description body).

(** The error pydantic reports for a [status] that is no member of
    [ImageStatus]. *)
Definition bad_status : Models.error :=
  ("status",
   "value is not a valid enumeration member; permitted: 'pending', 'completed', 'failed'",
   "type_error.enum").

(** ** Computations and responses *)

(** A computation that leaves both backends as it found them, whether
    it returns or raises. *)
Definition read_only {A} (m : M A) : Prop := ∀ w, (m w).2 = w.

(** The responses a computation may return: their status codes and
    their headers. *)
Definition answers (codes : list Z) (m : M response) : Prop :=
  ∀ w r w', m w = (Ok r, w') → statusCode r ∈ codes ∧ headers r = default_headers.

(** The status codes of each handler. *)
Definition statuses (i : invocation) : list Z :=
  match i with
  | IssueUpload _ _ => [200; 400; 500]
  | CompleteUpload _ _ => [200; 400; 404; 500]
  | IssueDownload _ => [200; 404; 500]
  | DeleteImage _ => [200; 400; 401; 404; 500]
  | ListImages _ _ _ => [200; 400; 500]
  end.

(** The error of an operation the service refuses. *)
Definition refusal (op : operation) (fault : string * string) : exn :=
  ClientError fault.1 (operation_name op) fault.2.

(** The request of [caller] to delete [image_id]. *)
Definition delete_request (image_id caller : string) : delete_image.event :=
  {| delete_image.path_image_id := Some image_id;
     delete_image.body := Ok (Json.JDict [("user_id", Json.JStr caller)]) |}.

(** The arguments the complete flow gives to [ImageMetadata] for a
    request whose object the store reports as [obj]. *)
Definition completion_args (request : CompleteUploadRequest.t) (upload_timestamp : string)
    (obj : S3Object.t) : ImageMetadata.args :=
  {| ImageMetadata.a_image_id := Some (CompleteUploadRequest.image_id request);
     ImageMetadata.a_user_id := Some (CompleteUploadRequest.user_id request);
     ImageMetadata.a_filename := Some (CompleteUploadRequest.filename request);
     ImageMetadata.a_content_type := S3Object.ContentType obj;
     ImageMetadata.a_file_size := S3Object.ContentLength obj;
     ImageMetadata.a_upload_timestamp := Some upload_timestamp;
     ImageMetadata.a_tags := CompleteUploadRequest.tags request;
     ImageMetadata.a_description := CompleteUploadRequest.description request;
     ImageMetadata.a_status := Some (status_value COMPLETED);
     ImageMetadata.a_s3_key :=
       Some (object_key (CompleteUploadRequest.user_id request)
               (CompleteUploadRequest.image_id request)
               (CompleteUploadRequest.filename request)) |}.

(** The two answers of the complete flow that are not errors of the
    request: the upload is recorded, the object is not there. *)
Definition completed (image_id : string) : response :=
  success_response
    (CompleteUploadResponse image_id "completed" "Image upload completed successfully") 200.

Definition not_uploaded : response :=
  not_found_response "Image not uploaded to S3. Please upload the file first.".

(** The record the complete flow builds for a request whose object the
    store reports with [content_type] and [file_size]. *)
Definition stored (request : CompleteUploadRequest.t) (upload_timestamp content_type : string)
    (file_size : Z) : ImageMetadata.t :=
  ImageMetadata.mk (CompleteUploadRequest.image_id request)
    (CompleteUploadRequest.user_id request) (CompleteUploadRequest.filename request)
    content_type file_size upload_timestamp
    (CompleteUploadRequest.tags request) (CompleteUploadRequest.description request)
    COMPLETED
    (object_key (CompleteUploadRequest.user_id request)
       (CompleteUploadRequest.image_id request) (CompleteUploadRequest.filename request)).

(** The policy the issue flow has signed for a request. *)
Definition policy_of (request : UploadPresignedUrlRequest.t) (image_id : string)
  : PresignedPost :=
  {| post_url := "https://" +:+ Config.S3_BUCKET_NAME +:+ ".s3.amazonaws.com/";
     post_key := object_key (UploadPresignedUrlRequest.user_id request) image_id
                   (Validators.sanitize_filename (UploadPresignedUrlRequest.filename request));
     post_content_type := UploadPresignedUrlRequest.content_type request;
     post_length_range := (UploadPresignedUrlRequest.file_size request,
                           UploadPresignedUrlRequest.file_size request);
     post_expires_in := 3600 |}.

(** ** Listings *)

(** The same query string with another [limit], with another
    [next_token]. *)
Definition with_limit (limit : option string) (q : list_images.query_string)
  : list_images.query_string :=
  {| list_images.user_id := list_images.user_id q;
     list_images.start_date := list_images.start_date q;
     list_images.end_date := list_images.end_date q;
     list_images.limit := limit;
     list_images.next_token := list_images.next_token q |}.

Definition with_next_token (next_token : option string) (q : list_images.query_string)
  : list_images.query_string :=
  {| list_images.user_id := list_images.user_id q;
     list_images.start_date := list_images.start_date q;
     list_images.end_date := list_images.end_date q;
     list_images.limit := list_images.limit q;
     list_images.next_token := next_token |}.

(** The request the list flow builds from a query string. *)
Definition request_of (q : list_images.query_string) (limit : Z) : ListImagesRequest.t :=
  ListImagesRequest.mk (list_images.user_id q) (list_images.start_date q)
    (list_images.end_date q) limit (list_images.next_token q).

(** The whole traversal of a [Scan], and of a [Query] on the index in
    descending order. *)
Definition scan_run (t : gmap string Item.t) : list (string * Item.t) :=
  merge_sort (fun a b : string * Item.t => String.leb a.1 b.1) (map_to_list t).

Definition query_run (t : gmap string Item.t) (user_id : string)
    (c : option range_condition) : list entry :=
  reverse (merge_sort entry_le
             (filter (fun e : entry => in_condition c e.1.1) (index_partition t user_id))).

(** The page a starting position leaves of a traversal. *)
Definition scan_rest (start : option string) (run : list (string * Item.t))
  : list (string * Item.t) :=
  match start with
  | None => run
  | Some i => filter (fun kv : string * Item.t => String.ltb i kv.1) run
  end.

Definition query_rest (start : option position) (run : list entry) : list entry :=
  match start with
  | None => run
  | Some pos => filter (fun e : entry => beyond false pos (entry_position e)) run
  end.

(** The answer that lists nothing. *)
Definition empty_page : response :=
  success_response (ListImagesResponse [] 0 None false) 200.




(** The records a request asks for: those of the owner inside the date
    bounds, or all of them when no owner is named. *)
Definition matches (request : ListImagesRequest.t) (item : Item.t) : Prop :=
  if truthy (ListImagesRequest.user_id request) then
    Item.user_id item = ListImagesRequest.user_id request
    ∧ ∃ ts, Item.upload_timestamp item = Some ts
            ∧ within (ListImagesRequest.start_date request)
                (ListImagesRequest.end_date request) ts
  else True.

(** ** More sample states *)

(** A world with one record and its object, every service answering. *)
Definition stocked : World :=
  {| table := {[ "img-1" := sample_record "owner" "2026-02-13T10:00:00" ]};
     bucket := {[ "images/owner/img-1_photo.jpg" := sample_object ]};
     outage := fun _ => None |}.

(** The same, with a table that refuses deletions. *)
Definition stuck_table : World :=
  {| table := table stocked;
     bucket := bucket stocked;
     outage := fun op =>
       match op with
       | DeleteItem => Some ("ProvisionedThroughputExceededException", "Throughput exceeded")
       | _ => None
       end |}.

(** The record of [stocked], as the model reads it. *)
Definition sample_metadata : ImageMetadata.t :=
  ImageMetadata.mk "img-1" "owner" "photo.jpg" "image/jpeg" 1024 "2026-02-13T10:00:00"
    None None COMPLETED "images/owner/img-1_photo.jpg".

(** A stand-in for [int] that reads the texts [0] and [50]. *)
Definition small_int (s : string) : option Z :=
  if String.eqb s "0" then Some 0 else if String.eqb s "50" then Some 50 else None.

(** The images of one owner between two dates given in the wrong
    order. *)
Definition reversed : list_images.query_string :=
  {| list_images.user_id := Some "user-123";
     list_images.start_date := Some "2026-02-13T23:59:59";
     list_images.end_date := Some "2026-02-11T00:00:00";
     list_images.limit := None;
     list_images.next_token := None |}.

(** The images of an owner. *)
Definition owned_by (user_id : string) : list_images.query_string :=
  {| list_images.user_id := Some user_id;
     list_images.start_date := None;
     list_images.end_date := None;
     list_images.limit := None;
     list_images.next_token := None |}.

(* ===================================================================== *)
(** * Properties                                                          *)
(* ===================================================================== *)

(** Unfolds the monad of the backends down to matches on pairs. *)
Ltac unfold_M :=
  unfold respond, mbind, M_bind, mret, M_ret, lift, raise, gets, modify, call,
    try_except in *.

(** ** The monad of the backends *)

Lemma bind_ok {A B} (m : M A) (k : A → M B) w a w' :
  m w = (Ok a, w') → (m ≫= k) w = k a w'.
Proof. intros H. unfold mbind, M_bind. by rewrite H. Qed.

Lemma bind_raise {A B} (m : M A) (k : A → M B) w e w' :
  m w = (Raise e, w') → (m ≫= k) w = (Raise e, w').
Proof. intros H. unfold mbind, M_bind. by rewrite H. Qed.

Lemma bind_lift_ok {A B} (a : A) (k : A → M B) w : (lift (Ok a) ≫= k) w = k a w.
Proof. reflexivity. Qed.

Lemma bind_lift_raise {A B} e (k : A → M B) w : (lift (Raise e) ≫= k) w = (Raise e, w).
Proof. reflexivity. Qed.

Lemma call_ok op w : outage w op = None → call op w = (Ok tt, w).
Proof. intros H. unfold call. by rewrite H. Qed.

Lemma call_fails op w code message :
  outage w op = Some (code, message) →
  call op w = (Raise (ClientError code (operation_name op) message), w).
Proof. intros H. unfold call. by rewrite H. Qed.

(** ** Text *)

Lemma truthy_str_true s : truthy_str s = true ↔ s ≠ EmptyString.
Proof. destruct s; simpl; split; congruence. Qed.

Lemma len_nonneg s : 0 <= len s.
Proof. unfold len. lia. Qed.

Lemma len_lt_1 s : (len s <? 1) = negb (truthy_str s).
Proof.
  destruct s as [|c r]; [reflexivity|].
  unfold len. simpl String.length. simpl truthy_str.
  apply Z.ltb_ge. lia.
Qed.

Lemma append_inv_head (p a b : string) : p +:+ a = p +:+ b → a = b.
Proof. induction p as [|c p IH]; simpl; [done|]. intros [= H]. auto. Qed.

Lemma object_key_inj user_id image_id f1 f2 :
  object_key user_id image_id f1 = object_key user_id image_id f2 → f1 = f2.
Proof.
  unfold object_key. intros H.
  repeat (apply append_inv_head in H). exact H.
Qed.

(** ** Request validation *)

Lemma check_required_str_ok loc s :
  s ≠ EmptyString → check_required_str loc (Some s) = [].
Proof.
  intros Hs. unfold check_required_str. rewrite len_lt_1.
  apply truthy_str_true in Hs. by rewrite Hs.
Qed.

Lemma check_content_type_ok ct :
  ct ∈ Validators.allowed_types → check_content_type (Some ct) = [].
Proof.
  intros Hin.
  assert (ct ≠ EmptyString) as Hne.
  { intros ->. by apply (bool_decide_eq_true_2 _) in Hin. }
  unfold check_content_type. rewrite (check_required_str_ok _ _ Hne).
  unfold validate_content_type. by rewrite bool_decide_eq_true_2.
Qed.

Lemma check_content_type_bad ct :
  ct ∉ Validators.allowed_types → check_content_type (Some ct) ≠ [].
Proof.
  intros Hin. unfold check_content_type, check_required_str.
  destruct (len ct <? 1); [done|].
  unfold validate_content_type. by rewrite bool_decide_eq_false_2.
Qed.

Lemma check_file_size_upload fs :
  check_file_size (Some MAX_FILE_SIZE) (Some fs) = [] ↔ 1 <= fs <= 10485760.
Proof.
  unfold check_file_size, check_gt, check_le, MAX_FILE_SIZE.
  destruct (0 <? fs) eqn:H1; [destruct (fs <=? 10485760) eqn:H2|]; split;
    try done; try lia.
Qed.

Lemma check_file_size_positive fs :
  check_file_size None (Some fs) = [] ↔ 0 < fs.
Proof.
  unfold check_file_size, check_gt.
  destruct (0 <? fs) eqn:H1; split; try done; try lia.
Qed.

(** A rejected upload request is always rejected by the model itself. *)
Lemma upload_request_raises body e :
  UploadPresignedUrlRequest.new body = Raise e →
  ∃ errors, e = ValidationError "UploadPresignedUrlRequest" errors.
Proof.
  unfold UploadPresignedUrlRequest.new.
  destruct (UploadPresignedUrlRequest.errors body) as [|err errs];
    destruct (Body.user_id body), (Body.filename body), (Body.content_type body),
      (Body.file_size body); intros [= <-]; eauto.
Qed.

Lemma upload_request_accepted body u f ct fs :
  Body.user_id body = Some u → Body.filename body = Some f →
  Body.content_type body = Some ct → Body.file_size body = Some fs →
  (∃ request, UploadPresignedUrlRequest.new body = Ok request)
  ↔ UploadPresignedUrlRequest.errors body = [].
Proof.
  intros Hu Hf Hct Hfs. unfold UploadPresignedUrlRequest.new.
  rewrite Hu, Hf, Hct, Hfs.
  destruct (UploadPresignedUrlRequest.errors body); split; eauto; try done.
  by intros [? ?].
Qed.

Lemma upload_rejection_is_400 uuid4 w body errors :
  UploadPresignedUrlRequest.new body = Raise (ValidationError "UploadPresignedUrlRequest" errors) →
  upload_presigned_url.handler uuid4 (Ok body) w
  = (validation_error_response "Invalid request data" (Some errors), w).
Proof.
  intros H. unfold upload_presigned_url.handler, upload_presigned_url.flow.
  unfold_M. by rewrite H.
Qed.

(** C9.  Issue-upload validation accepts a request whose other members
    are valid exactly when its [content_type] is on the white list and
    [1 <= file_size <= 10485760]; every rejected body, whatever the
    reason, is answered with status 400 and error [ValidationError]. *)
Theorem C9_upload_validation_boundaries uuid4 w body u f ct fs :
  Body.user_id body = Some u → u ≠ EmptyString →
  Body.filename body = Some f → f ≠ EmptyString →
  Body.content_type body = Some ct →
  Body.file_size body = Some fs →
  check_description (Body.description body) = [] →
  ((∃ request, UploadPresignedUrlRequest.new body = Ok request)
     ↔ ct ∈ Validators.allowed_types ∧ 1 <= fs <= 10485760)
  ∧ (∀ body' e, UploadPresignedUrlRequest.new body' = Raise e →
       ∃ errors,
         e = ValidationError "UploadPresignedUrlRequest" errors
         ∧ upload_presigned_url.handler uuid4 (Ok body') w
           = (validation_error_response "Invalid request data" (Some errors), w)
         ∧ statusCode (upload_presigned_url.handler uuid4 (Ok body') w).1 = 400
         ∧ error_of (upload_presigned_url.handler uuid4 (Ok body') w).1
           = Some ("ValidationError", "Invalid request data")).
Proof.
  intros Hu Hune Hf Hfne Hct Hfs Hdesc. split.
  - rewrite (upload_request_accepted body u f ct fs) by done.
    unfold UploadPresignedUrlRequest.errors.
    rewrite Hu, Hf, Hct, Hfs, Hdesc, !check_required_str_ok, app_nil_r by done.
    cbn [app]. rewrite app_nil, check_file_size_upload.
    split.
    + intros [Hc Hrange]. split; [|done].
      destruct (decide (ct ∈ Validators.allowed_types)) as [Hin|Hout]; [done|].
      by apply check_content_type_bad in Hout.
    + intros [Hin Hrange]. split; [|done]. by apply check_content_type_ok.
  - intros body' e Hraise.
    destruct (upload_request_raises _ _ Hraise) as [errors ->].
    exists errors. split; [done|].
    rewrite (upload_rejection_is_400 uuid4 w _ _ Hraise). by repeat split.
Qed.

Lemma C9_witness :
  (∃ request, UploadPresignedUrlRequest.new (sample_upload "image/jpeg" 10485760) = Ok request)
  ∧ ¬ (∃ request, UploadPresignedUrlRequest.new (sample_upload "image/jpeg" 0) = Ok request)
  ∧ ¬ (∃ request, UploadPresignedUrlRequest.new (sample_upload "image/jpeg" 10485761) = Ok request)
  ∧ ¬ (∃ request, UploadPresignedUrlRequest.new (sample_upload "image/svg+xml" 1024) = Ok request).
Proof.
  split; [|split; [|split]].
  - apply (C9_upload_validation_boundaries "id" idle (sample_upload "image/jpeg" 10485760)
             "user123" "photo.jpg" "image/jpeg" 10485760); try done.
    split; [by apply (bool_decide_eq_true_1 _) | lia].
  - intros H.
    apply (C9_upload_validation_boundaries "id" idle (sample_upload "image/jpeg" 0)
             "user123" "photo.jpg" "image/jpeg" 0) in H; try done. lia.
  - intros H.
    apply (C9_upload_validation_boundaries "id" idle (sample_upload "image/jpeg" 10485761)
             "user123" "photo.jpg" "image/jpeg" 10485761) in H; try done. lia.
  - intros H.
    apply (C9_upload_validation_boundaries "id" idle (sample_upload "image/svg+xml" 1024)
             "user123" "photo.jpg" "image/svg+xml" 1024) in H; try done.
    destruct H as [H _]. by apply (bool_decide_eq_true_2 _) in H.
Defined.

(** ** The storage key of the two upload flows *)

(** The two flows derive the same key exactly for the file names that
    [sanitize_filename] leaves alone. *)
Lemma keys_agree_iff user_id image_id filename :
  object_key user_id image_id filename
  = object_key user_id image_id (Validators.sanitize_filename filename)
  ↔ Validators.sanitize_filename filename = filename.
Proof.
  split.
  - intros H. by apply object_key_inj in H.
  - by intros ->.
Qed.

(** C1.  The issue flow signs the key built from the sanitized file name,
    the complete flow rebuilds the key from the file name as sent.  For
    the file name [my photo.jpg] the issued key ends in [my_photo.jpg];
    with the object uploaded at the issued key, completion with the same
    [user_id], [image_id] and [filename] looks at another key and answers
    404; an object at the unsanitized key is what it accepts. *)
Theorem C1_complete_key_not_sanitized :
  let issued := "images/user123/img-1_my_photo.jpg" in
  let recomputed := "images/user123/img-1_my photo.jpg" in
  (upload_presigned_url.handler "img-1" (Ok (sample_complete "my photo.jpg")) idle).1
  = success_response
      (PresignedUrlResponse "img-1"
         {| post_url := "https://mont-images.s3.amazonaws.com/";
            post_key := issued;
            post_content_type := "image/jpeg";
            post_length_range := (1024, 1024);
            post_expires_in := 3600 |} 3600 issued) 200
  ∧ (complete_upload.handler sample_clock (Ok (sample_complete "my photo.jpg"))
       (with_bucket (insert issued sample_object) idle)).1
    = not_found_response "Image not uploaded to S3. Please upload the file first."
  ∧ (complete_upload.handler sample_clock (Ok (sample_complete "my photo.jpg"))
       (with_bucket (insert recomputed sample_object) idle)).1
    = success_response
        (CompleteUploadResponse "img-1" "completed" "Image upload completed successfully") 200.
Proof. repeat split; vm_compute; reflexivity. Qed.

(** ** [update_status] *)

(** C7, as the claim states it, fails: on the empty table
    [update_status] reports success and leaves a new item behind. *)
Lemma C7_counterexample :
  table idle !! "ghost" = None
  ∧ (DynamoDBService.update_status "2026-02-13T10:00:00" "ghost" "completed" idle).1 = Ok true
  ∧ table (DynamoDBService.update_status "2026-02-13T10:00:00" "ghost" "completed" idle).2
      !! "ghost"
    = Some (status_only "completed" "2026-02-13T10:00:00")
  ∧ table (DynamoDBService.update_status "2026-02-13T10:00:00" "ghost" "completed" idle).2
    ≠ table idle.
Proof.
  repeat split; try (vm_compute; reflexivity).
  intros H. apply (f_equal (fun t => t !! "ghost")) in H. vm_compute in H. discriminate H.
Qed.

(** C7, amended.  For every [image_id] without a record and every status,
    [update_status] reports success and adds an item under [image_id]
    that carries only [status] and [updated_at]; every other item and
    the bucket are unchanged. *)
Theorem C7_update_status_upserts now image_id status w :
  table w !! image_id = None →
  image_id ≠ EmptyString →
  outage w UpdateItem = None →
  ∃ w',
    DynamoDBService.update_status now image_id status w = (Ok true, w')
    ∧ table w' !! image_id = Some (status_only status now)
    ∧ (∀ other, other ≠ image_id → table w' !! other = table w !! other)
    ∧ bucket w' = bucket w.
Proof.
  intros Habsent Hid Hup.
  apply truthy_str_true in Hid.
  unfold DynamoDBService.update_status, update_item. unfold_M.
  rewrite Hup, Hid. eexists. split; [reflexivity|].
  simpl. rewrite Habsent. simpl. split; [|split].
  - by rewrite lookup_insert_eq.
  - intros other Hne. by rewrite lookup_insert_ne.
  - reflexivity.
Qed.

Lemma C7_witness :
  ∃ w',
    DynamoDBService.update_status "2026-02-13T10:00:00" "ghost" "failed" idle = (Ok true, w')
    ∧ table w' !! "ghost" = Some (status_only "failed" "2026-02-13T10:00:00")
    ∧ (∀ other, other ≠ "ghost" → table w' !! other = table idle !! other)
    ∧ bucket w' = bucket idle.
Proof.
  apply (C7_update_status_upserts "2026-02-13T10:00:00" "ghost" "failed" idle);
    [reflexivity | done | reflexivity].
Defined.

(** ** Deletion *)

Lemma get_item_found w image_id item metadata :
  image_id ≠ EmptyString →
  outage w GetItem = None →
  table w !! image_id = Some item →
  ImageMetadata.new (DynamoDBService.args_of (image_id, item)) = Ok metadata →
  DynamoDBService.get_item image_id w = (Ok (Some metadata), w).
Proof.
  intros Hid Hget Hitem Hnew. apply truthy_str_true in Hid.
  unfold DynamoDBService.get_item, get_item. unfold_M.
  rewrite Hget, Hid, Hitem, Hnew. reflexivity.
Qed.

Lemma get_item_absent w image_id :
  image_id ≠ EmptyString →
  outage w GetItem = None →
  table w !! image_id = None →
  DynamoDBService.get_item image_id w = (Ok None, w).
Proof.
  intros Hid Hget Hitem. apply truthy_str_true in Hid.
  unfold DynamoDBService.get_item, get_item. unfold_M.
  rewrite Hget, Hid, Hitem. reflexivity.
Qed.

(** C6.  When the record of [image_id] exists and the caller is not its
    owner, the answer is 401 and neither backend changes.  When the
    caller is the owner and the table accepts the deletion, the answer
    is the success response and the record is gone, whether the object
    store deleted the object or failed: in the second case the object
    stays and the failure is not propagated. *)
Theorem C6_delete_authorization ev w image_id pairs caller item metadata :
  delete_image.path_image_id ev = Some image_id → image_id ≠ EmptyString →
  delete_image.body ev = Ok (Json.JDict pairs) →
  lookup_member "user_id" pairs = Some (Json.JStr caller) → caller ≠ EmptyString →
  outage w GetItem = None →
  table w !! image_id = Some item →
  ImageMetadata.new (DynamoDBService.args_of (image_id, item)) = Ok metadata →
  (ImageMetadata.user_id metadata ≠ caller →
     delete_image.handler ev w
     = (unauthorized_response "You don't have permission to delete this image", w)
     ∧ statusCode (delete_image.handler ev w).1 = 401)
  ∧ (ImageMetadata.user_id metadata = caller → outage w DeleteItem = None →
     ∃ w',
       delete_image.handler ev w
       = (success_response
            (DeleteImageResponse image_id "deleted" "Image deleted successfully") 200, w')
       ∧ table w' !! image_id = None
       ∧ table w' = delete image_id (table w)
       ∧ bucket w' = match outage w DeleteObject with
                     | None => delete (ImageMetadata.s3_key metadata) (bucket w)
                     | Some _ => bucket w
                     end).
Proof.
  intros Hpath Hid Hbody Huser Hcaller Hget Hitem Hnew.
  pose proof (get_item_found w image_id item metadata Hid Hget Hitem Hnew) as Hfound.
  apply truthy_str_true in Hid. apply truthy_str_true in Hcaller.
  assert (delete_image.flow ev w
          = (if delete_image.differs (ImageMetadata.user_id metadata) (Some (Json.JStr caller))
             then mret (unauthorized_response "You don't have permission to delete this image")
             else
               _ ← try_except (S3Service.delete_object (ImageMetadata.s3_key metadata))
                     (fun _ => mret false);
               _ ← DynamoDBService.delete_item image_id;
               mret (success_response
                       (DeleteImageResponse image_id "deleted"
                          "Image deleted successfully") 200)) w) as Hflow.
  { unfold delete_image.flow. rewrite Hpath, Hid, Hbody. cbn [negb].
    rewrite bind_lift_ok. cbn [delete_image.get_user_id]. rewrite Huser, bind_lift_ok.
    cbn [delete_image.truthy_member Json.truthy_value]. rewrite Hcaller. cbn [negb].
    by rewrite (bind_ok _ _ _ _ _ Hfound). }
  unfold delete_image.handler, respond. rewrite Hflow. clear Hflow.
  cbn [delete_image.differs]. split.
  - intros Hne. apply String.eqb_neq in Hne. rewrite Hne. by split.
  - intros Heq Hdel. apply String.eqb_eq in Heq. rewrite Heq. cbn [negb].
    unfold DynamoDBService.delete_item, S3Service.delete_object, delete_item, delete_object.
    unfold_M. rewrite Hid.
    destruct (outage w DeleteObject) as [[code message]|] eqn:Hobj; simpl; rewrite Hdel;
      eexists; (split; [reflexivity|]); simpl;
      (split; [apply lookup_delete_eq | split; reflexivity]).
Qed.

Lemma C6_witness :
  (delete_image.handler (delete_by "mallory") stuck_store
   = (unauthorized_response "You don't have permission to delete this image", stuck_store)
   ∧ statusCode (delete_image.handler (delete_by "mallory") stuck_store).1 = 401)
  ∧ ∃ w',
      delete_image.handler (delete_by "owner") stuck_store
      = (success_response
           (DeleteImageResponse "img-1" "deleted" "Image deleted successfully") 200, w')
      ∧ table w' !! "img-1" = None
      ∧ table w' = delete "img-1" (table stuck_store)
      ∧ bucket w' = bucket stuck_store.
Proof.
  split.
  - eapply (C6_delete_authorization (delete_by "mallory") stuck_store "img-1" _ "mallory");
      [reflexivity | done | reflexivity | reflexivity | done | reflexivity
      | reflexivity | reflexivity | done].
  - eapply (C6_delete_authorization (delete_by "owner") stuck_store "img-1" _ "owner");
      [reflexivity | done | reflexivity | reflexivity | done | reflexivity
      | reflexivity | reflexivity | reflexivity | reflexivity].
Defined.

(** ** The two-phase upload *)

Lemma complete_request_fields body request :
  CompleteUploadRequest.new body = Ok request →
  CompleteUploadRequest.image_id request ≠ EmptyString
  ∧ CompleteUploadRequest.user_id request ≠ EmptyString.
Proof.
  unfold CompleteUploadRequest.new.
  destruct (CompleteUploadRequest.errors body) as [|err errs] eqn:Herrs;
    destruct (Body.image_id body) as [i|] eqn:Hi, (Body.user_id body) as [u|] eqn:Hu,
      (Body.filename body), (Body.content_type body), (Body.file_size body);
    intros [= <-]. simpl.
  unfold CompleteUploadRequest.errors in Herrs. rewrite Hi, Hu in Herrs.
  apply app_nil in Herrs as [H1 Herrs]. apply app_nil in Herrs as [H2 _].
  unfold check_required_str in H1, H2. rewrite len_lt_1 in H1, H2.
  split; apply truthy_str_true.
  - by destruct (truthy_str i).
  - by destruct (truthy_str u).
Qed.

Lemma complete_flow_request utcnow body request w :
  CompleteUploadRequest.new body = Ok request →
  complete_upload.flow utcnow (Ok body) w
  = (let s3_key := object_key (CompleteUploadRequest.user_id request)
                     (CompleteUploadRequest.image_id request)
                     (CompleteUploadRequest.filename request) in
     found ← S3Service.check_object_exists s3_key;
     if negb found then
       mret (not_found_response "Image not uploaded to S3. Please upload the file first.")
     else
       s3_metadata ← S3Service.get_object_metadata s3_key;
       metadata ← lift (ImageMetadata.new
         {| ImageMetadata.a_image_id := Some (CompleteUploadRequest.image_id request);
            ImageMetadata.a_user_id := Some (CompleteUploadRequest.user_id request);
            ImageMetadata.a_filename := Some (CompleteUploadRequest.filename request);
            ImageMetadata.a_content_type :=
              match s3_metadata with
              | Some md => S3Object.ContentType md
              | None => Some (CompleteUploadRequest.content_type request)
              end;
            ImageMetadata.a_file_size :=
              match s3_metadata with
              | Some md => S3Object.ContentLength md
              | None => Some (CompleteUploadRequest.file_size request)
              end;
            ImageMetadata.a_upload_timestamp := Some (utcnow 0%nat);
            ImageMetadata.a_tags := CompleteUploadRequest.tags request;
            ImageMetadata.a_description := CompleteUploadRequest.description request;
            ImageMetadata.a_status := Some (status_value COMPLETED);
            ImageMetadata.a_s3_key := Some s3_key |});
       _ ← DynamoDBService.put_item (utcnow 1%nat) metadata;
       mret (success_response
               (CompleteUploadResponse (CompleteUploadRequest.image_id request)
                  "completed" "Image upload completed successfully") 200)) w.
Proof.
  intros Hreq. unfold complete_upload.flow. rewrite bind_lift_ok, Hreq. reflexivity.
Qed.

Lemma check_object_exists_absent w key :
  outage w HeadObject = None → bucket w !! key = None →
  S3Service.check_object_exists key w = (Ok false, w).
Proof.
  intros Hop Hkey. unfold S3Service.check_object_exists, head_object. unfold_M.
  by rewrite Hop, Hkey.
Qed.

Lemma check_object_exists_present w key obj :
  outage w HeadObject = None → bucket w !! key = Some obj →
  S3Service.check_object_exists key w = (Ok true, w).
Proof.
  intros Hop Hkey. unfold S3Service.check_object_exists, head_object. unfold_M.
  by rewrite Hop, Hkey.
Qed.

Lemma get_object_metadata_present w key obj :
  outage w HeadObject = None → bucket w !! key = Some obj →
  S3Service.get_object_metadata key w = (Ok (Some obj), w).
Proof.
  intros Hop Hkey. unfold S3Service.get_object_metadata, head_object. unfold_M.
  by rewrite Hop, Hkey.
Qed.

(** The issue flow touches neither backend. *)
Lemma upload_flow_frame uuid4 body w : (upload_presigned_url.flow uuid4 body w).2 = w.
Proof.
  unfold upload_presigned_url.flow. destruct body as [body|e]; [|reflexivity].
  rewrite bind_lift_ok.
  destruct (UploadPresignedUrlRequest.new body) as [request|[]]; try reflexivity.
  unfold S3Service.generate_presigned_post, generate_presigned_post. unfold_M.
  by destruct (outage w GeneratePresignedPost) as [[? ?]|].
Qed.

Lemma respond_frame failure (flow : M response) w :
  (respond failure flow w).2 = (flow w).2.
Proof. unfold respond. by destruct (flow w) as [[r|e] w']. Qed.

(** C2, as the claim states it, fails: an object sits at the derived key,
    the store reports a content type outside the white list, and the
    complete flow answers 500 and persists nothing. *)
Lemma C2_counterexample :
  let w := with_bucket
             (insert "images/user123/img-1_photo.jpg"
                (S3Object.mk (Some "application/pdf") (Some 1024))) idle in
  let run := complete_upload.handler sample_clock (Ok (sample_complete "photo.jpg")) w in
  is_Some (bucket w !! object_key "user123" "img-1" "photo.jpg")
  ∧ statusCode run.1 = 500
  ∧ table run.2 !! "img-1" = None.
Proof. split; [|split]; [by eexists | reflexivity | reflexivity]. Qed.

(** C2, amended.  The issue flow changes neither backend, so a fresh
    [image_id] has no record afterwards.  For a valid complete-upload
    request, with the object store answering: when no object is at the
    derived key the answer is [NotFound] and nothing is persisted; when
    an object is there whose reported content type is on the white list
    and whose reported size is positive, and the table accepts the
    write, the record of that [image_id] is persisted with
    [status = completed]. *)
Theorem C2_two_phase_upload uuid4 utcnow issue_body body request w :
  CompleteUploadRequest.new body = Ok request →
  utcnow 0%nat ≠ EmptyString →
  outage w HeadObject = None →
  let key := object_key (CompleteUploadRequest.user_id request)
               (CompleteUploadRequest.image_id request)
               (CompleteUploadRequest.filename request) in
  (upload_presigned_url.handler uuid4 issue_body w).2 = w
  ∧ (table w !! uuid4 = None → uuid4 ≠ EmptyString → outage w GetItem = None →
     DynamoDBService.get_item uuid4 (upload_presigned_url.handler uuid4 issue_body w).2
     = (Ok None, w))
  ∧ (bucket w !! key = None →
     complete_upload.handler utcnow (Ok body) w
     = (not_found_response "Image not uploaded to S3. Please upload the file first.", w))
  ∧ (∀ obj content_type size,
       bucket w !! key = Some obj →
       S3Object.ContentType obj = Some content_type →
       content_type ∈ Validators.allowed_types →
       S3Object.ContentLength obj = Some size → 0 < size →
       outage w PutItem = None →
       ∃ w' item,
         complete_upload.handler utcnow (Ok body) w
         = (success_response
              (CompleteUploadResponse (CompleteUploadRequest.image_id request)
                 "completed" "Image upload completed successfully") 200, w')
         ∧ table w' !! CompleteUploadRequest.image_id request = Some item
         ∧ Item.status item = Some "completed"
         ∧ Item.s3_key item = Some key
         ∧ Item.content_type item = Some content_type
         ∧ Item.file_size item = Some size).
Proof.
  intros Hreq Hnow Hhead key.
  assert ((upload_presigned_url.handler uuid4 issue_body w).2 = w) as Hframe.
  { unfold upload_presigned_url.handler. by rewrite respond_frame, upload_flow_frame. }
  split; [exact Hframe|]. split; [|split].
  - intros Hfresh Hid Hget. rewrite Hframe. by apply get_item_absent.
  - intros Habsent. unfold complete_upload.handler, respond.
    rewrite (complete_flow_request _ _ _ _ Hreq). cbv zeta. fold key.
    by rewrite (bind_ok _ _ _ _ _ (check_object_exists_absent w key Hhead Habsent)).
  - intros obj content_type size Hobj Hct Hin Hsize Hpos Hput.
    destruct (complete_request_fields _ _ Hreq) as [Hid Huser].
    apply truthy_str_true in Hid, Huser, Hnow.
    unfold complete_upload.handler, respond.
    rewrite (complete_flow_request _ _ _ _ Hreq). cbv zeta. fold key.
    rewrite (bind_ok _ _ _ _ _ (check_object_exists_present w key obj Hhead Hobj)).
    cbn [negb].
    rewrite (bind_ok _ _ _ _ _ (get_object_metadata_present w key obj Hhead Hobj)).
    rewrite Hct, Hsize.
    unfold ImageMetadata.new, ImageMetadata.errors. cbn [ImageMetadata.a_image_id
      ImageMetadata.a_user_id ImageMetadata.a_filename ImageMetadata.a_content_type
      ImageMetadata.a_file_size ImageMetadata.a_upload_timestamp ImageMetadata.a_status
      ImageMetadata.a_s3_key ImageMetadata.a_tags ImageMetadata.a_description
      check_present ImageMetadata.check_content_type app].
    unfold validate_content_type. rewrite (bool_decide_eq_true_2 _ Hin).
    apply check_file_size_positive in Hpos. rewrite Hpos.
    cbn [app ImageMetadata.check_status status_value status_of_value String.eqb Ascii.eqb
         Bool.eqb mbind option_bind default].
    rewrite bind_lift_ok.
    unfold DynamoDBService.put_item, put_item. unfold_M.
    rewrite Hput. cbn [ImageMetadata.image_id DynamoDBService.item_of Item.user_id
      Item.upload_timestamp ImageMetadata.user_id ImageMetadata.upload_timestamp].
    rewrite Hid. cbn [andb].
    assert (valid_key_attribute (Some (CompleteUploadRequest.user_id request)) = true) as ->.
    { simpl. by destruct (CompleteUploadRequest.user_id request). }
    assert (valid_key_attribute (Some (utcnow 0%nat)) = true) as ->.
    { simpl. by destruct (utcnow 0%nat). }
    cbn [andb]. eexists _, _. split; [reflexivity|].
    cbn [table with_table]. rewrite lookup_insert_eq. by repeat split.
Qed.

Lemma C2_witness :
  let w := with_bucket (insert "images/user123/img-1_photo.jpg" sample_object) idle in
  (upload_presigned_url.handler "img-1" (Ok (sample_complete "photo.jpg")) idle).2 = idle
  ∧ DynamoDBService.get_item "img-1"
      (upload_presigned_url.handler "img-1" (Ok (sample_complete "photo.jpg")) idle).2
    = (Ok None, idle)
  ∧ complete_upload.handler sample_clock (Ok (sample_complete "photo.jpg")) idle
    = (not_found_response "Image not uploaded to S3. Please upload the file first.", idle)
  ∧ ∃ w' item,
      complete_upload.handler sample_clock (Ok (sample_complete "photo.jpg")) w
      = (success_response
           (CompleteUploadResponse "img-1" "completed"
              "Image upload completed successfully") 200, w')
      ∧ table w' !! "img-1" = Some item
      ∧ Item.status item = Some "completed"
      ∧ Item.s3_key item = Some "images/user123/img-1_photo.jpg"
      ∧ Item.content_type item = Some "image/jpeg"
      ∧ Item.file_size item = Some 1024.
Proof.
  intros w.
  pose proof (C2_two_phase_upload "img-1" sample_clock (Ok (sample_complete "photo.jpg"))
                (sample_complete "photo.jpg") _ idle eq_refl ltac:(done) eq_refl)
    as (H1 & H2 & H3 & _).
  pose proof (C2_two_phase_upload "img-1" sample_clock (Ok (sample_complete "photo.jpg"))
                (sample_complete "photo.jpg") _ w eq_refl ltac:(done) eq_refl)
    as (_ & _ & _ & H4).
  split; [exact H1|]. split; [by apply H2|]. split; [by apply H3|].
  apply (H4 sample_object "image/jpeg" 1024); try reflexivity.
  by apply (bool_decide_eq_true_1 _).
Defined.

(** ** Listing without a filter *)

Lemma validate_date_ok fromisoformat loc d :
  valid_or_absent fromisoformat d → ListImagesRequest.validate_date fromisoformat loc d = [].
Proof.
  destruct d as [s|]; [|done]. simpl. intros H.
  destruct (truthy_str s); [|done]. by rewrite H.
Qed.

Lemma list_flow_unfiltered fromisoformat int q w :
  truthy (list_images.user_id q) = false →
  valid_or_absent fromisoformat (list_images.start_date q) →
  valid_or_absent fromisoformat (list_images.end_date q) →
  list_images.flow fromisoformat int q w
  = unfiltered_listing int (list_images.limit q) (list_images.next_token q) w.
Proof.
  intros Huser Hstart Hend.
  unfold list_images.flow, unfiltered_listing.
  destruct (list_images.parse_limit int (list_images.limit q)) as [limit|e]; [|reflexivity].
  rewrite !bind_lift_ok.
  unfold ListImagesRequest.new, ListImagesRequest.errors.
  cbn [ListImagesRequest.start_date ListImagesRequest.end_date ListImagesRequest.limit].
  rewrite (validate_date_ok _ _ _ Hstart), (validate_date_ok _ _ _ Hend). cbn [app].
  destruct (ListImagesRequest.check_limit limit) as [|err errs]; [|reflexivity].
  cbn [ListImagesRequest.next_token].
  assert (∀ key,
    list_images.list_page
      (ListImagesRequest.mk (list_images.user_id q) (list_images.start_date q)
         (list_images.end_date q) limit (list_images.next_token q)) key
    = (found ← DynamoDBService.scan_all limit key;
       mret (success_response
               (ListImagesResponse found.1 (Z.of_nat (length found.1))
                  (list_images.token_of found.2) (bool_decide (is_Some found.2))) 200)))
    as Hpage.
  { intros key. unfold list_images.list_page, list_images.fetch.
    cbn [ListImagesRequest.user_id ListImagesRequest.limit].
    destruct (list_images.user_id q) as [u|]; [|reflexivity].
    simpl in Huser. by rewrite Huser. }
  destruct (list_images.next_token q) as [token|]; [|by rewrite Hpage].
  destruct (truthy_str token); [|by rewrite Hpage].
  destruct (list_images.decode token); [by rewrite Hpage|reflexivity].
Qed.

(** ** Internal errors *)

Lemma handler_of_respond i : handler_of i = respond (failure_of i) (flow_of i).
Proof. by destruct i. Qed.

Lemma scan_fails w code message limit key :
  outage w Scan = Some (code, message) →
  DynamoDBService.scan_all limit key w
  = (Raise (ClientError code (operation_name Scan) message), w).
Proof.
  intros H. unfold DynamoDBService.scan_all, scan.
  apply bind_raise. apply bind_raise. by apply call_fails.
Qed.

(** C8, as the claim states it, fails: with the table out of capacity the
    list flow answers 500 and its message contains the text the backend
    sent. *)
Lemma C8_counterexample :
  let r := (list_images.handler (fun _ => true) (fun _ => None) no_filter throttled).1 in
  statusCode r = 500
  ∧ error_of r
    = Some ("InternalError",
            "Failed to list images: An error occurred (ProvisionedThroughputExceededException) when calling the Scan operation: The level of configured provisioned throughput for the table was exceeded.")
  ∧ ∃ message,
      error_of r = Some ("InternalError", message)
      ∧ occurs_in "The level of configured provisioned throughput for the table was exceeded."
          message = true.
Proof.
  split; [reflexivity|]. split; [reflexivity|].
  eexists. split; [reflexivity|]. vm_compute. reflexivity.
Qed.

(** C8, amended.  In each of the five flows, an exception [e] that
    escapes the body of the handler is answered with status 500, error
    [InternalError] and the message made of the fixed text of the flow
    followed by [str(e)].  In particular a failing [Scan] puts the error
    code and the message of the backend into the body of the list
    response. *)
Theorem C8_internal_error_message i w e w' :
  flow_of i w = (Raise e, w') →
  handler_of i w = (internal_error_response (failure_of i +:+ str_exn e), w')
  ∧ statusCode (handler_of i w).1 = 500
  ∧ error_of (handler_of i w).1 = Some ("InternalError", failure_of i +:+ str_exn e)
  ∧ (∀ fromisoformat int code message,
       outage w Scan = Some (code, message) →
       error_of (handler_of (ListImages fromisoformat int no_filter) w).1
       = Some ("InternalError",
               "Failed to list images: An error occurred (" +:+ code
                 +:+ ") when calling the Scan operation: " +:+ message)).
Proof.
  intros Hflow.
  assert (handler_of i w = (internal_error_response (failure_of i +:+ str_exn e), w')) as H.
  { rewrite handler_of_respond. unfold respond. by rewrite Hflow. }
  rewrite H. repeat split.
  intros fromisoformat int code message Hscan.
  cbn [handler_of]. unfold list_images.handler, respond.
  rewrite list_flow_unfiltered by done.
  unfold unfiltered_listing.
  cbn [list_images.limit list_images.next_token no_filter list_images.parse_limit].
  rewrite bind_lift_ok.
  change (ListImagesRequest.check_limit 50) with (@nil Models.error). cbv iota.
  by rewrite (bind_raise _ _ _ _ _ (scan_fails w code message _ _ Hscan)).
Qed.

Lemma C8_witness :
  handler_of (ListImages (fun _ => true) (fun _ => None) no_filter) throttled
  = (internal_error_response
       (list_images.failure
          +:+ str_exn (ClientError "ProvisionedThroughputExceededException" "Scan"
                 "The level of configured provisioned throughput for the table was exceeded.")),
     throttled).
Proof.
  apply (C8_internal_error_message
           (ListImages (fun _ => true) (fun _ => None) no_filter) throttled).
  reflexivity.
Defined.

(** ** The list flow and the date bounds *)

(** C10.  Without an owner filter the answer of the list handler does not
    depend on the date bounds: two requests on the same state that agree
    on [user_id] (absent or empty), [limit] and [next_token], and whose
    bounds are absent or valid ISO-8601 texts, get the same response and
    leave the same state. *)
Theorem C10_unfiltered_list_ignores_dates fromisoformat int q1 q2 w :
  truthy (list_images.user_id q1) = false →
  list_images.user_id q2 = list_images.user_id q1 →
  list_images.limit q2 = list_images.limit q1 →
  list_images.next_token q2 = list_images.next_token q1 →
  valid_or_absent fromisoformat (list_images.start_date q1) →
  valid_or_absent fromisoformat (list_images.end_date q1) →
  valid_or_absent fromisoformat (list_images.start_date q2) →
  valid_or_absent fromisoformat (list_images.end_date q2) →
  list_images.handler fromisoformat int q1 w = list_images.handler fromisoformat int q2 w.
Proof.
  intros Huser Hu Hl Ht Hs1 He1 Hs2 He2.
  unfold list_images.handler, respond.
  rewrite (list_flow_unfiltered _ _ q1) by done.
  rewrite (list_flow_unfiltered _ _ q2) by (by rewrite ?Hu).
  by rewrite Hl, Ht.
Qed.

Lemma C10_witness :
  list_images.handler (fun _ => true) (fun _ => None) dated stuck_store
  = list_images.handler (fun _ => true) (fun _ => None) no_filter stuck_store.
Proof.
  apply (C10_unfiltered_list_ignores_dates (fun _ => true) (fun _ => None) dated no_filter
           stuck_store); done.
Defined.

(** ** Pagination tokens the table rejects *)

(** A client token whose decoding fails is answered 400. *)
Lemma undecodable_token_is_400 fromisoformat int q limit request token e w :
  list_images.parse_limit int (list_images.limit q) = Ok limit →
  ListImagesRequest.new fromisoformat
    (ListImagesRequest.mk (list_images.user_id q) (list_images.start_date q)
       (list_images.end_date q) limit (list_images.next_token q)) = Ok request →
  ListImagesRequest.next_token request = Some token →
  truthy_str token = true →
  list_images.decode token = Raise e →
  list_images.handler fromisoformat int q w
  = (validation_error_response "Invalid pagination token" None, w).
Proof.
  intros Hlimit Hnew Htoken Htruthy Hdecode.
  unfold list_images.handler, respond, list_images.flow.
  rewrite Hlimit, bind_lift_ok, Hnew, Htoken, Htruthy, Hdecode. reflexivity.
Qed.

(** C4.  The token [eyJmb28iOiAiYmFyIn0=] is the base64 text of the JSON
    object [{"foo": "bar"}]: well formed, but its key names are not those
    of a table key.  It passes the decoding step, reaches [Scan] as
    [ExclusiveStartKey], is refused there, and the list handler answers
    500 [InternalError], on every table.  Tokens whose base64 or JSON
    layer is malformed are answered 400; a token that decodes to an
    empty object is ignored and answered 200. *)
Theorem C4_wrong_key_names_is_500 fromisoformat int t b :
  let w := {| table := t; bucket := b; outage := fun _ => None |} in
  list_images.decode "eyJmb28iOiAiYmFyIn0=" = Ok (Json.JDict [("foo", Json.JStr "bar")])
  ∧ list_images.handler fromisoformat int (with_token "eyJmb28iOiAiYmFyIn0=") w
    = (internal_error_response
         "Failed to list images: An error occurred (ValidationException) when calling the Scan operation: The provided starting key is invalid",
       w)
  ∧ statusCode
      (list_images.handler fromisoformat int (with_token "eyJmb28iOiAiYmFyIn0=") w).1 = 500
  ∧ list_images.handler fromisoformat int (with_token "eyJmb28iOiAiYmFyIn0") w
    = (validation_error_response "Invalid pagination token" None, w)
  ∧ list_images.handler fromisoformat int (with_token "bm90IGpzb24=") w
    = (validation_error_response "Invalid pagination token" None, w)
  ∧ statusCode (list_images.handler fromisoformat int (with_token "e30=") idle).1 = 200.
Proof.
  intros w.
  assert (list_images.handler fromisoformat int (with_token "eyJmb28iOiAiYmFyIn0=") w
          = (internal_error_response
               "Failed to list images: An error occurred (ValidationException) when calling the Scan operation: The provided starting key is invalid",
             w)) as Hbad.
  { unfold list_images.handler, respond. rewrite list_flow_unfiltered by done.
    vm_compute. reflexivity. }
  split; [vm_compute; reflexivity|]. split; [exact Hbad|]. split; [by rewrite Hbad|].
  split; [|split].
  - unfold list_images.handler, respond. rewrite list_flow_unfiltered by done.
    vm_compute. reflexivity.
  - unfold list_images.handler, respond. rewrite list_flow_unfiltered by done.
    vm_compute. reflexivity.
  - unfold list_images.handler, respond. rewrite list_flow_unfiltered by done.
    vm_compute. reflexivity.
Qed.

(** ** The order of strings *)

Lemma ascii_compare_refl c : Ascii.compare c c = Eq.
Proof. unfold Ascii.compare. apply N.compare_refl. Qed.

Lemma string_compare_refl s : String.compare s s = Eq.
Proof. induction s as [|c s IH]; simpl; [done|]. by rewrite ascii_compare_refl. Qed.

Lemma string_compare_lt_trans a b c :
  String.compare a b = Lt → String.compare b c = Lt → String.compare a c = Lt.
Proof.
  revert b c. induction a as [|x a IH]; intros [|y b] [|z c]; simpl; try done.
  unfold Ascii.compare.
  destruct (N.compare_spec (N_of_ascii x) (N_of_ascii y)) as [Hxy|Hxy|Hxy]; try done;
    destruct (N.compare_spec (N_of_ascii y) (N_of_ascii z)) as [Hyz|Hyz|Hyz]; try done;
    intros H1 H2.
  - rewrite Hxy, Hyz, N.compare_refl. eauto.
  - rewrite Hxy. by apply N.compare_lt_iff in Hyz as ->.
  - rewrite <- Hyz. by apply N.compare_lt_iff in Hxy as ->.
  - assert (N_of_ascii x < N_of_ascii z)%N as H by lia.
    by apply N.compare_lt_iff in H as ->.
Qed.


Lemma string_leb_trans a b c :
  String.leb a b = true → String.leb b c = true → String.leb a c = true.
Proof.
  unfold String.leb.
  destruct (String.compare a b) eqn:Hab; try done;
    destruct (String.compare b c) eqn:Hbc; try done; intros _ _.
  - apply String.compare_eq_iff in Hab as ->. by rewrite Hbc.
  - apply String.compare_eq_iff in Hab as ->. by rewrite Hbc.
  - apply String.compare_eq_iff in Hbc as <-. by rewrite Hab.
  - by rewrite (string_compare_lt_trans _ _ _ Hab Hbc).
Qed.

Lemma position_leb_fst a b : position_leb a b = true → String.leb a.1 b.1 = true.
Proof. unfold position_leb, String.leb. by destruct (String.compare a.1 b.1). Qed.

#[local] Instance entry_le_total : Total entry_le.
Proof.
  intros a b. unfold entry_le, position_leb.
  rewrite (String.compare_antisym (entry_position b).1 (entry_position a).1).
  destruct (String.compare (entry_position a).1 (entry_position b).1) eqn:H; simpl; auto.
  destruct (String.leb_total (entry_position a).2 (entry_position b).2) as [->| ->]; auto.
Qed.

#[local] Instance entry_le_trans : Transitive entry_le.
Proof.
  intros a b c. unfold entry_le, position_leb.
  destruct (String.compare (entry_position a).1 (entry_position b).1) eqn:Hab; try done;
    destruct (String.compare (entry_position b).1 (entry_position c).1) eqn:Hbc; try done.
  - apply String.compare_eq_iff in Hab. apply String.compare_eq_iff in Hbc.
    rewrite Hab, Hbc, string_compare_refl.
    intros H1 H2. apply Is_true_true. apply Is_true_true in H1, H2.
    by eapply string_leb_trans.
  - apply String.compare_eq_iff in Hab. by rewrite Hab, Hbc.
  - apply String.compare_eq_iff in Hbc. by rewrite <- Hbc, Hab.
  - by rewrite (string_compare_lt_trans _ _ _ Hab Hbc).
Qed.

(** ** Sorted lists *)

Lemma StronglySorted_filter {A} (R : relation A) (P : A → Prop) `{∀ x, Decision (P x)} l :
  StronglySorted R l → StronglySorted R (filter P l).
Proof.
  induction 1 as [|x l Hl IH Hx]; [constructor|].
  rewrite filter_cons. destruct (decide (P x)); [|done].
  constructor; [done|]. rewrite Forall_forall in Hx |- *.
  intros y Hy. apply list_elem_of_filter in Hy as [_ Hy]. by apply Hx.
Qed.

Lemma StronglySorted_firstn {A} (R : relation A) n l :
  StronglySorted R l → StronglySorted R (firstn n l).
Proof.
  intros H. rewrite <- (firstn_skipn n l) in H. by apply StronglySorted_app_1_l in H.
Qed.

Lemma StronglySorted_reverse {A} (R : relation A) l :
  StronglySorted R l → StronglySorted (flip R) (reverse l).
Proof.
  induction 1 as [|x l Hl IH Hx]; [constructor|].
  rewrite reverse_cons. apply StronglySorted_app_2; [|done|repeat constructor].
  intros a b Ha Hb. apply list_elem_of_singleton in Hb as ->.
  rewrite elem_of_reverse in Ha. rewrite Forall_forall in Hx. unfold flip. by apply Hx.
Qed.

(** ** The index *)

Lemma index_partition_spec t user_id (e : entry) :
  e ∈ index_partition t user_id →
  t !! e.1.2 = Some e.2
  ∧ Item.user_id e.2 = Some user_id
  ∧ Item.upload_timestamp e.2 = Some e.1.1.
Proof.
  unfold index_partition. rewrite list_elem_of_omap.
  intros ([k item] & Hin & He). apply elem_of_map_to_list in Hin.
  unfold index_entry in He. simpl in He.
  destruct (Item.user_id item) as [u|] eqn:Hu; [|done].
  destruct (Item.upload_timestamp item) as [ts|] eqn:Hts; [|done].
  destruct (String.eqb u user_id) eqn:Heq; [|done].
  apply String.eqb_eq in Heq as ->. by injection He as <-.
Qed.

Lemma page_items {A} limit (key_of : A → Json.keymap) rest :
  (page limit key_of rest).1 = take (Z.to_nat limit) rest.
Proof. reflexivity. Qed.

(** What a successful [Query] returns: a run of index entries of the
    owner that satisfy the condition, in the direction asked for. *)
Lemma query_sound p w items last_key w' :
  query p w = (Ok (items, last_key), w') →
  w' = w
  ∧ ∃ entries : list entry,
      items = (fun e : entry => (e.1.2, e.2)) <$> entries
      ∧ StronglySorted (if ScanIndexForward p then entry_le else flip entry_le) entries
      ∧ Forall (fun e : entry =>
                  e ∈ index_partition (table w) (KeyUserId p)
                  ∧ in_condition (KeyUploadTimestamp p) e.1.1 = true) entries
      ∧ Z.of_nat (length entries) <= Limit p.
Proof.
  unfold query. unfold_M.
  destruct (outage w Query) as [[code message]|]; [done|].
  destruct (check_limit (Limit p)) as [[]|e] eqn:Hlimit; [|done].
  destruct (negb (truthy_str (KeyUserId p))); [done|].
  destruct (negb (valid_condition (KeyUploadTimestamp p))); [done|].
  destruct (match ExclusiveStartKey p with
            | Some k => Some <$> query_start_key p k
            | None => Ok None
            end) as [start|e]; [|done].
  simpl.
  set (hits := filter _ (index_partition (table w) (KeyUserId p))).
  set (run := if ScanIndexForward p then merge_sort entry_le hits
              else reverse (merge_sort entry_le hits)).
  set (rest := match start with Some pos => filter _ run | None => run end).
  intros [= <- <- <-]. split; [done|].
  exists (take (Z.to_nat (Limit p)) rest). split; [done|].
  assert (StronglySorted (if ScanIndexForward p then entry_le else flip entry_le) run) as Hrun.
  { pose proof (StronglySorted_merge_sort entry_le hits) as Hs.
    unfold run. destruct (ScanIndexForward p); [done|]. by apply StronglySorted_reverse. }
  assert (∀ e, e ∈ run → e ∈ hits) as Hrun_in.
  { intros e. unfold run. destruct (ScanIndexForward p);
      rewrite ?elem_of_reverse, merge_sort_Permutation; done. }
  assert (StronglySorted (if ScanIndexForward p then entry_le else flip entry_le) rest
          ∧ ∀ e, e ∈ rest → e ∈ run) as [Hrest Hrest_in].
  { unfold rest. destruct start as [pos|]; [|done]. split.
    - by apply StronglySorted_filter.
    - intros e He. by apply list_elem_of_filter in He as [_ He]. }
  split; [by apply StronglySorted_firstn|]. split.
  - apply Forall_forall. intros e He.
    apply elem_of_take in He as (i & He & _). apply list_elem_of_lookup_2 in He.
    apply Hrest_in, Hrun_in in He. unfold hits in He.
    apply list_elem_of_filter in He as [Hc He]. split; [done|]. by apply Is_true_true.
  - rewrite length_take. unfold check_limit in Hlimit.
    destruct (1 <=? Limit p) eqn:H1; [|done]. lia.
Qed.

Lemma StronglySorted_Forall2 {A B} (Q : A → B → Prop) (R1 : relation A) (R2 : relation B) l k :
  (∀ x y x' y', Q x x' → Q y y' → R1 x y → R2 x' y') →
  Forall2 Q l k → StronglySorted R1 l → StronglySorted R2 k.
Proof.
  intros HR HQ. induction HQ as [|x x' l k Hx HQ IH]; [constructor|].
  intros Hs. apply StronglySorted_inv in Hs as [Hl Hall].
  constructor; [by apply IH|].
  clear IH Hl. induction HQ as [|y y' l k Hy HQ IH]; [constructor|].
  apply Forall_cons in Hall as [Hxy Hall]. constructor; [by eapply HR|by apply IH].
Qed.

(** ** Parsing the items of a page *)

Lemma metadata_of_item kv metadata :
  ImageMetadata.new (DynamoDBService.args_of kv) = Ok metadata →
  ImageMetadata.image_id metadata = kv.1
  ∧ Item.user_id kv.2 = Some (ImageMetadata.user_id metadata)
  ∧ Item.upload_timestamp kv.2 = Some (ImageMetadata.upload_timestamp metadata).
Proof.
  unfold ImageMetadata.new, DynamoDBService.args_of.
  cbn [ImageMetadata.a_image_id ImageMetadata.a_user_id ImageMetadata.a_filename
       ImageMetadata.a_content_type ImageMetadata.a_file_size
       ImageMetadata.a_upload_timestamp ImageMetadata.a_s3_key].
  destruct (ImageMetadata.errors _); [|by destruct (Item.user_id kv.2), (Item.filename kv.2),
    (Item.content_type kv.2), (Item.file_size kv.2), (Item.upload_timestamp kv.2),
    (Item.s3_key kv.2)].
  destruct (Item.user_id kv.2), (Item.filename kv.2), (Item.content_type kv.2),
    (Item.file_size kv.2), (Item.upload_timestamp kv.2), (Item.s3_key kv.2);
    intros [= <-]; done.
Qed.

Lemma parse_items_Forall2 items images :
  DynamoDBService.parse_items items = Ok images →
  Forall2 (fun kv metadata => ImageMetadata.new (DynamoDBService.args_of kv) = Ok metadata)
    items images.
Proof.
  unfold DynamoDBService.parse_items. revert images.
  induction items as [|kv items IH]; intros images; simpl.
  - intros [= <-]. constructor.
  - unfold mbind, result_bind, Py.bind.
    destruct (ImageMetadata.new (DynamoDBService.args_of kv)) as [m|e] eqn:Hm; [|done].
    destruct (mapM _ items) as [ms|e] eqn:Hms; [|done].
    intros [= <-]. constructor; [done|]. by apply IH.
Qed.

(** ** The bounds of a query *)

Lemma key_condition_within start_date end_date ts :
  in_condition (DynamoDBService.key_condition start_date end_date) ts = true →
  within start_date end_date ts.
Proof.
  unfold within, DynamoDBService.key_condition.
  destruct start_date as [[|c s]|], end_date as [[|c' e]|]; simpl; try done.
  by intros [? ?]%andb_prop.
Qed.

Lemma Forall2_with_Forall {A B} (P : A → B → Prop) (F : A → Prop) l k :
  Forall2 P l k → Forall F l → Forall2 (fun x y => F x ∧ P x y) l k.
Proof.
  induction 1 as [|x y l k Hxy Hlk IH]; [constructor|].
  intros [Hx Hl]%Forall_cons. constructor; [done|by apply IH].
Qed.

Lemma query_by_user_sound user_id start_date end_date limit key w images next_key w' :
  DynamoDBService.query_by_user user_id start_date end_date limit key w
  = (Ok (images, next_key), w') →
  Forall (fun m =>
            ImageMetadata.user_id m = user_id
            ∧ within start_date end_date (ImageMetadata.upload_timestamp m)
            ∧ ∃ item, table w !! ImageMetadata.image_id m = Some item
                      ∧ Item.user_id item = Some user_id
                      ∧ Item.upload_timestamp item
                        = Some (ImageMetadata.upload_timestamp m)) images
  ∧ StronglySorted newer_first images
  ∧ Z.of_nat (length images) <= limit
  ∧ w' = w.
Proof.
  unfold DynamoDBService.query_by_user. unfold_M.
  set (c := DynamoDBService.key_condition start_date end_date).
  set (p := {| KeyUserId := user_id |}).
  destruct (query p w) as [[[items last_key]|e] w1] eqn:Hquery; [|done].
  apply query_sound in Hquery as (-> & entries & -> & Hsorted & Hall & Hlen).
  cbn [fst snd].
  destruct (DynamoDBService.parse_items _) as [parsed|e] eqn:Hparse; [|done].
  intros [= <- <- <-].
  apply parse_items_Forall2 in Hparse. apply Forall2_fmap_l in Hparse.
  assert (Forall2 (read_from w user_id c) entries parsed) as Hread.
  { eapply Forall2_impl; [exact (Forall2_with_Forall _ _ _ _ Hparse Hall)|].
    intros e m [[Hidx Hcond] Hnew].
    apply index_partition_spec in Hidx as (Hitem & Hu & Hts).
    apply metadata_of_item in Hnew as (Hid & Hu' & Hts'). cbn [fst snd] in *.
    rewrite Hu in Hu'. rewrite Hts in Hts'. injection Hu' as Hu'. injection Hts' as Hts'.
    by repeat split. }
  split; [|split; [|split; [|done]]].
  - eapply Forall2_Forall_r; [exact Hread|]. apply Forall_forall.
    intros e _ m (Hid & Hu & Hts & Hcond & Hitem & Hiu & Hits).
    split; [done|]. split.
    + apply key_condition_within. by rewrite Hts.
    + exists e.2. by rewrite Hid, Hts.
  - eapply StronglySorted_Forall2; [|exact Hread|exact Hsorted].
    cbn [ScanIndexForward p]. intros x y x' y' Hx Hy Hle.
    destruct Hx as (_ & _ & Hx & _), Hy as (_ & _ & Hy & _).
    unfold newer_first. rewrite Hx, Hy.
    apply position_leb_fst. by apply Is_true_true.
  - apply Forall2_length in Hparse. cbn [Limit p] in Hlen. lia.
Qed.

Lemma result_bind_Ok {A B} (a : A) (k : A → result B) : (Ok a ≫= k) = k a.
Proof. reflexivity. Qed.

Lemma parse_items_succeeds items :
  Forall (fun kv => ∃ m, ImageMetadata.new (DynamoDBService.args_of kv) = Ok m) items →
  ∃ images, DynamoDBService.parse_items items = Ok images.
Proof.
  unfold DynamoDBService.parse_items.
  induction 1 as [|kv items [m Hm] _ [ms Hms]]; simpl; [by eexists|].
  rewrite Hm, result_bind_Ok, Hms, result_bind_Ok. by eexists.
Qed.

Lemma well_formed_check w : all_complete w = true → well_formed w.
Proof.
  unfold all_complete. rewrite forallb_forall. intros Hall image_id item Hitem.
  apply elem_of_map_to_list, list_elem_of_In in Hitem. apply Hall in Hitem.
  destruct (ImageMetadata.new _) as [m|]; [by exists m|done].
Qed.

Lemma query_by_user_returns user_id start_date end_date limit w :
  outage w Query = None →
  1 <= limit →
  user_id ≠ EmptyString →
  valid_condition (DynamoDBService.key_condition start_date end_date) = true →
  well_formed w →
  ∃ images next_key,
    DynamoDBService.query_by_user user_id start_date end_date limit None w
    = (Ok (images, next_key), w).
Proof.
  intros Hup Hlimit Huser Hcond Hwf.
  set (p := {| KeyUserId := user_id;
               KeyUploadTimestamp := DynamoDBService.key_condition start_date end_date;
               Limit := limit; ScanIndexForward := false; ExclusiveStartKey := None |}).
  assert (∃ items last_key, query p w = (Ok (items, last_key), w)) as (items & k & Hq).
  { unfold query. rewrite (bind_ok _ _ _ _ _ (call_ok _ _ Hup)).
    unfold check_limit. cbn [Limit p].
    apply Z.leb_le in Hlimit. rewrite Hlimit, bind_lift_ok.
    cbn [KeyUserId KeyUploadTimestamp ExclusiveStartKey p].
    apply truthy_str_true in Huser. rewrite Huser, Hcond. cbn [negb].
    rewrite bind_lift_ok. unfold_M. simpl. by eexists _, _. }
  pose proof Hq as Hsound.
  apply query_sound in Hsound as (_ & entries & -> & _ & Hall & _).
  destruct (parse_items_succeeds ((fun e : entry => (e.1.2, e.2)) <$> entries))
    as [images Himages].
  { apply Forall_fmap. eapply Forall_impl; [exact Hall|].
    intros e [Hidx _]. apply index_partition_spec in Hidx as (Hitem & _).
    by apply Hwf. }
  exists images, k. unfold DynamoDBService.query_by_user.
  change (DynamoDBService.start_key None) with (@None Json.value). fold p.
  rewrite (bind_ok _ _ _ _ _ Hq). cbn [fst snd]. by rewrite Himages.
Qed.

(** C5.  Whenever [query_by_user] answers a page, every image on it is a
    record of the table that belongs to the owner asked for, its
    [upload_timestamp] lies in the closed interval of the two bounds when
    both are given, in the half the single given bound leaves open when
    one is given, anywhere when none is; the page is in descending
    [upload_timestamp] order and holds at most [limit] images.  And it
    does answer a page when the index is reachable, [limit] is positive,
    the owner is named, the bounds are in order and the table holds
    complete records. *)
Theorem C5_query_by_owner user_id start_date end_date limit w :
  (∀ key images next_key w',
     DynamoDBService.query_by_user user_id start_date end_date limit key w
     = (Ok (images, next_key), w') →
     Forall (fun m =>
               ImageMetadata.user_id m = user_id
               ∧ within start_date end_date (ImageMetadata.upload_timestamp m)
               ∧ ∃ item, table w !! ImageMetadata.image_id m = Some item
                         ∧ Item.user_id item = Some user_id
                         ∧ Item.upload_timestamp item
                           = Some (ImageMetadata.upload_timestamp m)) images
     ∧ StronglySorted newer_first images
     ∧ Z.of_nat (length images) <= limit
     ∧ w' = w)
  ∧ (outage w Query = None →
     1 <= limit →
     user_id ≠ EmptyString →
     valid_condition (DynamoDBService.key_condition start_date end_date) = true →
     well_formed w →
     ∃ images next_key,
       DynamoDBService.query_by_user user_id start_date end_date limit None w
       = (Ok (images, next_key), w)).
Proof.
  split.
  - intros key images next_key w'. apply query_by_user_sound.
  - apply query_by_user_returns.
Qed.

Lemma gallery_well_formed : well_formed gallery.
Proof. apply well_formed_check. vm_compute. reflexivity. Qed.

Lemma C5_witness :
  ∃ images next_key,
    DynamoDBService.query_by_user "user-123" (Some "2026-02-11T00:00:00")
      (Some "2026-02-13T23:59:59") 10 None gallery
    = (Ok (images, next_key), gallery)
    ∧ Forall (fun m =>
                ImageMetadata.user_id m = "user-123"
                ∧ String.leb "2026-02-11T00:00:00" (ImageMetadata.upload_timestamp m) = true
                ∧ String.leb (ImageMetadata.upload_timestamp m) "2026-02-13T23:59:59" = true)
        images
    ∧ StronglySorted newer_first images.
Proof.
  destruct (C5_query_by_owner "user-123" (Some "2026-02-11T00:00:00")
              (Some "2026-02-13T23:59:59") 10 gallery) as [Hsound Hreturns].
  destruct Hreturns as (images & next_key & Hrun);
    [reflexivity | lia | done | reflexivity | exact gallery_well_formed |].
  exists images, next_key. split; [exact Hrun|].
  destruct (Hsound _ _ _ _ Hrun) as (Hall & Hsorted & _).
  split; [|exact Hsorted].
  eapply Forall_impl; [exact Hall|]. intros m (Hu & Hin & _). split; [done|exact Hin].
Defined.

(** The two test cases of the repository: three time stamps come back
    most recent first, and the range from day 11 to day 13 selects
    exactly three of the five records. *)
Example query_by_user_order :
  page_ids
    (DynamoDBService.query_by_user "user-123" None None 3 None gallery)
  = Ok ["img-14"; "img-13"; "img-12"].
Proof. vm_compute. reflexivity. Qed.

Example query_by_user_range :
  page_ids
    (DynamoDBService.query_by_user "user-123" (Some "2026-02-11T00:00:00")
       (Some "2026-02-13T23:59:59") 50 None gallery)
  = Ok ["img-13"; "img-12"; "img-11"].
Proof. vm_compute. reflexivity. Qed.

(** ** Characters and bytes *)



Lemma code_chr n : 0 <= n < 256 → code (chr n) = n.
Proof. intros H. unfold chr, code. rewrite N_ascii_embedding; lia. Qed.


(** ** base64 *)



Lemma emit_ok byte out : Base64.emit byte (Ok out) = Ok (String (chr (byte mod 256)) out).
Proof. reflexivity. Qed.














(** ** JSON text *)

Lemma append_cons x (a b : string) : String x a +:+ b = String x (a +:+ b).
Proof. reflexivity. Qed.

Lemma append_nil_l (b : string) : EmptyString +:+ b = b.
Proof. reflexivity. Qed.

Lemma append_assoc (a b c : string) : (a +:+ b) +:+ c = a +:+ (b +:+ c).
Proof. induction a as [|x a IH]; [done|]. by rewrite !append_cons, IH. Qed.

Lemma append_nil_r (a : string) : a +:+ EmptyString = a.
Proof. induction a as [|x a IH]; [done|]. by rewrite append_cons, IH. Qed.

Lemma length_append (a b : string) :
  String.length (a +:+ b) = (String.length a + String.length b)%nat.
Proof.
  induction a as [|x a IH]; [done|]. rewrite append_cons. cbn [String.length]. by rewrite IH.
Qed.

Lemma is_ascii_append a b : is_ascii (a +:+ b) = is_ascii a && is_ascii b.
Proof.
  induction a as [|x a IH]; [done|].
  rewrite append_cons. cbn [is_ascii]. by rewrite IH, andb_assoc.
Qed.












(** ** Reading the members back *)












(** ** UTF-8 on ASCII text *)



(** ** The round trip of a key *)




(** ** The pagination token *)


(** The key a page ends with is the key of one of its items. *)
Lemma page_last_key {A} limit (key_of : A → Json.keymap) rest k :
  (page limit key_of rest).2 = Some k → ∃ a, k = key_of a.
Proof.
  unfold page. cbn [snd]. destruct (limit <=? Z.of_nat (length rest)); [|done].
  destruct (List.last _ None) as [a|]; [|done]. intros [= <-]. by exists a.
Qed.

Lemma query_last_key p w items k w' :
  query p w = (Ok (items, Some k), w') → ∃ e, k = query_key (KeyUserId p) e.
Proof.
  unfold query. unfold_M.
  destruct (outage w Query) as [[code message]|]; [done|].
  destruct (check_limit (Limit p)) as [[]|e]; [|done].
  destruct (negb (truthy_str (KeyUserId p))); [done|].
  destruct (negb (valid_condition (KeyUploadTimestamp p))); [done|].
  destruct (match ExclusiveStartKey p with
            | Some k => Some <$> query_start_key p k
            | None => Ok None
            end) as [start|e]; [|done].
  simpl. intros [= _ Hk _]. by apply page_last_key in Hk.
Qed.

Lemma scan_last_key limit start w items k w' :
  scan limit start w = (Ok (items, Some k), w') → ∃ kv, k = scan_key kv.
Proof.
  unfold scan. unfold_M.
  destruct (outage w Scan) as [[code message]|]; [done|].
  destruct (check_limit limit) as [[]|e]; [|done].
  destruct (match start with
            | Some k => Some <$> scan_start_key k
            | None => Ok None
            end) as [pos|e]; [|done].
  cbv beta zeta. intros [= _ Hk _].
  exact (page_last_key limit scan_key _ k Hk).
Qed.

(** The backends never report an empty key. *)
Lemma fetch_key_nonempty request key w images next_key w' :
  list_images.fetch request key w = (Ok (images, next_key), w') →
  next_key ≠ Some [].
Proof.
  assert (∀ limit, DynamoDBService.scan_all limit key w = (Ok (images, next_key), w') →
            next_key ≠ Some []) as Hscan.
  { intros limit. unfold DynamoDBService.scan_all. unfold_M.
    destruct (scan limit _ w) as [[[items k]|e] w1] eqn:Hs; [|done].
    cbn [fst snd]. destruct (DynamoDBService.parse_items items); [|done].
    intros [= _ <- _] ->. by apply scan_last_key in Hs as [kv Hkv]. }
  unfold list_images.fetch.
  destruct (ListImagesRequest.user_id request) as [u|]; [|apply Hscan].
  destruct (truthy_str u); [|apply Hscan].
  unfold DynamoDBService.query_by_user. unfold_M.
  destruct (query _ w) as [[[items k]|e] w1] eqn:Hq; [|done].
  cbn [fst snd]. destruct (DynamoDBService.parse_items items); [|done].
  intros [= _ <- _] ->. by apply query_last_key in Hq as [e He].
Qed.

Lemma token_of_reported next_key :
  next_key ≠ Some [] → list_images.token_of next_key = list_images.encode <$> next_key.
Proof. by destruct next_key as [[|p k]|]. Qed.

(** A list response is the page the backend returned. *)
Lemma list_page_response request key w r w' :
  list_images.list_page request key w = (Ok r, w') →
  ∃ images next_key,
    list_images.fetch request key w = (Ok (images, next_key), w')
    ∧ r = success_response
            (ListImagesResponse images (Z.of_nat (length images))
               (list_images.encode <$> next_key) (bool_decide (is_Some next_key))) 200.
Proof.
  unfold list_images.list_page. unfold mbind at 1, M_bind.
  destruct (list_images.fetch request key w) as [[[images next_key]|e] w1] eqn:Hfetch;
    [|done].
  intros [= <- <-]. exists images, next_key. split; [done|].
  cbn [fst snd]. by rewrite (token_of_reported _ (fetch_key_nonempty _ _ _ _ _ _ Hfetch)).
Qed.




(** The token of the sample key, and its decoding. *)
Example encode_sample_key :
  list_images.encode sample_key
  = "eyJpbWFnZV9pZCI6ICJpbWctMTMiLCAidXNlcl9pZCI6ICJ1c2VyLTEyMyIsICJ1cGxvYWRfdGltZXN0YW1wIjogIjIwMjYtMDItMTNUMTA6MDA6MDAifQ==".
Proof. vm_compute. reflexivity. Qed.

(* ===================================================================== *)
(** * More properties of the code                                         *)
(* ===================================================================== *)

(** ** Splitting a text at a separator *)

Lemma split_cons sep s : ∃ h t, split sep s = h :: t.
Proof.
  induction s as [|c r [h [t IH]]]; simpl; [by eexists _, _|].
  destruct (Ascii.eqb c sep); [by eexists _, _|]. rewrite IH. by eexists _, _.
Qed.

Lemma split_no_sep sep s : contains sep s = false → split sep s = [s].
Proof.
  induction s as [|c r IH]; simpl; [done|].
  rewrite Ascii.eqb_sym. destruct (Ascii.eqb sep c); [done|].
  intros H. by rewrite (IH H).
Qed.

Lemma split_sep sep s :
  contains sep s = true → ∃ h h' t, split sep s = h :: h' :: t.
Proof.
  induction s as [|c r IH]; simpl; [done|].
  rewrite Ascii.eqb_sym. destruct (Ascii.eqb sep c).
  - intros _. destruct (split_cons sep r) as [h [t ->]]. by eexists _, _, _.
  - intros H. destruct (IH H) as [h [h' [t ->]]]. by eexists _, _, _.
Qed.

Lemma last_item_cons x y l : last_item (x :: y :: l) = last_item (y :: l).
Proof. reflexivity. Qed.

Lemma last_split_cons sep c r :
  last_item (split sep (String c r))
  = if Ascii.eqb c sep then last_item (split sep r)
    else if contains sep r then last_item (split sep r) else String c r.
Proof.
  simpl. destruct (Ascii.eqb c sep).
  - destruct (split_cons sep r) as [h [t ->]]. reflexivity.
  - destruct (contains sep r) eqn:H.
    + destruct (split_sep sep r H) as [h [h' [t ->]]]. reflexivity.
    + by rewrite (split_no_sep sep r H).
Qed.

Lemma contains_append sep a b :
  contains sep (a +:+ b) = contains sep a || contains sep b.
Proof.
  induction a as [|c a IH]; [by rewrite append_nil_l|].
  rewrite append_cons. simpl. by destruct (Ascii.eqb c sep).
Qed.

Lemma last_split_append sep a b :
  last_item (split sep (a +:+ b))
  = if contains sep b then last_item (split sep b)
    else last_item (split sep a) +:+ b.
Proof.
  induction a as [|c a IH].
  - rewrite append_nil_l. destruct (contains sep b) eqn:H; [done|].
    by rewrite (split_no_sep sep b H).
  - rewrite append_cons, !last_split_cons, IH, contains_append.
    destruct (Ascii.eqb c sep); [done|].
    destruct (contains sep b); [by rewrite orb_true_r|].
    rewrite orb_false_r. destruct (contains sep a); [done|].
    by rewrite append_cons.
Qed.

Lemma last_split_sep sep a b :
  last_item (split sep (a +:+ String sep b)) = last_item (split sep b).
Proof.
  rewrite last_split_append. destruct (contains sep (String sep b)) eqn:H.
  - rewrite last_split_cons. by rewrite Ascii.eqb_refl.
  - simpl in H. by rewrite Ascii.eqb_refl in H.
Qed.

Lemma last_split_no_sep sep s : contains sep s = false → last_item (split sep s) = s.
Proof. intros H. by rewrite (split_no_sep sep s H). Qed.

Lemma join_cons sep x y l : join sep (x :: y :: l) = x +:+ sep +:+ join sep (y :: l).
Proof. reflexivity. Qed.

(** The text is its pieces joined by the separator. *)
Lemma join_split sep s : join (String sep EmptyString) (split sep s) = s.
Proof.
  induction s as [|c r IH]; [done|]. simpl.
  destruct (split_cons sep r) as [h [t Hr]]. rewrite Hr in IH |- *.
  destruct (Ascii.eqb_spec c sep) as [->|Hne].
  - by rewrite join_cons, IH, append_nil_l, append_cons, append_nil_l.
  - destruct t as [|h' t].
    + by rewrite <- IH.
    + rewrite join_cons in IH |- *. by rewrite append_cons, IH.
Qed.

Lemma join_removelast sep x y l :
  join sep (x :: y :: l)
  = join sep (List.removelast (x :: y :: l)) +:+ sep +:+ last_item (x :: y :: l).
Proof.
  revert x y. induction l as [|z l IH]; intros x y; [reflexivity|].
  rewrite last_item_cons, join_cons, IH.
  change (List.removelast (x :: y :: z :: l)) with (x :: List.removelast (y :: z :: l)).
  destruct l as [|z' l].
  - cbn [List.removelast]. by rewrite join_cons, !append_assoc.
  - change (List.removelast (y :: z :: z' :: l)) with (y :: List.removelast (z :: z' :: l)).
    by rewrite join_cons, !append_assoc.
Qed.

(** [rsplit] at the last separator. *)
Lemma rsplit1_spec sep s :
  contains sep s = true →
  s = (rsplit1 sep s).1 +:+ String sep (rsplit1 sep s).2
  ∧ (rsplit1 sep s).2 = last_item (split sep s).
Proof.
  intros H. split; [|done]. unfold rsplit1. cbn [fst snd].
  destruct (split_sep sep s H) as [h [h' [t Hs]]].
  rewrite <- (join_split sep s) at 1. rewrite Hs, join_removelast.
  by rewrite append_cons, append_nil_l.
Qed.

(** ** Texts over a class of characters *)

Lemma all_chars_append P a b :
  all_chars P (a +:+ b) = all_chars P a && all_chars P b.
Proof.
  induction a as [|c a IH]; [by rewrite append_nil_l|].
  rewrite append_cons. simpl. by rewrite IH, andb_assoc.
Qed.

Lemma all_chars_take P n s : all_chars P s = true → all_chars P (take_chars n s) = true.
Proof.
  revert s. induction n as [|n IH]; intros [|c r]; simpl; try done.
  intros [-> H]%andb_true_iff. by rewrite IH.
Qed.

Lemma all_chars_slice P n s : all_chars P s = true → all_chars P (slice_to n s) = true.
Proof. unfold slice_to. destruct (n <? 0); apply all_chars_take. Qed.

Lemma all_chars_split P sep s :
  all_chars P s = true → Forall (fun x => all_chars P x = true) (split sep s).
Proof.
  induction s as [|c r IH]; simpl; [by repeat constructor|].
  intros [Hc Hr]%andb_true_iff. specialize (IH Hr).
  destruct (Ascii.eqb c sep); [by constructor|].
  destruct IH as [|h t Hh Ht]; constructor; simpl; try done.
  - by rewrite Hc.
  - by rewrite Hc, Hh.
Qed.

Lemma all_chars_last P l :
  Forall (fun x => all_chars P x = true) l → all_chars P (last_item l) = true.
Proof.
  induction 1 as [|x l Hx Hl IH]; [done|].
  destruct l; [done|]. by rewrite last_item_cons.
Qed.

Lemma Forall_removelast {A} (P : A → Prop) l : Forall P l → Forall P (List.removelast l).
Proof.
  induction 1 as [|x l Hx Hl IH]; [constructor|].
  destruct l; [constructor|]. by constructor.
Qed.

Lemma all_chars_join P sep l :
  all_chars P sep = true →
  Forall (fun x => all_chars P x = true) l → all_chars P (join sep l) = true.
Proof.
  intros Hsep. induction 1 as [|x l Hx Hl IH]; [done|].
  destruct l as [|y l]; [done|].
  by rewrite join_cons, !all_chars_append, Hx, Hsep, IH.
Qed.

Lemma all_chars_contains P c s : all_chars P s = true → P c = false → contains c s = false.
Proof.
  intros Hs Hc. induction s as [|a r IH]; [done|]. simpl in *.
  apply andb_true_iff in Hs as [Ha Hr].
  destruct (Ascii.eqb_spec a c) as [->|_]; [congruence|by apply IH].
Qed.

(** ** [sanitize_filename] *)

Lemma replace_unsafe_safe s : all_chars Validators.safe_char (Validators.replace_unsafe s) = true.
Proof.
  unfold Validators.replace_unsafe.
  induction s as [|c r IH]; [done|]. simpl. rewrite IH, andb_true_r.
  by destruct (Validators.safe_char c) eqn:H.
Qed.

Lemma replace_unsafe_id s :
  all_chars Validators.safe_char s = true → Validators.replace_unsafe s = s.
Proof.
  unfold Validators.replace_unsafe.
  induction s as [|c r IH]; [done|]. simpl.
  intros [-> H]%andb_true_iff. by rewrite (IH H).
Qed.

Lemma sanitize_filename_chars filename :
  all_chars Validators.safe_char (Validators.sanitize_filename filename) = true.
Proof.
  unfold Validators.sanitize_filename.
  set (base := Validators.replace_unsafe _).
  assert (all_chars Validators.safe_char base = true) as Hbase by apply replace_unsafe_safe.
  destruct (255 <? len base); [|done].
  destruct (contains "." base) eqn:Hdot.
  - unfold rsplit1.
    pose proof (all_chars_split _ "." _ Hbase) as Hparts.
    destruct (truthy_str (last_item (split "." base))).
    + rewrite !all_chars_append, all_chars_slice, all_chars_last; [done..|].
      by apply all_chars_join, Forall_removelast.
    + by apply all_chars_slice, all_chars_join, Forall_removelast.
  - destruct (truthy_str EmptyString); [|by apply all_chars_slice].
    by rewrite !all_chars_append, all_chars_slice.
Qed.

Lemma stripped_slash dir filename : stripped (dir +:+ String "/" filename) = stripped filename.
Proof. unfold stripped. by rewrite last_split_sep. Qed.

Lemma stripped_backslash dir filename :
  stripped (dir +:+ String "\" filename) = stripped filename.
Proof.
  unfold stripped. rewrite last_split_append, last_split_cons.
  change (contains "/" (String "\" filename)) with (contains "/" filename).
  change (Ascii.eqb "\" "/") with false.
  destruct (contains "/" filename) eqn:H; [done|].
  by rewrite last_split_sep, (last_split_no_sep "/" filename H).
Qed.

Lemma sanitize_filename_stripped a b :
  stripped a = stripped b → Validators.sanitize_filename a = Validators.sanitize_filename b.
Proof. unfold stripped, Validators.sanitize_filename. by intros ->. Qed.

(** X1.  [sanitize_filename] keeps only what follows the last path separator:
    whatever precedes a [/] or a [\] does not matter, and a name that
    ends in a separator is sanitized to the empty name. *)
Theorem sanitize_filename_directories dir filename :
  Validators.sanitize_filename (dir +:+ String "/" filename)
  = Validators.sanitize_filename filename
  ∧ Validators.sanitize_filename (dir +:+ String "\" filename)
    = Validators.sanitize_filename filename
  ∧ Validators.sanitize_filename (dir +:+ "/") = EmptyString
  ∧ Validators.sanitize_filename (dir +:+ "\") = EmptyString.
Proof.
  split; [|split; [|split]].
  - apply sanitize_filename_stripped, stripped_slash.
  - apply sanitize_filename_stripped, stripped_backslash.
  - by rewrite (sanitize_filename_stripped _ EmptyString) by apply stripped_slash.
  - by rewrite (sanitize_filename_stripped _ EmptyString) by apply stripped_backslash.
Qed.

(** X2.  Every character of a sanitized file name is a letter, a digit, a
    dot, an underscore or a hyphen; in particular the name holds no [/],
    no [\] and no space. *)
Theorem sanitize_filename_safe filename :
  all_chars Validators.safe_char (Validators.sanitize_filename filename) = true
  ∧ contains "/" (Validators.sanitize_filename filename) = false
  ∧ contains "\" (Validators.sanitize_filename filename) = false
  ∧ contains " " (Validators.sanitize_filename filename) = false.
Proof.
  pose proof (sanitize_filename_chars filename) as H.
  repeat split; [done|..]; by apply (all_chars_contains _ _ _ H).
Qed.

(** X3.  A sanitized file name of at most 255 characters is left alone
    by [sanitize_filename]: sanitizing twice is sanitizing once. *)
Theorem sanitize_filename_idempotent filename :
  len (Validators.sanitize_filename filename) <= 255 →
  Validators.sanitize_filename (Validators.sanitize_filename filename)
  = Validators.sanitize_filename filename.
Proof.
  intros Hlen. pose proof (sanitize_filename_chars filename) as H.
  set (s := Validators.sanitize_filename filename) in *.
  unfold Validators.sanitize_filename.
  rewrite (last_split_no_sep "/" s) by by apply (all_chars_contains _ _ _ H).
  rewrite (last_split_no_sep "\" s) by by apply (all_chars_contains _ _ _ H).
  rewrite (replace_unsafe_id s H).
  by destruct (Z.ltb_spec 255 (len s)); [lia|].
Qed.

Lemma sanitize_filename_idempotent_witness :
  Validators.sanitize_filename (Validators.sanitize_filename "../my photo.jpg")
  = Validators.sanitize_filename "../my photo.jpg".
Proof. apply sanitize_filename_idempotent. vm_compute. discriminate. Defined.

(** ** The length limit *)

Lemma len_append a b : len (a +:+ b) = len a + len b.
Proof. unfold len. rewrite length_append. lia. Qed.

Lemma len_cons c s : len (String c s) = 1 + len s.
Proof. unfold len. cbn [String.length]. lia. Qed.

Lemma len_take n s : len (take_chars n s) = Z.min (Z.of_nat n) (len s).
Proof.
  revert s. induction n as [|n IH]; intros [|c r]; cbn [take_chars]; try (unfold len; simpl; lia).
  rewrite !len_cons, IH. lia.
Qed.

Lemma len_replace_unsafe s : len (Validators.replace_unsafe s) = len s.
Proof.
  unfold Validators.replace_unsafe. induction s as [|c r IH]; [done|].
  cbn [map_chars]. by rewrite !len_cons, IH.
Qed.

Lemma replace_unsafe_dot c :
  Ascii.eqb (if Validators.safe_char c then c else "_"%char) "." = Ascii.eqb c ".".
Proof.
  destruct (Ascii.eqb_spec c ".") as [->|Hne]; [done|].
  destruct (Validators.safe_char c); [by apply Ascii.eqb_neq|done].
Qed.

Lemma contains_replace_unsafe s :
  contains "." (Validators.replace_unsafe s) = contains "." s.
Proof.
  unfold Validators.replace_unsafe. induction s as [|c r IH]; [done|].
  cbn [map_chars contains]. by rewrite replace_unsafe_dot, IH.
Qed.

Lemma split_replace_unsafe s :
  split "." (Validators.replace_unsafe s) = map Validators.replace_unsafe (split "." s).
Proof.
  unfold Validators.replace_unsafe. induction s as [|c r IH]; [done|].
  cbn [map_chars split]. rewrite replace_unsafe_dot, IH.
  destruct (Ascii.eqb c "."); [done|].
  by destruct (split "." r).
Qed.

Lemma last_item_map (f : string → string) l :
  f EmptyString = EmptyString → last_item (map f l) = f (last_item l).
Proof.
  intros Hf. induction l as [|x l IH]; [done|].
  destruct l; [done|]. cbn [map] in *. by rewrite !last_item_cons.
Qed.

Lemma len_last_split sep s : len (last_item (split sep s)) <= len s.
Proof.
  induction s as [|c r IH]; [done|]. rewrite last_split_cons, len_cons.
  destruct (Ascii.eqb c sep); [lia|]. destruct (contains sep r); [lia|].
  rewrite len_cons. lia.
Qed.

Lemma len_slice_to n s :
  len (slice_to n s) = if n <? 0 then Z.max 0 (len s + n) else Z.min n (len s).
Proof.
  unfold slice_to. pose proof (len_nonneg s).
  destruct (Z.ltb_spec n 0); rewrite len_take; lia.
Qed.

(** X4.  [sanitize_filename] never returns a longer name than it was
    given, and its result has at most 255 characters exactly when the
    extension of the name has fewer than 255: the limit is enforced by
    shortening the stem only, so a longer extension is kept whole. *)
Theorem sanitize_filename_length filename :
  len (Validators.sanitize_filename filename) <= len filename
  ∧ (len (Validators.sanitize_filename filename) <= 255 ↔ len (extension filename) < 255).
Proof.
  unfold Validators.sanitize_filename, extension. fold (stripped filename).
  set (name0 := stripped filename). set (base := Validators.replace_unsafe name0).
  assert (len base = len name0) as Hbase by apply len_replace_unsafe.
  assert (len name0 <= len filename) as Hname0.
  { unfold name0, stripped.
    pose proof (len_last_split "\" (last_item (split "/" filename))).
    pose proof (len_last_split "/" filename). lia. }
  rewrite <- (contains_replace_unsafe name0). fold base.
  assert (len (last_item (split "." name0)) = len (last_item (split "." base))) as Hext.
  { unfold base. by rewrite split_replace_unsafe, last_item_map, len_replace_unsafe. }
  pose proof (len_nonneg base) as Hnonneg.
  destruct (contains "." base) eqn:Hdot.
  - destruct (rsplit1_spec "." base Hdot) as [Heq Hlast].
    rewrite Hext, <- Hlast.
    destruct (rsplit1 "." base) as [name ext]. cbn [fst snd] in *.
    assert (len base = len name + 1 + len ext) as Hlen.
    { rewrite Heq at 1. rewrite len_append, len_cons. lia. }
    pose proof (len_nonneg name). pose proof (len_nonneg ext).
    destruct (Z.ltb_spec 255 (len base)); [|lia].
    destruct ext as [|e ext]; cbn [truthy_str].
    + rewrite len_slice_to. change (len EmptyString) with 0 in *.
      destruct (Z.ltb_spec 255 0); lia.
    + rewrite !len_append, len_slice_to. change (len ".") with 1.
      destruct (Z.ltb_spec (255 - len (String e ext) - 1) 0); lia.
  - change (len EmptyString) with 0.
    destruct (Z.ltb_spec 255 (len base)); [|lia].
    cbn [truthy_str]. rewrite len_slice_to. destruct (Z.ltb_spec 255 0); lia.
Qed.

(** ** Image extensions *)

Lemma map_chars_append f a b : map_chars f (a +:+ b) = map_chars f a +:+ map_chars f b.
Proof.
  induction a as [|c a IH]; [by rewrite !append_nil_l|].
  cbn [map_chars]. by rewrite !append_cons, <- IH.
Qed.

Lemma endswith_refl s : endswith s s = true.
Proof. destruct s; cbn [endswith]; by rewrite String.eqb_refl. Qed.

Lemma endswith_append a b : endswith (a +:+ b) b = true.
Proof.
  induction a as [|c a IH]; [rewrite append_nil_l; apply endswith_refl|].
  rewrite append_cons. cbn [endswith]. rewrite IH. by destruct (String.eqb _ b).
Qed.

Lemma endswith_inv s suffix : endswith s suffix = true → ∃ p, s = p +:+ suffix.
Proof.
  induction s as [|c s IH]; cbn [endswith].
  - destruct (String.eqb_spec EmptyString suffix) as [<-|]; [|done]. by exists EmptyString.
  - destruct (String.eqb_spec (String c s) suffix) as [<-|].
    + intros _. exists EmptyString. by rewrite append_nil_l.
    + intros [p ->]%IH. exists (String c p). by rewrite append_cons.
Qed.

Lemma map_chars_append_inv f s p q :
  map_chars f s = p +:+ q → ∃ a b, s = a +:+ b ∧ map_chars f a = p ∧ map_chars f b = q.
Proof.
  revert s. induction p as [|c p IH]; intros s.
  - rewrite append_nil_l. intros H. exists EmptyString, s. by rewrite append_nil_l.
  - rewrite append_cons. destruct s as [|x s]; [done|]. cbn [map_chars].
    intros [= Hc (a & b & -> & Ha & Hb)%IH].
    exists (String x a), b. rewrite append_cons. cbn [map_chars]. by rewrite Hc, Ha.
Qed.

Lemma lower_char_letter c : in_range "a" "z" (lower_char c) = true → letter c = true.
Proof. destruct c as [[] [] [] [] [] [] [] []]; vm_compute; congruence. Qed.

Lemma lower_char_dot c : lower_char c = "."%char → c = "."%char.
Proof. destruct c as [[] [] [] [] [] [] [] []]; vm_compute; congruence. Qed.

Lemma lower_letters s x :
  lower s = x → all_chars (in_range "a" "z") x = true → all_chars letter s = true.
Proof.
  revert x. induction s as [|c s IH]; intros x; [done|].
  cbn [lower map_chars]. intros <-. cbn [all_chars].
  intros [Hc Hs]%andb_true_iff. rewrite (lower_char_letter _ Hc). by apply (IH _ eq_refl).
Qed.

Lemma allowed_extensions_shape ext :
  ext ∈ Validators.allowed_extensions →
  ∃ x, ext = String "." x ∧ x ≠ EmptyString ∧ all_chars (in_range "a" "z") x = true.
Proof.
  unfold Validators.allowed_extensions. intros H.
  repeat (apply elem_of_cons in H as [->|H]; [by eexists|]). by apply elem_of_nil in H.
Qed.

(** A text that lower-cases to an allowed extension is a dot followed
    by letters. *)
Lemma extension_shape s ext :
  ext ∈ Validators.allowed_extensions → lower s = ext →
  ∃ e, s = String "." e ∧ e ≠ EmptyString ∧ all_chars letter e = true.
Proof.
  intros (x & -> & Hx & Hletters)%allowed_extensions_shape.
  destruct s as [|c e]; [done|]. cbn [lower map_chars].
  intros [= Hc%lower_char_dot He]. subst c. exists e. split; [done|]. split.
  - intros ->. by destruct x.
  - by apply (lower_letters _ x).
Qed.

Lemma all_chars_impl (P Q : ascii → bool) s :
  (∀ c, P c = true → Q c = true) → all_chars P s = true → all_chars Q s = true.
Proof.
  intros H. induction s as [|c s IH]; [done|]. cbn [all_chars].
  intros [Hc Hs]%andb_true_iff. by rewrite (H _ Hc), IH.
Qed.

Lemma letter_safe c : letter c = true → Validators.safe_char c = true.
Proof.
  unfold letter, Validators.safe_char. intros [->| ->]%orb_true_iff; [done|].
  by rewrite orb_true_r.
Qed.

Lemma letter_not c d : letter d = false → letter c = true → Ascii.eqb c d = false.
Proof. intros Hd Hc. apply Ascii.eqb_neq. by intros ->; congruence. Qed.

Lemma sanitize_filename_keeps_extension stem e :
  e ≠ EmptyString → all_chars letter e = true →
  ∃ g, Validators.sanitize_filename (stem +:+ String "." e) = g +:+ String "." e.
Proof.
  intros He Hletters.
  assert (∀ sep, letter sep = false → Ascii.eqb "." sep = false →
                 contains sep (String "." e) = false) as Hsep.
  { intros sep Hl Hdot. cbn [contains]. rewrite Hdot.
    by apply (all_chars_contains letter). }
  assert (all_chars Validators.safe_char (String "." e) = true) as Hsafe.
  { cbn [all_chars]. apply andb_true_iff. split; [done|].
    by apply (all_chars_impl letter), Hletters; apply letter_safe. }
  unfold Validators.sanitize_filename.
  rewrite (last_split_append "/"%char), (Hsep "/"%char) by done.
  rewrite (last_split_append "\"%char), (Hsep "\"%char) by done.
  set (a := last_item (split "\" (last_item (split "/" stem)))).
  unfold Validators.replace_unsafe. rewrite map_chars_append.
  fold (Validators.replace_unsafe a). fold (Validators.replace_unsafe (String "." e)).
  rewrite (replace_unsafe_id _ Hsafe).
  set (b := Validators.replace_unsafe a).
  destruct (255 <? len (b +:+ String "." e)); [|by exists b].
  rewrite contains_append. cbn [contains Ascii.eqb Bool.eqb]. rewrite orb_true_r.
  assert (contains "." (b +:+ String "." e) = true) as Hdot.
  { rewrite contains_append. cbn [contains Ascii.eqb Bool.eqb]. by rewrite orb_true_r. }
  destruct (rsplit1_spec "." _ Hdot) as [_ Hext].
  rewrite last_split_sep, last_split_no_sep in Hext
    by by apply (all_chars_contains letter).
  destruct (rsplit1 "." (b +:+ String "." e)) as [name ext]. cbn [snd] in Hext. subst ext.
  destruct e as [|c e]; [done|]. cbn [truthy_str].
  eexists. by rewrite append_cons, append_nil_l.
Qed.

(** X5.  [validate_image_extension] accepts every name that ends in one
    of the six extensions, in any case of letters and whatever the stem;
    and a name it accepts is still accepted after [sanitize_filename]. *)
Theorem image_extension_kept :
  (∀ stem ext,
     lower ext ∈ Validators.allowed_extensions →
     Validators.validate_image_extension (stem +:+ ext) = true)
  ∧ (∀ filename,
       Validators.validate_image_extension filename = true →
       Validators.validate_image_extension (Validators.sanitize_filename filename) = true).
Proof.
  assert (∀ stem ext,
            lower ext ∈ Validators.allowed_extensions →
            Validators.validate_image_extension (stem +:+ ext) = true) as Haccepts.
  { intros stem ext Hin. unfold Validators.validate_image_extension.
    apply existsb_exists. exists (lower ext). split; [by apply list_elem_of_In|].
    unfold lower. rewrite map_chars_append. apply endswith_append. }
  split; [exact Haccepts|].
  intros filename Hvalid. unfold Validators.validate_image_extension in Hvalid.
  apply existsb_exists in Hvalid as (ext & Hin%list_elem_of_In & [p Hp]%endswith_inv).
  apply map_chars_append_inv in Hp as (stem & s & -> & _ & Hs).
  destruct (extension_shape s ext Hin Hs) as (e & -> & He & Hletters).
  destruct (sanitize_filename_keeps_extension stem e He Hletters) as [g ->].
  apply Haccepts. unfold lower. by rewrite Hs.
Qed.

Lemma image_extension_kept_witness :
  Validators.validate_image_extension "holiday/My Photo.JPG" = true
  ∧ Validators.validate_image_extension
      (Validators.sanitize_filename "holiday/My Photo.JPG") = true.
Proof.
  split.
  - apply (proj1 image_extension_kept "holiday/My Photo" ".JPG").
    apply (bool_decide_eq_true_1 _). reflexivity.
  - apply (proj2 image_extension_kept). reflexivity.
Defined.

(** ** [validate_uuid] *)

Lemma consumes_bind f g n m :
  consumes f n → consumes g m → consumes (fun s => f s ≫= g) (n + m).
Proof.
  intros Hf Hg s r H.
  destruct (f s) as [s1|] eqn:H1; [|done]. cbn in H.
  destruct (Hf _ _ H1) as [p [-> [Hp Hpt]]].
  destruct (Hg _ _ H) as [q [-> [Hq Hqt]]].
  exists (p +:+ q). split; [by rewrite append_assoc|].
  split; [by rewrite length_append, Hp, Hq|].
  intros t. rewrite append_assoc, Hpt. cbn. apply Hqt.
Qed.

Lemma consumes_hex_run n : consumes (Validators.hex_run n) n.
Proof.
  induction n as [|n IH]; intros s r H.
  - cbn in H. injection H as ->. exists EmptyString.
    split; [by rewrite append_nil_l|]. split; [done|].
    intros t. by rewrite append_nil_l.
  - destruct s as [|c s]; [done|]. cbn [Validators.hex_run] in H.
    destruct (Validators.is_hex c) eqn:Hc; [|done].
    destruct (IH _ _ H) as [p [-> [Hp Hpt]]].
    exists (String c p). split; [by rewrite append_cons|].
    split; [by cbn; rewrite Hp|].
    intros t. rewrite append_cons. cbn [Validators.hex_run]. by rewrite Hc.
Qed.

Lemma consumes_hyphen : consumes Validators.hyphen 1.
Proof.
  intros [|c s] r H; [done|]. cbn in H.
  destruct (Ascii.eqb_spec c "-") as [->|]; [|done]. injection H as ->.
  exists "-". split; [by rewrite append_cons, append_nil_l|]. split; [done|].
  intros t. by rewrite append_cons, append_nil_l.
Qed.

Lemma caseless_bind f g : caseless f → caseless g → caseless (fun s => f s ≫= g).
Proof.
  intros Hf Hg s. rewrite Hf. destruct (f s) as [s1|]; [|done]. cbn. apply Hg.
Qed.

Lemma is_hex_lower c : Validators.is_hex (lower_char c) = Validators.is_hex c.
Proof. destruct c as [[] [] [] [] [] [] [] []]; reflexivity. Qed.

Lemma caseless_hex_run n : caseless (Validators.hex_run n).
Proof.
  induction n as [|n IH]; intros s; [by destruct s|].
  destruct s as [|c s]; [done|]. cbn [lower map_chars Validators.hex_run].
  rewrite is_hex_lower. destruct (Validators.is_hex c); [apply IH|done].
Qed.

Lemma caseless_hyphen : caseless Validators.hyphen.
Proof.
  intros [|c s]; [done|]. cbn [lower map_chars Validators.hyphen].
  replace (Ascii.eqb (lower_char c) "-") with (Ascii.eqb c "-").
  - by destruct (Ascii.eqb c "-").
  - destruct c as [[] [] [] [] [] [] [] []]; reflexivity.
Qed.

Lemma at_end_lower s : Validators.at_end (lower s) = Validators.at_end s.
Proof.
  destruct s as [|c [|c' s]]; try done. cbn.
  destruct c as [[] [] [] [] [] [] [] []]; reflexivity.
Qed.

Lemma at_end_cases s : Validators.at_end s = true → s = EmptyString ∨ s = NEWLINE.
Proof.
  destruct s as [|c [|c' s]]; cbn; [by left| |done].
  intros ->%Ascii.eqb_eq. by right.
Qed.

(** X6.  [validate_uuid] does not tell the case of letters, and a text it
    accepts is a text of 36 characters that it accepts, alone or followed
    by one newline: the [$] of the pattern also matches before a final
    newline. *)
Theorem validate_uuid_accepts s :
  Validators.validate_uuid (lower s) = Validators.validate_uuid s
  ∧ (Validators.validate_uuid s = true →
     ∃ u, (s = u ∨ s = u +:+ NEWLINE)
          ∧ String.length u = 36%nat
          ∧ Validators.validate_uuid u = true
          ∧ Validators.validate_uuid (u +:+ NEWLINE) = true).
Proof.
  unfold Validators.validate_uuid. cbv zeta.
  set (pattern := fun x : string =>
    s ← Validators.hex_run 8 x; s ← Validators.hyphen s;
    s ← Validators.hex_run 4 s; s ← Validators.hyphen s;
    s ← Validators.hex_run 4 s; s ← Validators.hyphen s;
    s ← Validators.hex_run 4 s; s ← Validators.hyphen s;
    Validators.hex_run 12 s).
  change (match pattern (lower s) with Some rest => Validators.at_end rest | None => false end
          = match pattern s with Some rest => Validators.at_end rest | None => false end
          ∧ (match pattern s with Some rest => Validators.at_end rest | None => false end = true →
             ∃ u, (s = u ∨ s = u +:+ NEWLINE) ∧ String.length u = 36%nat
                  ∧ match pattern u with Some rest => Validators.at_end rest | None => false end
                    = true
                  ∧ match pattern (u +:+ NEWLINE) with
                    | Some rest => Validators.at_end rest
                    | None => false
                    end = true)).
  assert (caseless pattern) as Hcase.
  { repeat (apply caseless_bind; [first [apply caseless_hex_run | apply caseless_hyphen]|]).
    apply caseless_hex_run. }
  assert (consumes pattern 36) as Hshape.
  { change 36%nat with (8 + (1 + (4 + (1 + (4 + (1 + (4 + (1 + 12))))))))%nat.
    repeat (apply consumes_bind; [first [apply consumes_hex_run | apply consumes_hyphen]|]).
    apply consumes_hex_run. }
  split.
  - rewrite Hcase. destruct (pattern s); [apply at_end_lower|done].
  - destruct (pattern s) as [rest|] eqn:H; [|done]. intros Hend.
    destruct (Hshape _ _ H) as [u [-> [Hlen Hu]]].
    exists u. split; [|split; [done|]].
    + destruct (at_end_cases _ Hend) as [->| ->]; [left|by right].
      by rewrite append_nil_r.
    + split; [|by rewrite Hu].
      rewrite <- (append_nil_r u) at 1. by rewrite Hu.
Qed.

Lemma validate_uuid_accepts_witness :
  ∃ u, ("123e4567-E89B-12d3-a456-426614174000" +:+ NEWLINE = u
        ∨ "123e4567-E89B-12d3-a456-426614174000" +:+ NEWLINE = u +:+ NEWLINE)
       ∧ String.length u = 36%nat
       ∧ Validators.validate_uuid u = true
       ∧ Validators.validate_uuid (u +:+ NEWLINE) = true.
Proof.
  apply (proj2 (validate_uuid_accepts ("123e4567-E89B-12d3-a456-426614174000" +:+ NEWLINE))).
  vm_compute. reflexivity.
Defined.

(** ** The two request models *)

Lemma upload_request_inv body request :
  UploadPresignedUrlRequest.new body = Ok request →
  UploadPresignedUrlRequest.errors body = []
  ∧ Body.user_id body = Some (UploadPresignedUrlRequest.user_id request)
  ∧ Body.filename body = Some (UploadPresignedUrlRequest.filename request)
  ∧ Body.content_type body = Some (UploadPresignedUrlRequest.content_type request)
  ∧ Body.file_size body = Some (UploadPresignedUrlRequest.file_size request)
  ∧ Body.tags body = UploadPresignedUrlRequest.tags request
  ∧ Body.description body = UploadPresignedUrlRequest.description request.
Proof.
  unfold UploadPresignedUrlRequest.new.
  destruct (UploadPresignedUrlRequest.errors body);
    destruct (Body.user_id body), (Body.filename body), (Body.content_type body),
      (Body.file_size body); intros [= <-]; done.
Qed.

(** X7.  A body the issue-upload model accepts is accepted by the
    complete-upload model once an [image_id] is added, with any positive
    [file_size]: the complete-upload model has no upper bound on the
    size. *)
Theorem complete_accepts_issued body request image_id file_size :
  UploadPresignedUrlRequest.new body = Ok request →
  image_id ≠ EmptyString →
  0 < file_size →
  CompleteUploadRequest.new (completion_of body image_id file_size)
  = Ok (CompleteUploadRequest.mk image_id
          (UploadPresignedUrlRequest.user_id request)
          (UploadPresignedUrlRequest.filename request)
          (UploadPresignedUrlRequest.content_type request)
          file_size
          (UploadPresignedUrlRequest.tags request)
          (UploadPresignedUrlRequest.description request)).
Proof.
  intros (Herr & Hu & Hf & Hc & Hn & Ht & Hd)%upload_request_inv Hid Hsize.
  unfold UploadPresignedUrlRequest.errors in Herr.
  apply app_nil in Herr as [Hu' Herr]. apply app_nil in Herr as [Hf' Herr].
  apply app_nil in Herr as [Hc' Herr]. apply app_nil in Herr as [_ Hd'].
  unfold CompleteUploadRequest.new, CompleteUploadRequest.errors, completion_of.
  cbn [Body.image_id Body.user_id Body.filename Body.content_type Body.file_size
       Body.tags Body.description].
  rewrite Hu', Hf', Hc', Hd', (check_required_str_ok _ _ Hid).
  rewrite (proj2 (check_file_size_positive file_size) Hsize).
  cbn [app]. by rewrite Hu, Hf, Hc, Ht, Hd.
Qed.

Lemma complete_accepts_issued_witness :
  CompleteUploadRequest.new (completion_of (sample_upload "image/png" 1) "img-1" 20000000)
  = Ok (CompleteUploadRequest.mk "img-1" "user123" "photo.jpg" "image/png" 20000000 None None).
Proof.
  apply (complete_accepts_issued (sample_upload "image/png" 1)
           (UploadPresignedUrlRequest.mk "user123" "photo.jpg" "image/png" 1 None None));
    [reflexivity|discriminate|lia].
Defined.

(** ** Records and items *)

Lemma status_of_status_value s : status_of_value (status_value s) = Some s.
Proof. by destruct s. Qed.

Lemma metadata_new_inv a m :
  ImageMetadata.new a = Ok m →
  ImageMetadata.errors a = []
  ∧ ImageMetadata.a_image_id a = Some (ImageMetadata.image_id m)
  ∧ ImageMetadata.a_user_id a = Some (ImageMetadata.user_id m)
  ∧ ImageMetadata.a_filename a = Some (ImageMetadata.filename m)
  ∧ ImageMetadata.a_content_type a = Some (ImageMetadata.content_type m)
  ∧ ImageMetadata.a_file_size a = Some (ImageMetadata.file_size m)
  ∧ ImageMetadata.a_upload_timestamp a = Some (ImageMetadata.upload_timestamp m)
  ∧ ImageMetadata.a_s3_key a = Some (ImageMetadata.s3_key m)
  ∧ ImageMetadata.a_tags a = ImageMetadata.tags m
  ∧ ImageMetadata.a_description a = ImageMetadata.description m
  ∧ default COMPLETED (ImageMetadata.a_status a ≫= status_of_value) = ImageMetadata.status m.
Proof.
  unfold ImageMetadata.new.
  destruct (ImageMetadata.errors a);
    destruct (ImageMetadata.a_image_id a), (ImageMetadata.a_user_id a),
      (ImageMetadata.a_filename a), (ImageMetadata.a_content_type a),
      (ImageMetadata.a_file_size a), (ImageMetadata.a_upload_timestamp a),
      (ImageMetadata.a_s3_key a); intros [= <-]; done.
Qed.


Lemma metadata_new_ok i u f c n ts tags d st k :
  c ∈ Validators.allowed_types → 0 < n →
  ImageMetadata.new
    (ImageMetadata.mk_args (Some i) (Some u) (Some f) (Some c) (Some n) (Some ts) tags d
       (Some (status_value st)) (Some k))
  = Ok (ImageMetadata.mk i u f c n ts tags d st k).
Proof.
  intros Hc Hn. unfold ImageMetadata.new, ImageMetadata.errors.
  cbn [ImageMetadata.a_image_id ImageMetadata.a_user_id ImageMetadata.a_filename
       ImageMetadata.a_content_type ImageMetadata.a_file_size
       ImageMetadata.a_upload_timestamp ImageMetadata.a_s3_key ImageMetadata.a_status
       ImageMetadata.a_tags ImageMetadata.a_description check_present
       ImageMetadata.check_content_type ImageMetadata.check_status].
  unfold validate_content_type. rewrite (bool_decide_eq_true_2 _ Hc).
  rewrite (proj2 (check_file_size_positive n) Hn), status_of_status_value.
  cbn [app mbind option_bind default]. by rewrite status_of_status_value.
Qed.


Lemma put_item_ok now m w :
  ImageMetadata.image_id m ≠ EmptyString →
  ImageMetadata.user_id m ≠ EmptyString →
  ImageMetadata.upload_timestamp m ≠ EmptyString →
  outage w PutItem = None →
  DynamoDBService.put_item now m w
  = (Ok true,
     with_table (insert (ImageMetadata.image_id m) (DynamoDBService.item_of m now)) w).
Proof.
  intros Hid Hu Hts Hput.
  assert (put_item (ImageMetadata.image_id m) (DynamoDBService.item_of m now) w
          = (Ok tt, with_table (insert (ImageMetadata.image_id m)
                                  (DynamoDBService.item_of m now)) w)) as H.
  { unfold put_item. rewrite (bind_ok _ _ _ _ _ (call_ok _ _ Hput)).
    apply truthy_str_true in Hid. rewrite Hid.
    cbn [DynamoDBService.item_of Item.user_id Item.upload_timestamp valid_key_attribute].
    destruct (ImageMetadata.user_id m); [done|].
    destruct (ImageMetadata.upload_timestamp m); [done|]. reflexivity. }
  unfold DynamoDBService.put_item. by rewrite (bind_ok _ _ _ _ _ H).
Qed.



(** ** Deleting and updating a record *)

Lemma delete_item_ok image_id w :
  image_id ≠ EmptyString →
  outage w DeleteItem = None →
  DynamoDBService.delete_item image_id w = (Ok true, with_table (delete image_id) w).
Proof.
  intros Hid Hdel. apply truthy_str_true in Hid.
  unfold DynamoDBService.delete_item, delete_item. unfold_M. by rewrite Hdel, Hid.
Qed.

Lemma with_table_id f w : f (table w) = table w → with_table f w = w.
Proof. intros H. destruct w. unfold with_table. cbn in *. by rewrite H. Qed.

(** X9.  [delete_item] followed by [get_item] gives [None]; deleting an
    [image_id] the table does not hold also reports success and changes
    nothing. *)
Theorem delete_item_get_item image_id w :
  image_id ≠ EmptyString →
  outage w DeleteItem = None →
  outage w GetItem = None →
  ∃ w',
    DynamoDBService.delete_item image_id w = (Ok true, w')
    ∧ DynamoDBService.get_item image_id w' = (Ok None, w')
    ∧ table w' = delete image_id (table w)
    ∧ bucket w' = bucket w
    ∧ (table w !! image_id = None → w' = w).
Proof.
  intros Hid Hdel Hget. eexists. split; [by apply delete_item_ok|].
  split; [|split; [done|split; [done|]]].
  - apply get_item_absent; [done..|]. apply lookup_delete_eq.
  - intros Habsent. apply with_table_id. by apply delete_id.
Qed.

Lemma delete_item_get_item_witness :
  ∃ w',
    DynamoDBService.delete_item "img-1" stuck_store = (Ok true, w')
    ∧ DynamoDBService.get_item "img-1" w' = (Ok None, w')
    ∧ table w' = delete "img-1" (table stuck_store)
    ∧ bucket w' = bucket stuck_store
    ∧ (table stuck_store !! "img-1" = None → w' = stuck_store).
Proof. apply delete_item_get_item; [discriminate|reflexivity..]. Defined.

Lemma update_status_ok now image_id status w :
  image_id ≠ EmptyString →
  outage w UpdateItem = None →
  DynamoDBService.update_status now image_id status w
  = (Ok true,
     with_table (fun t => <[image_id := set_status status now
                                          (default Item.empty (t !! image_id))]> t) w).
Proof.
  intros Hid Hup. apply truthy_str_true in Hid.
  unfold DynamoDBService.update_status, update_item. unfold_M. by rewrite Hup, Hid.
Qed.

Lemma get_item_spec image_id w :
  image_id ≠ EmptyString →
  outage w GetItem = None →
  DynamoDBService.get_item image_id w
  = (match table w !! image_id with
     | Some item => Some <$> ImageMetadata.new (DynamoDBService.args_of (image_id, item))
     | None => Ok None
     end, w).
Proof.
  intros Hid Hget. apply truthy_str_true in Hid.
  unfold DynamoDBService.get_item, get_item. unfold_M. rewrite Hget, Hid.
  by destruct (table w !! image_id).
Qed.

(** X10.  [update_status] stores any text as the status of an existing
    record.  When the text is one of the three status values, [get_item]
    then returns the record with that status and nothing else changed;
    otherwise [get_item] raises the validation error of the [status]
    field, so the record can no longer be read. *)
Theorem update_status_get_item now image_id status item metadata w :
  image_id ≠ EmptyString →
  outage w UpdateItem = None →
  outage w GetItem = None →
  table w !! image_id = Some item →
  ImageMetadata.new (DynamoDBService.args_of (image_id, item)) = Ok metadata →
  ∃ w',
    DynamoDBService.update_status now image_id status w = (Ok true, w')
    ∧ table w' !! image_id = Some (set_status status now item)
    ∧ DynamoDBService.get_item image_id w'
      = (match status_of_value status with
         | Some st => Ok (Some (with_status st metadata))
         | None => Raise (ValidationError "ImageMetadata" [bad_status])
         end, w').
Proof.
  intros Hid Hup Hget Hitem Hnew. eexists. split; [by apply update_status_ok|].
  assert (table (with_table (fun t => <[image_id := set_status status now
                                          (default Item.empty (t !! image_id))]> t) w)
          !! image_id = Some (set_status status now item)) as Hlook.
  { cbn. by rewrite lookup_insert_eq, Hitem. }
  split; [exact Hlook|].
  apply metadata_new_inv in Hnew as (Herr & Hi & Hu & Hf & Hc & Hn & Hts & Hk & Ht & Hd & Hs).
  cbn [DynamoDBService.args_of ImageMetadata.a_image_id ImageMetadata.a_user_id
       ImageMetadata.a_filename ImageMetadata.a_content_type ImageMetadata.a_file_size
       ImageMetadata.a_upload_timestamp ImageMetadata.a_s3_key ImageMetadata.a_status
       ImageMetadata.a_tags ImageMetadata.a_description fst snd] in *.
  unfold ImageMetadata.errors in Herr.
  cbn [DynamoDBService.args_of ImageMetadata.a_image_id ImageMetadata.a_user_id
       ImageMetadata.a_filename ImageMetadata.a_content_type ImageMetadata.a_file_size
       ImageMetadata.a_upload_timestamp ImageMetadata.a_s3_key ImageMetadata.a_status
       ImageMetadata.a_tags ImageMetadata.a_description fst snd] in Herr.
  apply app_nil in Herr as [_ Herr]. apply app_nil in Herr as [Hcu Herr].
  apply app_nil in Herr as [Hcf Herr]. apply app_nil in Herr as [Hcc Herr].
  apply app_nil in Herr as [Hcn Herr]. apply app_nil in Herr as [Hcts Herr].
  apply app_nil in Herr as [_ Hck].
  rewrite get_item_spec, Hlook by done.
  unfold ImageMetadata.new, ImageMetadata.errors.
  cbn [DynamoDBService.args_of set_status ImageMetadata.a_image_id ImageMetadata.a_user_id
       ImageMetadata.a_filename ImageMetadata.a_content_type ImageMetadata.a_file_size
       ImageMetadata.a_upload_timestamp ImageMetadata.a_s3_key ImageMetadata.a_status
       ImageMetadata.a_tags ImageMetadata.a_description fst snd
       Item.user_id Item.filename Item.content_type Item.file_size Item.upload_timestamp
       Item.tags Item.description Item.status Item.s3_key].
  rewrite Hcu, Hcf, Hcc, Hcn, Hcts, Hck, Hu, Hf, Hc, Hn, Hts, Hk.
  cbn [check_present app ImageMetadata.check_status mbind option_bind].
  injection Hi as Hi.
  destruct (status_of_value status) as [st|]; cbn [app default].
  - unfold with_status. by rewrite <- Hi, Ht, Hd.
  - reflexivity.
Qed.

Lemma update_status_get_item_witness :
  ∃ w',
    DynamoDBService.update_status "2026-02-14T08:00:00" "img-1" "archived" stocked
    = (Ok true, w')
    ∧ table w' !! "img-1"
      = Some (set_status "archived" "2026-02-14T08:00:00"
                (sample_record "owner" "2026-02-13T10:00:00"))
    ∧ DynamoDBService.get_item "img-1" w'
      = (Raise (ValidationError "ImageMetadata" [bad_status]), w').
Proof.
  apply (update_status_get_item "2026-02-14T08:00:00" "img-1" "archived"
           (sample_record "owner" "2026-02-13T10:00:00") sample_metadata stocked);
    [discriminate|reflexivity..].
Defined.

(** ** Computations that only read *)

Lemma read_only_ret {A} (a : A) : read_only (mret a).
Proof. done. Qed.

Lemma read_only_raise {A} e : read_only (@raise A e).
Proof. done. Qed.

Lemma read_only_lift {A} (r : result A) : read_only (lift r).
Proof. done. Qed.

Lemma read_only_gets {A} (f : World → A) : read_only (gets f).
Proof. done. Qed.

Lemma read_only_call op : read_only (call op).
Proof. intros w. unfold call. by destruct (outage w op) as [[? ?]|]. Qed.

Lemma read_only_bind {A B} (m : M A) (k : A → M B) :
  read_only m → (∀ a, read_only (k a)) → read_only (m ≫= k).
Proof.
  intros Hm Hk w. unfold mbind, M_bind. specialize (Hm w).
  destruct (m w) as [[a|e] w1]; cbn in Hm; subst w1; [apply Hk|done].
Qed.

Lemma read_only_try {A} (m : M A) (h : exn → M A) :
  read_only m → (∀ e, read_only (h e)) → read_only (try_except m h).
Proof.
  intros Hm Hh w. unfold try_except. specialize (Hm w).
  destruct (m w) as [[a|e] w1]; cbn in Hm; subst w1; [done|apply Hh].
Qed.

Ltac read_only_step :=
  first
    [ apply read_only_ret | apply read_only_raise | apply read_only_lift
    | apply read_only_gets | apply read_only_call
    | apply read_only_bind; [|intros ?]
    | apply read_only_try; [|intros ?]
    | match goal with
      | |- read_only (match ?x with _ => _ end) => destruct x
      | |- read_only (if ?b then _ else _) => destruct b
      | |- read_only (let '(_, _) := ?x in _) => destruct x
      end ].

Lemma read_only_not_found_as {A} (absent : A) e : read_only (S3Service.not_found_as absent e).
Proof. unfold S3Service.not_found_as. repeat read_only_step. Qed.

Lemma read_only_head_object key : read_only (head_object key).
Proof. unfold head_object. repeat read_only_step. Qed.

Lemma read_only_check_object_exists key : read_only (S3Service.check_object_exists key).
Proof.
  unfold S3Service.check_object_exists.
  apply read_only_try; [|apply read_only_not_found_as].
  apply read_only_bind; [apply read_only_head_object|]. intros ?. apply read_only_ret.
Qed.

Lemma read_only_get_object_metadata key : read_only (S3Service.get_object_metadata key).
Proof.
  unfold S3Service.get_object_metadata.
  apply read_only_try; [|apply read_only_not_found_as].
  apply read_only_bind; [apply read_only_head_object|]. intros ?. apply read_only_ret.
Qed.

Lemma read_only_generate_presigned_post key ct fs e :
  read_only (S3Service.generate_presigned_post key ct fs e).
Proof.
  unfold S3Service.generate_presigned_post, generate_presigned_post. repeat read_only_step.
Qed.

Lemma read_only_generate_presigned_get key e f :
  read_only (S3Service.generate_presigned_get key e f).
Proof.
  unfold S3Service.generate_presigned_get, generate_presigned_url. repeat read_only_step.
Qed.

Lemma read_only_get_item image_id : read_only (DynamoDBService.get_item image_id).
Proof. unfold DynamoDBService.get_item, get_item. repeat read_only_step. Qed.

Lemma read_only_query p : read_only (query p).
Proof. unfold query. repeat read_only_step. Qed.

Lemma read_only_scan limit key : read_only (scan limit key).
Proof. unfold scan. repeat read_only_step. Qed.

Lemma read_only_query_by_user u s e limit key :
  read_only (DynamoDBService.query_by_user u s e limit key).
Proof.
  unfold DynamoDBService.query_by_user.
  apply read_only_bind; [apply read_only_query|]. intros ?. repeat read_only_step.
Qed.

Lemma read_only_scan_all limit key : read_only (DynamoDBService.scan_all limit key).
Proof.
  unfold DynamoDBService.scan_all.
  apply read_only_bind; [apply read_only_scan|]. intros ?. repeat read_only_step.
Qed.

Lemma read_only_fetch request key : read_only (list_images.fetch request key).
Proof.
  unfold list_images.fetch.
  destruct (ListImagesRequest.user_id request) as [u|]; [destruct (truthy_str u)|];
    first [apply read_only_query_by_user | apply read_only_scan_all].
Qed.

Lemma read_only_upload_flow uuid4 body : read_only (upload_presigned_url.flow uuid4 body).
Proof.
  unfold upload_presigned_url.flow.
  apply read_only_bind; [apply read_only_lift|]. intros b.
  destruct (UploadPresignedUrlRequest.new b) as [request|[]]; try apply read_only_raise;
    [|apply read_only_ret].
  apply read_only_bind; [apply read_only_generate_presigned_post|]. intros ?.
  apply read_only_ret.
Qed.

Lemma read_only_download_flow image_id : read_only (get_image_presigned_url.flow image_id).
Proof.
  unfold get_image_presigned_url.flow.
  destruct image_id as [image_id|]; [|apply read_only_raise].
  destruct (negb (truthy_str image_id)); [apply read_only_raise|].
  apply read_only_bind; [apply read_only_get_item|]. intros [metadata|]; [|apply read_only_ret].
  apply read_only_bind; [apply read_only_check_object_exists|]. intros found.
  destruct (negb found); [apply read_only_ret|].
  apply read_only_bind; [apply read_only_generate_presigned_get|]. intros ?.
  apply read_only_ret.
Qed.

Lemma read_only_list_page request key : read_only (list_images.list_page request key).
Proof.
  unfold list_images.list_page.
  apply read_only_bind; [apply read_only_fetch|]. intros ?. apply read_only_ret.
Qed.

Lemma read_only_list_flow fromisoformat int q : read_only (list_images.flow fromisoformat int q).
Proof.
  unfold list_images.flow.
  apply read_only_bind; [apply read_only_lift|]. intros limit.
  destruct (ListImagesRequest.new _ _) as [request|[]]; try apply read_only_raise;
    [|apply read_only_ret].
  destruct (ListImagesRequest.next_token request) as [token|]; [|apply read_only_list_page].
  destruct (truthy_str token); [|apply read_only_list_page].
  destruct (list_images.decode token); [apply read_only_list_page|apply read_only_ret].
Qed.

(** X11.  The issue-upload, download and list handlers leave the table and
    the bucket as they found them, whatever the request and whatever the
    outcome. *)
Theorem read_only_handlers w :
  (∀ uuid4 body, (upload_presigned_url.handler uuid4 body w).2 = w)
  ∧ (∀ image_id, (get_image_presigned_url.handler image_id w).2 = w)
  ∧ (∀ fromisoformat int q, (list_images.handler fromisoformat int q w).2 = w).
Proof.
  split; [|split]; intros.
  - unfold upload_presigned_url.handler. rewrite respond_frame. apply read_only_upload_flow.
  - unfold get_image_presigned_url.handler. rewrite respond_frame.
    apply read_only_download_flow.
  - unfold list_images.handler. rewrite respond_frame. apply read_only_list_flow.
Qed.

(** ** The status codes of the handlers *)

Lemma answers_ret codes r :
  statusCode r ∈ codes → headers r = default_headers → answers codes (mret r).
Proof. intros Hc Hh w r' w' [= <- <-]. done. Qed.

Lemma answers_raise codes e : answers codes (raise e).
Proof. intros w r w' H. done. Qed.

Lemma answers_bind {A} codes (m : M A) (k : A → M response) :
  (∀ a, answers codes (k a)) → answers codes (m ≫= k).
Proof.
  intros Hk w r w'. unfold mbind, M_bind.
  destruct (m w) as [[a|e] w1]; [apply Hk|done].
Qed.

Ltac answers_step :=
  first
    [ apply answers_raise
    | apply answers_ret; [set_solver|reflexivity]
    | apply answers_bind; intros ?
    | match goal with
      | |- answers _ (match ?x with _ => _ end) => destruct x
      | |- answers _ (if ?b then _ else _) => destruct b
      end ].

Lemma answers_respond codes failure flow w :
  500 ∈ codes → answers codes flow →
  statusCode (respond failure flow w).1 ∈ codes
  ∧ headers (respond failure flow w).1 = default_headers.
Proof.
  intros H500 Hflow. unfold respond. specialize (Hflow w).
  destruct (flow w) as [[r|e] w']; [by apply (Hflow r w')|done].
Qed.

(** X12.  The status code of every response is one of the codes of its
    handler, and every response carries the default headers.  No handler
    answers 429; only the delete handler answers 401; the download
    handler never answers 400. *)
Theorem handler_statuses i w :
  statusCode (handler_of i w).1 ∈ statuses i
  ∧ headers (handler_of i w).1 = default_headers
  ∧ statusCode (handler_of i w).1 ≠ 429.
Proof.
  assert (statusCode (handler_of i w).1 ∈ statuses i
          ∧ headers (handler_of i w).1 = default_headers) as [Hcode Hheaders].
  { rewrite handler_of_respond.
    apply answers_respond; [destruct i; set_solver|].
    destruct i; cbn [flow_of statuses].
    - unfold upload_presigned_url.flow. repeat answers_step.
    - unfold complete_upload.flow. repeat answers_step.
    - unfold get_image_presigned_url.flow. repeat answers_step.
    - unfold delete_image.flow. repeat answers_step.
    - unfold list_images.flow, list_images.list_page. repeat answers_step. }
  split; [done|]. split; [done|].
  intros H429. rewrite H429 in Hcode.
  destruct i; cbn [statuses] in Hcode;
    repeat (apply elem_of_cons in Hcode as [Hcode|Hcode]; [discriminate|]);
    by apply elem_of_nil in Hcode.
Qed.

(** ** The service calls, case by case *)

Lemma call_spec op w :
  call op w = (match outage w op with
               | Some fault => Raise (refusal op fault)
               | None => Ok tt
               end, w).
Proof. unfold call. by destruct (outage w op) as [[code message]|]. Qed.

Lemma check_object_exists_spec key w :
  S3Service.check_object_exists key w
  = (match outage w HeadObject with
     | Some fault =>
         if String.eqb fault.1 "404" then Ok false else Raise (refusal HeadObject fault)
     | None => Ok (bool_decide (is_Some (bucket w !! key)))
     end, w).
Proof.
  unfold S3Service.check_object_exists, head_object. unfold_M.
  destruct (outage w HeadObject) as [[code message]|]; cbn.
  - by destruct (String.eqb code "404").
  - by destruct (bucket w !! key).
Qed.

Lemma get_object_metadata_spec key w :
  S3Service.get_object_metadata key w
  = (match outage w HeadObject with
     | Some fault =>
         if String.eqb fault.1 "404" then Ok None else Raise (refusal HeadObject fault)
     | None => Ok (bucket w !! key)
     end, w).
Proof.
  unfold S3Service.get_object_metadata, head_object. unfold_M.
  destruct (outage w HeadObject) as [[code message]|]; cbn.
  - by destruct (String.eqb code "404").
  - by destruct (bucket w !! key).
Qed.

Lemma get_item_cases image_id w :
  image_id ≠ EmptyString →
  DynamoDBService.get_item image_id w
  = (match outage w GetItem with
     | Some fault => Raise (refusal GetItem fault)
     | None =>
         match table w !! image_id with
         | Some item => Some <$> ImageMetadata.new (DynamoDBService.args_of (image_id, item))
         | None => Ok None
         end
     end, w).
Proof.
  intros Hid. apply truthy_str_true in Hid.
  unfold DynamoDBService.get_item, get_item. unfold_M.
  destruct (outage w GetItem) as [[code message]|]; [done|]. rewrite Hid.
  by destruct (table w !! image_id).
Qed.

Lemma delete_item_cases image_id w :
  image_id ≠ EmptyString →
  DynamoDBService.delete_item image_id w
  = match outage w DeleteItem with
    | Some fault => (Raise (refusal DeleteItem fault), w)
    | None => (Ok true, with_table (delete image_id) w)
    end.
Proof.
  intros Hid. apply truthy_str_true in Hid.
  unfold DynamoDBService.delete_item, delete_item. unfold_M.
  destruct (outage w DeleteItem) as [[code message]|]; [done|]. by rewrite Hid.
Qed.

Lemma delete_object_cases key w :
  S3Service.delete_object key w
  = match outage w DeleteObject with
    | Some fault => (Raise (refusal DeleteObject fault), w)
    | None => (Ok true, with_bucket (delete key) w)
    end.
Proof.
  unfold S3Service.delete_object, delete_object. unfold_M.
  by destruct (outage w DeleteObject) as [[code message]|].
Qed.

Lemma put_item_cases now m w :
  DynamoDBService.put_item now m w
  = match outage w PutItem with
    | Some fault => (Raise (refusal PutItem fault), w)
    | None =>
        if truthy_str (ImageMetadata.image_id m) && truthy_str (ImageMetadata.user_id m)
           && truthy_str (ImageMetadata.upload_timestamp m)
        then (Ok true,
              with_table (insert (ImageMetadata.image_id m) (DynamoDBService.item_of m now)) w)
        else (Raise (ValidationException PutItem empty_key), w)
    end.
Proof.
  unfold DynamoDBService.put_item, put_item. unfold_M.
  destruct (outage w PutItem) as [[code message]|]; [done|].
  cbn [DynamoDBService.item_of Item.user_id Item.upload_timestamp valid_key_attribute].
  destruct (truthy_str (ImageMetadata.image_id m)); [|done].
  destruct (ImageMetadata.user_id m); [done|].
  by destruct (ImageMetadata.upload_timestamp m).
Qed.

Lemma generate_presigned_get_cases key expires filename w :
  S3Service.generate_presigned_get key expires filename w
  = (match outage w GeneratePresignedUrl with
     | Some fault => Raise (refusal GeneratePresignedUrl fault)
     | None => (S3Service.generate_presigned_get key expires filename
                  {| table := ∅; bucket := ∅; outage := fun _ => None |}).1
     end, w).
Proof.
  unfold S3Service.generate_presigned_get, generate_presigned_url. unfold_M. cbn.
  by destruct (outage w GeneratePresignedUrl) as [[code message]|].
Qed.

(** ** The download flow *)

Lemma download_flow_cases image_id w :
  image_id ≠ EmptyString →
  get_image_presigned_url.flow (Some image_id) w
  = (metadata ← DynamoDBService.get_item image_id;
     match metadata with
     | None => mret (not_found_response ("Image not found: " +:+ image_id))
     | Some metadata =>
         found ← S3Service.check_object_exists (ImageMetadata.s3_key metadata);
         if negb found then mret (not_found_response "Image file not found in storage")
         else
           presigned_url ← S3Service.generate_presigned_get
             (ImageMetadata.s3_key metadata)
             (Some Config.S3_PRESIGNED_URL_EXPIRY_DOWNLOAD)
             (Some (ImageMetadata.filename metadata));
           mret (success_response
                   (PresignedDownloadUrlResponse image_id presigned_url
                      Config.S3_PRESIGNED_URL_EXPIRY_DOWNLOAD
                      (ImageMetadata.filename metadata)
                      (ImageMetadata.content_type metadata)) 200)
     end) w.
Proof.
  intros Hid. apply truthy_str_true in Hid.
  unfold get_image_presigned_url.flow. by rewrite Hid.
Qed.

Lemma download_absent image_id w :
  image_id ≠ EmptyString →
  outage w GetItem = None →
  table w !! image_id = None →
  get_image_presigned_url.handler (Some image_id) w
  = (not_found_response ("Image not found: " +:+ image_id), w).
Proof.
  intros Hid Hget Habsent. unfold get_image_presigned_url.handler, respond.
  rewrite (download_flow_cases _ _ Hid).
  by rewrite (bind_ok _ _ _ _ _ (get_item_absent w image_id Hid Hget Habsent)).
Qed.

Lemma download_unreadable image_id item e w :
  image_id ≠ EmptyString →
  outage w GetItem = None →
  table w !! image_id = Some item →
  ImageMetadata.new (DynamoDBService.args_of (image_id, item)) = Raise e →
  get_image_presigned_url.handler (Some image_id) w
  = (internal_error_response ("Failed to generate download URL: " +:+ str_exn e), w).
Proof.
  intros Hid Hget Hitem Hnew. unfold get_image_presigned_url.handler, respond.
  rewrite (download_flow_cases _ _ Hid).
  assert (DynamoDBService.get_item image_id w = (Raise e, w)) as H.
  { by rewrite get_item_cases, Hget, Hitem, Hnew. }
  by rewrite (bind_raise _ _ _ _ _ H).
Qed.

Lemma download_dangling image_id item metadata w :
  image_id ≠ EmptyString →
  outage w GetItem = None →
  outage w HeadObject = None →
  table w !! image_id = Some item →
  ImageMetadata.new (DynamoDBService.args_of (image_id, item)) = Ok metadata →
  bucket w !! ImageMetadata.s3_key metadata = None →
  get_image_presigned_url.handler (Some image_id) w
  = (not_found_response "Image file not found in storage", w).
Proof.
  intros Hid Hget Hhead Hitem Hnew Habsent.
  unfold get_image_presigned_url.handler, respond.
  rewrite (download_flow_cases _ _ Hid).
  rewrite (bind_ok _ _ _ _ _ (get_item_found w image_id item metadata Hid Hget Hitem Hnew)).
  by rewrite (bind_ok _ _ _ _ _ (check_object_exists_absent w _ Hhead Habsent)).
Qed.

Lemma download_present image_id item metadata w :
  image_id ≠ EmptyString →
  outage w GetItem = None →
  outage w HeadObject = None →
  outage w GeneratePresignedUrl = None →
  table w !! image_id = Some item →
  ImageMetadata.new (DynamoDBService.args_of (image_id, item)) = Ok metadata →
  is_Some (bucket w !! ImageMetadata.s3_key metadata) →
  ∃ url,
    S3Service.generate_presigned_get (ImageMetadata.s3_key metadata) (Some 900)
      (Some (ImageMetadata.filename metadata)) w = (Ok url, w)
    ∧ get_image_presigned_url.handler (Some image_id) w
      = (success_response
           (PresignedDownloadUrlResponse image_id url 900
              (ImageMetadata.filename metadata)
              (ImageMetadata.content_type metadata)) 200, w).
Proof.
  intros Hid Hget Hhead Hsign Hitem Hnew [obj Hobj].
  unfold get_image_presigned_url.handler, respond.
  rewrite (download_flow_cases _ _ Hid).
  rewrite (bind_ok _ _ _ _ _ (get_item_found w image_id item metadata Hid Hget Hitem Hnew)).
  rewrite (bind_ok _ _ _ _ _ (check_object_exists_present w _ obj Hhead Hobj)).
  cbn [negb].
  pose proof (generate_presigned_get_cases (ImageMetadata.s3_key metadata) (Some 900)
                (Some (ImageMetadata.filename metadata)) w) as Hurl.
  rewrite Hsign in Hurl. eexists. split; [exact Hurl|].
  change Config.S3_PRESIGNED_URL_EXPIRY_DOWNLOAD with 900.
  by rewrite (bind_ok _ _ _ _ _ Hurl).
Qed.

(** X13.  The answers of the download handler.  Without an [image_id] the
    handler answers 500, since the response it means to return is a name
    the module does not import.  With one, and the services answering:
    404 when the table has no record, 500 when the record cannot be read,
    404 when the record is there and its object is not, and otherwise 200
    with the URL [generate_presigned_get] signs for the key and the file
    name of the record, valid for 900 seconds. *)
Theorem download_url_answers image_id w :
  (truthy image_id = false →
   get_image_presigned_url.handler image_id w
   = (internal_error_response
        "Failed to generate download URL: name 'validation_error_response' is not defined", w))
  ∧ (∀ id,
       image_id = Some id → id ≠ EmptyString →
       outage w GetItem = None →
       outage w HeadObject = None →
       outage w GeneratePresignedUrl = None →
       (table w !! id = None →
        get_image_presigned_url.handler image_id w
        = (not_found_response ("Image not found: " +:+ id), w))
       ∧ (∀ item e,
            table w !! id = Some item →
            ImageMetadata.new (DynamoDBService.args_of (id, item)) = Raise e →
            get_image_presigned_url.handler image_id w
            = (internal_error_response ("Failed to generate download URL: " +:+ str_exn e), w))
       ∧ (∀ item metadata,
            table w !! id = Some item →
            ImageMetadata.new (DynamoDBService.args_of (id, item)) = Ok metadata →
            (bucket w !! ImageMetadata.s3_key metadata = None →
             get_image_presigned_url.handler image_id w
             = (not_found_response "Image file not found in storage", w))
            ∧ (is_Some (bucket w !! ImageMetadata.s3_key metadata) →
               ∃ url,
                 S3Service.generate_presigned_get (ImageMetadata.s3_key metadata) (Some 900)
                   (Some (ImageMetadata.filename metadata)) w = (Ok url, w)
                 ∧ get_image_presigned_url.handler image_id w
                   = (success_response
                        (PresignedDownloadUrlResponse id url 900
                           (ImageMetadata.filename metadata)
                           (ImageMetadata.content_type metadata)) 200, w)))).
Proof.
  split.
  - by destruct image_id as [[|c s]|].
  - intros id -> Hid Hget Hhead Hsign. split; [|split].
    + by apply download_absent.
    + intros item e. by apply download_unreadable.
    + intros item metadata Hitem Hnew. split.
      * by apply (download_dangling _ item).
      * by apply (download_present _ item).
Qed.

Lemma download_url_answers_witness :
  ∃ url,
    get_image_presigned_url.handler (Some "img-1") stocked
    = (success_response
         (PresignedDownloadUrlResponse "img-1" url 900 "photo.jpg" "image/jpeg") 200, stocked).
Proof.
  destruct (proj2 (download_url_answers (Some "img-1") stocked) "img-1") as (_ & _ & Hfound);
    [reflexivity|discriminate|reflexivity..|].
  destruct (Hfound (sample_record "owner" "2026-02-13T10:00:00") sample_metadata) as [_ Hurl];
    [reflexivity..|].
  destruct Hurl as (url & _ & Hanswer); [by eexists|]. by exists url.
Defined.

(** ** The delete flow *)

Lemma delete_flow_cases image_id caller w :
  image_id ≠ EmptyString → caller ≠ EmptyString →
  delete_image.flow (delete_request image_id caller) w
  = (metadata ← DynamoDBService.get_item image_id;
     match metadata with
     | None => mret (not_found_response ("Image not found: " +:+ image_id))
     | Some metadata =>
         if negb (String.eqb (ImageMetadata.user_id metadata) caller) then
           mret (unauthorized_response "You don't have permission to delete this image")
         else
           _ ← try_except (S3Service.delete_object (ImageMetadata.s3_key metadata))
                 (fun _ => mret false);
           _ ← DynamoDBService.delete_item image_id;
           mret (success_response
                   (DeleteImageResponse image_id "deleted" "Image deleted successfully") 200)
     end) w.
Proof.
  intros Hid Hcaller. apply truthy_str_true in Hid, Hcaller.
  unfold delete_image.flow, delete_request. cbn [delete_image.path_image_id delete_image.body].
  rewrite Hid. cbn [negb]. rewrite bind_lift_ok. cbn [delete_image.get_user_id lookup_member].
  cbn [String.eqb Ascii.eqb Bool.eqb]. rewrite bind_lift_ok.
  cbn [delete_image.truthy_member Json.truthy_value]. rewrite Hcaller. reflexivity.
Qed.

(** What the owner's request does when the record is there. *)
Lemma delete_flow_owner image_id item metadata w :
  image_id ≠ EmptyString →
  ImageMetadata.user_id metadata ≠ EmptyString →
  outage w GetItem = None →
  table w !! image_id = Some item →
  ImageMetadata.new (DynamoDBService.args_of (image_id, item)) = Ok metadata →
  delete_image.flow (delete_request image_id (ImageMetadata.user_id metadata)) w
  = (let w1 := match outage w DeleteObject with
               | Some _ => w
               | None => with_bucket (delete (ImageMetadata.s3_key metadata)) w
               end in
     match outage w DeleteItem with
     | Some fault => (Raise (refusal DeleteItem fault), w1)
     | None =>
         (Ok (success_response
                (DeleteImageResponse image_id "deleted" "Image deleted successfully") 200),
          with_table (delete image_id) w1)
     end).
Proof.
  intros Hid Hu Hget Hitem Hnew. rewrite delete_flow_cases by done.
  rewrite (bind_ok _ _ _ _ _ (get_item_found w image_id item metadata Hid Hget Hitem Hnew)).
  rewrite String.eqb_refl. cbn [negb].
  unfold mbind at 1, M_bind, try_except. rewrite delete_object_cases.
  destruct (outage w DeleteObject) as [fault|] eqn:Hobj; cbv zeta;
    unfold mret at 1, M_ret;
    unfold mbind, M_bind; rewrite delete_item_cases by done; cbn [outage with_bucket];
    by destruct (outage w DeleteItem).
Qed.

(** ** The complete flow *)

Lemma complete_flow_cases utcnow body request w :
  CompleteUploadRequest.new body = Ok request →
  complete_upload.flow utcnow (Ok body) w
  = match outage w HeadObject with
    | Some fault =>
        if String.eqb fault.1 "404" then (Ok not_uploaded, w)
        else (Raise (refusal HeadObject fault), w)
    | None =>
        match bucket w !! object_key (CompleteUploadRequest.user_id request)
                            (CompleteUploadRequest.image_id request)
                            (CompleteUploadRequest.filename request) with
        | None => (Ok not_uploaded, w)
        | Some obj =>
            match ImageMetadata.new (completion_args request (utcnow 0%nat) obj) with
            | Raise e => (Raise e, w)
            | Ok metadata =>
                match DynamoDBService.put_item (utcnow 1%nat) metadata w with
                | (Ok _, w') => (Ok (completed (CompleteUploadRequest.image_id request)), w')
                | (Raise e, w') => (Raise e, w')
                end
            end
        end
    end.
Proof.
  intros Hreq. rewrite (complete_flow_request _ _ _ _ Hreq). cbv zeta.
  unfold mbind at 1, M_bind. rewrite check_object_exists_spec.
  destruct (outage w HeadObject) as [fault|] eqn:Hhead.
  - by destruct (String.eqb fault.1 "404").
  - destruct (bucket w !! _) as [obj|] eqn:Hobj; [|done].
    rewrite bool_decide_eq_true_2 by eauto. cbn [negb].
    unfold mbind at 1, M_bind. rewrite get_object_metadata_spec, Hhead, Hobj.
    fold (completion_args request (utcnow 0%nat) obj).
    destruct (ImageMetadata.new _) as [metadata|e]; [|done].
    rewrite bind_lift_ok. unfold mbind, M_bind.
    by destruct (DynamoDBService.put_item _ _ _) as [[?|?] ?].
Qed.

(** X14.  Once they pass validation, the [content_type] and the [file_size]
    of a complete-upload request have no effect: two requests that differ
    only there get the same response and leave the same state. *)
Theorem complete_ignores_declared utcnow body1 body2 request content_type file_size w :
  CompleteUploadRequest.new body1 = Ok request →
  CompleteUploadRequest.new body2
  = Ok (CompleteUploadRequest.mk (CompleteUploadRequest.image_id request)
          (CompleteUploadRequest.user_id request) (CompleteUploadRequest.filename request)
          content_type file_size
          (CompleteUploadRequest.tags request) (CompleteUploadRequest.description request)) →
  complete_upload.handler utcnow (Ok body1) w = complete_upload.handler utcnow (Ok body2) w.
Proof.
  intros H1 H2. unfold complete_upload.handler, respond.
  by rewrite (complete_flow_cases _ _ _ _ H1), (complete_flow_cases _ _ _ _ H2).
Qed.

Lemma complete_ignores_declared_witness :
  complete_upload.handler sample_clock (Ok (sample_complete "photo.jpg"))
    (with_bucket (insert "images/user123/img-1_photo.jpg" sample_object) idle)
  = complete_upload.handler sample_clock
      (Ok (Body.mk (Some "img-1") (Some "user123") (Some "photo.jpg") (Some "image/gif")
             (Some 7) None None))
      (with_bucket (insert "images/user123/img-1_photo.jpg" sample_object) idle).
Proof.
  apply (complete_ignores_declared sample_clock _ _
           (CompleteUploadRequest.mk "img-1" "user123" "photo.jpg" "image/jpeg" 1024 None None)
           "image/gif" 7); reflexivity.
Defined.

Lemma complete_flow_invalid utcnow body w :
  (∀ request, CompleteUploadRequest.new body ≠ Ok request) →
  (complete_upload.handler utcnow (Ok body) w).2 = w
  ∧ statusCode (complete_upload.handler utcnow (Ok body) w).1 ≠ 200.
Proof.
  intros H. unfold complete_upload.handler, respond, complete_upload.flow.
  rewrite bind_lift_ok.
  destruct (CompleteUploadRequest.new body) as [request|[]]; [by destruct (H request)|done..].
Qed.

(** X15.  The complete-upload handler never changes the bucket, changes
    nothing at all unless it answers 200, and changes the table at most
    under the [image_id] of the request. *)
Theorem complete_upload_frame utcnow body w :
  bucket (complete_upload.handler utcnow body w).2 = bucket w
  ∧ (statusCode (complete_upload.handler utcnow body w).1 ≠ 200 →
     (complete_upload.handler utcnow body w).2 = w)
  ∧ (∀ b request other,
       body = Ok b → CompleteUploadRequest.new b = Ok request →
       other ≠ CompleteUploadRequest.image_id request →
       table (complete_upload.handler utcnow body w).2 !! other = table w !! other).
Proof.
  destruct body as [b|e]; [|by repeat split].
  destruct (CompleteUploadRequest.new b) as [request|e] eqn:Hreq.
  - unfold complete_upload.handler, respond.
    rewrite (complete_flow_cases _ _ _ _ Hreq).
    destruct (outage w HeadObject) as [fault|];
      [by destruct (String.eqb fault.1 "404"); repeat split|].
    destruct (bucket w !! _) as [obj|]; [|by repeat split].
    destruct (ImageMetadata.new _) as [metadata|e] eqn:Hnew; [|by repeat split].
    rewrite put_item_cases.
    destruct (outage w PutItem) as [fault|]; [by repeat split|].
    apply metadata_new_inv in Hnew as (_ & [= Hid] & _).
    destruct (_ && _); [|by repeat split].
    cbn [fst snd]. split; [done|]. split; [done|].
    intros b' request' other [= <-] Hreq' Hother.
    rewrite Hreq in Hreq'. injection Hreq' as <-.
    cbn [table with_table]. rewrite <- Hid. by rewrite lookup_insert_ne.
  - destruct (complete_flow_invalid utcnow b w) as [Hw Hcode]; [by rewrite Hreq|].
    rewrite Hw. split; [done|]. split; [done|].
    intros b' request' other [= <-] Hreq'. by rewrite Hreq in Hreq'.
Qed.

Lemma complete_upload_frame_witness :
  let w := with_bucket (insert "images/user123/img-1_photo.jpg" sample_object) stocked in
  let out := complete_upload.handler sample_clock (Ok (sample_complete "photo.jpg")) w in
  statusCode out.1 = 200
  ∧ bucket out.2 = bucket w
  ∧ table out.2 !! "img-1" ≠ table w !! "img-1"
  ∧ table out.2 !! "img-2" = table w !! "img-2".
Proof.
  intros w out.
  destruct (complete_upload_frame sample_clock (Ok (sample_complete "photo.jpg")) w)
    as (Hbucket & _ & Hother).
  split; [reflexivity|]. split; [exact Hbucket|]. split.
  - vm_compute. discriminate.
  - apply (Hother (sample_complete "photo.jpg")
             (CompleteUploadRequest.mk "img-1" "user123" "photo.jpg" "image/jpeg" 1024
                None None)); [reflexivity..|discriminate].
Defined.

(** ** Deleting *)

(** X16.  Deleting an image the table does not hold is answered 404 and
    changes nothing; so a deletion that succeeded is answered 404 when it
    is asked for again. *)
Theorem delete_absent_or_repeated image_id w :
  image_id ≠ EmptyString →
  outage w GetItem = None →
  (∀ caller, caller ≠ EmptyString → table w !! image_id = None →
     delete_image.handler (delete_request image_id caller) w
     = (not_found_response ("Image not found: " +:+ image_id), w))
  ∧ (∀ item metadata,
       table w !! image_id = Some item →
       ImageMetadata.new (DynamoDBService.args_of (image_id, item)) = Ok metadata →
       ImageMetadata.user_id metadata ≠ EmptyString →
       outage w DeleteItem = None →
       let request := delete_request image_id (ImageMetadata.user_id metadata) in
       statusCode (delete_image.handler request w).1 = 200
       ∧ delete_image.handler request (delete_image.handler request w).2
         = (not_found_response ("Image not found: " +:+ image_id),
            (delete_image.handler request w).2)).
Proof.
  intros Hid Hget.
  assert (∀ caller w, caller ≠ EmptyString → outage w GetItem = None →
            table w !! image_id = None →
            delete_image.handler (delete_request image_id caller) w
            = (not_found_response ("Image not found: " +:+ image_id), w)) as Habsent.
  { intros caller w0 Hcaller Hget0 Hnone. unfold delete_image.handler, respond.
    rewrite delete_flow_cases by done.
    by rewrite (bind_ok _ _ _ _ _ (get_item_absent w0 image_id Hid Hget0 Hnone)). }
  split; [intros; by apply Habsent|].
  intros item metadata Hitem Hnew Hu Hdel request.
  unfold request, delete_image.handler at 1 3 4, respond.
  rewrite (delete_flow_owner _ item) by done. cbv zeta. rewrite Hdel. cbn [fst snd].
  split; [done|].
  apply Habsent; [done| |].
  - by destruct (outage w DeleteObject).
  - destruct (outage w DeleteObject); cbn; apply lookup_delete_eq.
Qed.

Lemma delete_absent_or_repeated_witness :
  delete_image.handler (delete_request "img-2" "owner") stocked
  = (not_found_response "Image not found: img-2", stocked)
  ∧ delete_image.handler (delete_request "img-1" "owner")
      (delete_image.handler (delete_request "img-1" "owner") stocked).2
    = (not_found_response "Image not found: img-1",
       (delete_image.handler (delete_request "img-1" "owner") stocked).2).
Proof.
  split.
  - apply (proj1 (delete_absent_or_repeated "img-2" stocked ltac:(discriminate) eq_refl));
      [discriminate|reflexivity].
  - apply (proj2 (delete_absent_or_repeated "img-1" stocked ltac:(discriminate) eq_refl)
             (sample_record "owner" "2026-02-13T10:00:00") sample_metadata);
      [reflexivity|reflexivity|discriminate|reflexivity].
Defined.

(** X17.  Deletion is not atomic.  When the object store deletes the
    object and the table then refuses the deletion, the handler answers
    500, the record stays and the object is gone; the download of that
    image is answered 404 from then on. *)
Theorem delete_not_atomic image_id item metadata fault w :
  image_id ≠ EmptyString →
  ImageMetadata.user_id metadata ≠ EmptyString →
  outage w GetItem = None →
  outage w HeadObject = None →
  outage w DeleteObject = None →
  outage w DeleteItem = Some fault →
  table w !! image_id = Some item →
  ImageMetadata.new (DynamoDBService.args_of (image_id, item)) = Ok metadata →
  let out := delete_image.handler (delete_request image_id (ImageMetadata.user_id metadata)) w in
  out.1 = internal_error_response
            ("Failed to delete image: " +:+ str_exn (refusal DeleteItem fault))
  ∧ table out.2 = table w
  ∧ bucket out.2 = delete (ImageMetadata.s3_key metadata) (bucket w)
  ∧ get_image_presigned_url.handler (Some image_id) out.2
    = (not_found_response "Image file not found in storage", out.2).
Proof.
  intros Hid Hu Hget Hhead Hobj Hdel Hitem Hnew out.
  unfold out, delete_image.handler, respond.
  rewrite (delete_flow_owner _ item) by done. cbv zeta. rewrite Hobj, Hdel. cbn [fst snd].
  split; [done|]. split; [done|]. split; [done|].
  apply (download_dangling _ item metadata); try done.
  cbn. apply lookup_delete_eq.
Qed.

Lemma delete_not_atomic_witness :
  let out := delete_image.handler (delete_request "img-1" "owner") stuck_table in
  statusCode out.1 = 500
  ∧ table out.2 = table stuck_table
  ∧ bucket out.2 !! "images/owner/img-1_photo.jpg" = None
  ∧ get_image_presigned_url.handler (Some "img-1") out.2
    = (not_found_response "Image file not found in storage", out.2).
Proof.
  pose proof (delete_not_atomic "img-1" (sample_record "owner" "2026-02-13T10:00:00")
                sample_metadata
                ("ProvisionedThroughputExceededException", "Throughput exceeded")
                stuck_table) as H.
  cbv zeta in H. change (ImageMetadata.user_id sample_metadata) with "owner" in H.
  destruct H as (Hanswer & Htable & Hbucket & Hdownload);
    [discriminate|discriminate|reflexivity..|].
  cbv zeta. rewrite Hanswer, Htable, Hbucket.
  split; [reflexivity|]. split; [reflexivity|].
  split; [apply lookup_delete_eq|exact Hdownload].
Defined.

(** ** From completion to deletion *)

Lemma complete_success utcnow body request obj content_type file_size w :
  CompleteUploadRequest.new body = Ok request →
  utcnow 0%nat ≠ EmptyString →
  outage w HeadObject = None →
  outage w PutItem = None →
  bucket w !! object_key (CompleteUploadRequest.user_id request)
                (CompleteUploadRequest.image_id request)
                (CompleteUploadRequest.filename request) = Some obj →
  S3Object.ContentType obj = Some content_type →
  content_type ∈ Validators.allowed_types →
  S3Object.ContentLength obj = Some file_size →
  0 < file_size →
  complete_upload.handler utcnow (Ok body) w
  = (completed (CompleteUploadRequest.image_id request),
     with_table (insert (CompleteUploadRequest.image_id request)
                   (DynamoDBService.item_of
                      (stored request (utcnow 0%nat) content_type file_size)
                      (utcnow 1%nat))) w).
Proof.
  intros Hreq Hnow Hhead Hput Hobj Hct Hin Hsize Hpos.
  destruct (complete_request_fields _ _ Hreq) as [Hid Huser].
  unfold complete_upload.handler, respond.
  rewrite (complete_flow_cases _ _ _ _ Hreq), Hhead, Hobj.
  unfold completion_args. rewrite Hct, Hsize.
  rewrite (metadata_new_ok _ _ _ _ _ _ _ _ COMPLETED _ Hin Hpos).
  fold (stored request (utcnow 0%nat) content_type file_size).
  by rewrite (put_item_ok (utcnow 1%nat)
                (stored request (utcnow 0%nat) content_type file_size) w Hid Huser Hnow Hput).
Qed.

(** X18.  From completion to deletion.  After a completed upload the
    download handler answers 200 with the file name of the request and
    the content type the store reported; the owner's deletion then
    answers 200, removes the record and the object, and the next download
    is answered 404. *)
Theorem upload_lifecycle utcnow body request obj content_type file_size w :
  CompleteUploadRequest.new body = Ok request →
  utcnow 0%nat ≠ EmptyString →
  (∀ op, outage w op = None) →
  let image_id := CompleteUploadRequest.image_id request in
  let key := object_key (CompleteUploadRequest.user_id request) image_id
               (CompleteUploadRequest.filename request) in
  bucket w !! key = Some obj →
  S3Object.ContentType obj = Some content_type →
  content_type ∈ Validators.allowed_types →
  S3Object.ContentLength obj = Some file_size →
  0 < file_size →
  let w1 := (complete_upload.handler utcnow (Ok body) w).2 in
  let deletion :=
    delete_image.handler (delete_request image_id (CompleteUploadRequest.user_id request)) w1 in
  (∃ url,
     S3Service.generate_presigned_get key (Some 900)
       (Some (CompleteUploadRequest.filename request)) w1 = (Ok url, w1)
     ∧ get_image_presigned_url.handler (Some image_id) w1
       = (success_response
            (PresignedDownloadUrlResponse image_id url 900
               (CompleteUploadRequest.filename request) content_type) 200, w1))
  ∧ deletion.1
    = success_response
        (DeleteImageResponse image_id "deleted" "Image deleted successfully") 200
  ∧ table deletion.2 = delete image_id (table w1)
  ∧ bucket deletion.2 = delete key (bucket w)
  ∧ get_image_presigned_url.handler (Some image_id) deletion.2
    = (not_found_response ("Image not found: " +:+ image_id), deletion.2).
Proof.
  intros Hreq Hnow Hup image_id key Hobj Hct Hin Hsize Hpos w1 deletion.
  destruct (complete_request_fields _ _ Hreq) as [Hid Huser].
  set (metadata := stored request (utcnow 0%nat) content_type file_size).
  assert (w1 = with_table (insert image_id (DynamoDBService.item_of metadata (utcnow 1%nat))) w)
    as Hw1.
  { unfold w1. by rewrite (complete_success _ _ _ _ _ _ _ Hreq Hnow (Hup _) (Hup _) Hobj Hct Hin
                             Hsize Hpos). }
  assert (table w1 !! image_id = Some (DynamoDBService.item_of metadata (utcnow 1%nat)))
    as Hitem.
  { rewrite Hw1. cbn. apply lookup_insert_eq. }
  assert (ImageMetadata.new
            (DynamoDBService.args_of (image_id, DynamoDBService.item_of metadata (utcnow 1%nat)))
          = Ok metadata) as Hnew.
  { by apply metadata_new_ok. }
  assert (∀ op, outage w1 op = None) as Hup1.
  { intros op. rewrite Hw1. apply Hup. }
  assert (bucket w1 = bucket w) as Hbucket by by rewrite Hw1.
  split.
  { apply (download_present image_id _ metadata w1 Hid (Hup1 _) (Hup1 _) (Hup1 _) Hitem Hnew).
    rewrite Hbucket. change (ImageMetadata.s3_key metadata) with key. by rewrite Hobj. }
  assert (deletion
          = (success_response
               (DeleteImageResponse image_id "deleted" "Image deleted successfully") 200,
             with_table (delete image_id) (with_bucket (delete key) w1))) as Hdel.
  { pose proof (delete_flow_owner image_id _ metadata w1 Hid Huser (Hup1 _) Hitem Hnew) as H.
    change (ImageMetadata.user_id metadata) with (CompleteUploadRequest.user_id request) in H.
    change (ImageMetadata.s3_key metadata) with key in H.
    cbv zeta in H. rewrite !Hup1 in H.
    unfold deletion, delete_image.handler, respond. by rewrite H. }
  rewrite Hdel. cbn [fst snd]. split; [done|]. split; [done|].
  split; [cbn; by rewrite Hbucket|].
  apply download_absent; [done|apply Hup1|]. cbn. apply lookup_delete_eq.
Qed.

Lemma upload_lifecycle_witness :
  let w := with_bucket (insert "images/user123/img-1_photo.jpg" sample_object) idle in
  let w1 := (complete_upload.handler sample_clock (Ok (sample_complete "photo.jpg")) w).2 in
  let deletion := delete_image.handler (delete_request "img-1" "user123") w1 in
  statusCode (get_image_presigned_url.handler (Some "img-1") w1).1 = 200
  ∧ statusCode deletion.1 = 200
  ∧ get_image_presigned_url.handler (Some "img-1") deletion.2
    = (not_found_response "Image not found: img-1", deletion.2).
Proof.
  intros w w1 deletion.
  assert ("image/jpeg" ∈ Validators.allowed_types) as Hin
    by (apply (bool_decide_eq_true_1 _); reflexivity).
  pose proof (upload_lifecycle sample_clock (sample_complete "photo.jpg")
                (CompleteUploadRequest.mk "img-1" "user123" "photo.jpg" "image/jpeg" 1024
                   None None)
                sample_object "image/jpeg" 1024 w eq_refl ltac:(discriminate)
                (fun _ => eq_refl) eq_refl eq_refl Hin eq_refl ltac:(lia)) as H.
  cbv zeta in H.
  cbn [CompleteUploadRequest.image_id CompleteUploadRequest.user_id
       CompleteUploadRequest.filename] in H.
  fold w1 in H. fold deletion in H.
  destruct H as ((url & _ & Hdownload) & Hdeleted & _ & _ & Hgone).
  split; [by rewrite Hdownload|]. split; [by rewrite Hdeleted|]. exact Hgone.
Defined.

(** ** The issue flow *)

(** X19.  For a valid request and a signer that answers, the issue-upload
    handler answers 200 with a policy for the reported key: the key is
    [images/{user_id}/{image_id}_] followed by a name of safe characters,
    the content type is on the white list, and the only size admitted is
    the declared one, between 1 and [MAX_FILE_SIZE]. *)
Theorem upload_url_issued uuid4 body request w :
  UploadPresignedUrlRequest.new body = Ok request →
  outage w GeneratePresignedPost = None →
  upload_presigned_url.handler uuid4 (Ok body) w
  = (success_response
       (PresignedUrlResponse uuid4 (policy_of request uuid4) 3600
          (post_key (policy_of request uuid4))) 200, w)
  ∧ post_content_type (policy_of request uuid4) ∈ Validators.allowed_types
  ∧ (∃ size, post_length_range (policy_of request uuid4) = (size, size)
             ∧ 1 <= size <= MAX_FILE_SIZE)
  ∧ ∃ name, post_key (policy_of request uuid4)
            = "images/" +:+ UploadPresignedUrlRequest.user_id request +:+ "/" +:+ uuid4
                +:+ "_" +:+ name
            ∧ all_chars Validators.safe_char name = true.
Proof.
  intros Hreq Hsign. split; [|split; [|split]].
  - unfold upload_presigned_url.handler, respond, upload_presigned_url.flow.
    rewrite bind_lift_ok, Hreq.
    unfold S3Service.generate_presigned_post, generate_presigned_post. unfold_M.
    by rewrite Hsign.
  - apply upload_request_inv in Hreq as (Herr & _ & _ & Hc & _).
    unfold UploadPresignedUrlRequest.errors in Herr. rewrite Hc in Herr.
    apply app_nil in Herr as [_ Herr]. apply app_nil in Herr as [_ Herr].
    apply app_nil in Herr as [Hct _]. cbn [policy_of post_content_type].
    destruct (decide (UploadPresignedUrlRequest.content_type request
                      ∈ Validators.allowed_types)) as [|Hout]; [done|].
    by apply check_content_type_bad in Hout.
  - apply upload_request_inv in Hreq as (Herr & _ & _ & _ & Hn & _).
    unfold UploadPresignedUrlRequest.errors in Herr. rewrite Hn in Herr.
    apply app_nil in Herr as [_ Herr]. apply app_nil in Herr as [_ Herr].
    apply app_nil in Herr as [_ Herr]. apply app_nil in Herr as [Hsize _].
    apply check_file_size_upload in Hsize. eexists. split; [reflexivity|exact Hsize].
  - eexists. split; [reflexivity|]. apply sanitize_filename_chars.
Qed.

Lemma upload_url_issued_witness :
  (upload_presigned_url.handler "img-1" (Ok (sample_complete "my photo.jpg")) idle).1
  = success_response
      (PresignedUrlResponse "img-1"
         (policy_of (UploadPresignedUrlRequest.mk "user123" "my photo.jpg" "image/jpeg" 1024
                       None None) "img-1") 3600 "images/user123/img-1_my_photo.jpg") 200.
Proof.
  by rewrite (proj1 (upload_url_issued "img-1" (sample_complete "my photo.jpg")
                       (UploadPresignedUrlRequest.mk "user123" "my photo.jpg" "image/jpeg" 1024
                          None None) idle eq_refl eq_refl)).
Defined.

(** ** The [limit] parameter *)

Lemma check_limit_range limit :
  ListImagesRequest.check_limit limit = [] ↔ 1 <= limit <= 100.
Proof.
  unfold ListImagesRequest.check_limit, check_ge, check_le.
  destruct (Z.leb_spec 1 limit); [destruct (Z.leb_spec limit 100)|]; split; try done; lia.
Qed.

Lemma check_limit_loc limit err :
  err ∈ ListImagesRequest.check_limit limit → err.1.1 = "limit".
Proof.
  unfold ListImagesRequest.check_limit, check_ge, check_le.
  destruct (1 <=? limit); [destruct (limit <=? 100)|]; intros H;
    repeat (apply elem_of_cons in H as [->|H]; [done|]); by apply elem_of_nil in H.
Qed.

Lemma list_flow_parsed fromisoformat int q limit w :
  list_images.parse_limit int (list_images.limit q) = Ok limit →
  list_images.flow fromisoformat int q w
  = match ListImagesRequest.errors fromisoformat (request_of q limit) with
    | [] =>
        match list_images.next_token q with
        | Some token =>
            if truthy_str token then
              match list_images.decode token with
              | Ok key => list_images.list_page (request_of q limit) (Some key) w
              | Raise _ => (Ok (validation_error_response "Invalid pagination token" None), w)
              end
            else list_images.list_page (request_of q limit) None w
        | None => list_images.list_page (request_of q limit) None w
        end
    | errors =>
        (Ok (validation_error_response "Invalid request parameters" (Some errors)), w)
    end.
Proof.
  intros Hlimit. unfold list_images.flow. rewrite Hlimit, bind_lift_ok.
  fold (request_of q limit). unfold ListImagesRequest.new.
  destruct (ListImagesRequest.errors fromisoformat (request_of q limit)); [|done].
  cbn [request_of ListImagesRequest.next_token].
  destruct (list_images.next_token q) as [token|]; [|done].
  destruct (truthy_str token); [|done]. by destruct (list_images.decode token).
Qed.

(** X20.  The [limit] parameter.  A text [int] does not accept is answered
    500, since it is read before the request is validated; a number
    outside [1..100] is answered 400 with an error for [limit]; and no
    [limit] means 50. *)
Theorem list_limit fromisoformat int q w :
  (∀ s, list_images.limit q = Some s → int s = None →
     statusCode (list_images.handler fromisoformat int q w).1 = 500
     ∧ (list_images.handler fromisoformat int q w).2 = w)
  ∧ (∀ n, list_images.parse_limit int (list_images.limit q) = Ok n →
       n < 1 ∨ 100 < n →
       ∃ errors err,
         list_images.handler fromisoformat int q w
         = (validation_error_response "Invalid request parameters" (Some errors), w)
         ∧ err ∈ errors ∧ err.1.1 = "limit")
  ∧ (∀ s, list_images.limit q = None → int s = Some 50 →
       list_images.handler fromisoformat int q w
       = list_images.handler fromisoformat int (with_limit (Some s) q) w).
Proof.
  split; [|split].
  - intros s Hs Hint. unfold list_images.handler, respond, list_images.flow.
    rewrite Hs. cbn [list_images.parse_limit]. by rewrite Hint.
  - intros n Hn Hrange. unfold list_images.handler, respond.
    rewrite (list_flow_parsed _ _ _ _ _ Hn).
    unfold ListImagesRequest.errors. cbn [request_of ListImagesRequest.limit].
    destruct (ListImagesRequest.check_limit n) as [|err errs] eqn:Hcheck.
    { apply check_limit_range in Hcheck. lia. }
    set (dates := _ ++ _ ++ err :: errs).
    assert (err ∈ dates) as Hin.
    { unfold dates. rewrite !elem_of_app. right. right. by left. }
    assert (err.1.1 = "limit") as Hloc.
    { apply (check_limit_loc n). rewrite Hcheck. by left. }
    destruct dates as [|d ds] eqn:Hd; [by apply elem_of_nil in Hin|].
    by exists (d :: ds), err.
  - intros s Hnone Hint. unfold list_images.handler, respond.
    rewrite (list_flow_parsed _ _ _ 50 w), (list_flow_parsed _ _ (with_limit _ _) 50 w).
    + reflexivity.
    + cbn. by rewrite Hint.
    + by rewrite Hnone.
Qed.

Lemma list_limit_witness :
  statusCode (list_images.handler (fun _ => true) small_int
                (with_limit (Some "ten") no_filter) gallery).1 = 500
  ∧ statusCode (list_images.handler (fun _ => true) small_int
                  (with_limit (Some "0") no_filter) gallery).1 = 400
  ∧ list_images.handler (fun _ => true) small_int no_filter gallery
    = list_images.handler (fun _ => true) small_int (with_limit (Some "50") no_filter) gallery.
Proof.
  split; [|split].
  - apply (proj1 (list_limit (fun _ => true) small_int (with_limit (Some "ten") no_filter)
                    gallery) "ten"); reflexivity.
  - destruct (proj1 (proj2 (list_limit (fun _ => true) small_int
                              (with_limit (Some "0") no_filter) gallery)) 0)
      as (errors & err & -> & _); [reflexivity|lia|reflexivity].
  - apply (proj2 (proj2 (list_limit (fun _ => true) small_int no_filter gallery)));
      reflexivity.
Defined.

(** ** Tokens that are ignored *)

Lemma fetch_falsy_key request v :
  Json.truthy_value v = false →
  list_images.fetch request (Some v) = list_images.fetch request None.
Proof.
  intros Hv. unfold list_images.fetch, DynamoDBService.query_by_user, DynamoDBService.scan_all,
    DynamoDBService.start_key. by rewrite Hv.
Qed.

Lemma fetch_request_token u s e limit t1 t2 key :
  list_images.fetch (ListImagesRequest.mk u s e limit t1) key
  = list_images.fetch (ListImagesRequest.mk u s e limit t2) key.
Proof. reflexivity. Qed.

Lemma list_page_falsy_key q limit token v :
  Json.truthy_value v = false →
  list_images.list_page (request_of q limit) (Some v)
  = list_images.list_page (request_of (with_next_token token q) limit) None.
Proof.
  intros Hv. unfold list_images.list_page. rewrite (fetch_falsy_key _ _ Hv). reflexivity.
Qed.

(** X21.  A [next_token] that is empty, or that decodes to a falsy
    value (an empty object, an empty list, zero, [null]), is ignored: the
    answer is that of the request without a token. *)
Theorem falsy_token_ignored fromisoformat int q token w :
  list_images.next_token q = Some token →
  token = EmptyString
  ∨ (∃ v, list_images.decode token = Ok v ∧ Json.truthy_value v = false) →
  list_images.handler fromisoformat int q w
  = list_images.handler fromisoformat int (with_next_token None q) w.
Proof.
  intros Htoken Hfalsy. unfold list_images.handler, respond.
  destruct (list_images.parse_limit int (list_images.limit q)) as [limit|e] eqn:Hlimit.
  - rewrite (list_flow_parsed _ _ _ _ _ Hlimit), (list_flow_parsed _ _ (with_next_token _ _) limit)
      by done.
    change (ListImagesRequest.errors fromisoformat (request_of (with_next_token None q) limit))
      with (ListImagesRequest.errors fromisoformat (request_of q limit)).
    destruct (ListImagesRequest.errors fromisoformat (request_of q limit)); [|done].
    rewrite Htoken. cbn [with_next_token list_images.next_token].
    destruct Hfalsy as [->|(v & Hdecode & Hv)]; [done|].
    destruct (truthy_str token); [|done].
    by rewrite Hdecode, (list_page_falsy_key _ _ None _ Hv).
  - unfold list_images.flow. cbn [with_next_token list_images.limit]. by rewrite Hlimit.
Qed.

Lemma falsy_token_ignored_witness :
  list_images.handler (fun _ => true) sample_int (with_token "e30=") gallery
  = list_images.handler (fun _ => true) sample_int (with_next_token None (with_token "e30="))
      gallery.
Proof.
  apply (falsy_token_ignored _ _ _ "e30="); [reflexivity|].
  right. exists (Json.JDict []). split; vm_compute; reflexivity.
Defined.

(** ** The size of a page *)









(** ** The traversals *)

Lemma scan_cases limit start_key start w :
  outage w Scan = None →
  1 <= limit →
  match start_key with
  | Some k => Some <$> scan_start_key k
  | None => Ok None
  end = Ok start →
  scan limit start_key w = (Ok (page limit scan_key (scan_rest start (scan_run (table w)))), w).
Proof.
  intros Hscan Hlimit Hstart. unfold scan. unfold_M. rewrite Hscan.
  unfold check_limit. destruct (Z.leb_spec 1 limit); [|lia]. by rewrite Hstart.
Qed.

Lemma query_cases p start w :
  outage w Query = None →
  1 <= Limit p →
  KeyUserId p ≠ EmptyString →
  valid_condition (KeyUploadTimestamp p) = true →
  ScanIndexForward p = false →
  match ExclusiveStartKey p with
  | Some k => Some <$> query_start_key p k
  | None => Ok None
  end = Ok start →
  query p w
  = (let found := page (Limit p) (query_key (KeyUserId p))
                    (query_rest start
                       (query_run (table w) (KeyUserId p) (KeyUploadTimestamp p))) in
     (Ok ((fun e : entry => (e.1.2, e.2)) <$> found.1, found.2), w)).
Proof.
  intros Hquery Hlimit Hu Hc Hdir Hstart. apply truthy_str_true in Hu.
  unfold query. unfold_M. rewrite Hquery.
  unfold check_limit. destruct (Z.leb_spec 1 (Limit p)); [|lia].
  rewrite Hu, Hc, Hstart, Hdir. cbn [negb]. by destruct start.
Qed.

Lemma scan_all_cases limit key start w :
  outage w Scan = None →
  1 <= limit →
  match DynamoDBService.start_key key with
  | Some k => Some <$> scan_start_key k
  | None => Ok None
  end = Ok start →
  DynamoDBService.scan_all limit key w
  = (let found := page limit scan_key (scan_rest start (scan_run (table w))) in
     images ← DynamoDBService.parse_items found.1; Ok (images, found.2), w).
Proof.
  intros Hscan Hlimit Hstart. unfold DynamoDBService.scan_all.
  rewrite (bind_ok _ _ _ _ _ (scan_cases _ _ _ _ Hscan Hlimit Hstart)). cbv zeta.
  unfold_M. by destruct (DynamoDBService.parse_items _).
Qed.

Lemma query_by_user_cases user_id start_date end_date limit key start w :
  outage w Query = None →
  1 <= limit →
  user_id ≠ EmptyString →
  valid_condition (DynamoDBService.key_condition start_date end_date) = true →
  match DynamoDBService.start_key key with
  | Some k =>
      Some <$> query_start_key
                 {| KeyUserId := user_id;
                    KeyUploadTimestamp := DynamoDBService.key_condition start_date end_date;
                    Limit := limit;
                    ScanIndexForward := false;
                    ExclusiveStartKey := DynamoDBService.start_key key |} k
  | None => Ok None
  end = Ok start →
  DynamoDBService.query_by_user user_id start_date end_date limit key w
  = (let found := page limit (query_key user_id)
                    (query_rest start
                       (query_run (table w) user_id
                          (DynamoDBService.key_condition start_date end_date))) in
     images ← DynamoDBService.parse_items ((fun e : entry => (e.1.2, e.2)) <$> found.1);
     Ok (images, found.2), w).
Proof.
  intros Hquery Hlimit Hu Hc Hstart. unfold DynamoDBService.query_by_user.
  rewrite (bind_ok _ _ _ _ _
             (query_cases
                {| KeyUserId := user_id;
                   KeyUploadTimestamp := DynamoDBService.key_condition start_date end_date;
                   Limit := limit;
                   ScanIndexForward := false;
                   ExclusiveStartKey := DynamoDBService.start_key key |}
                start w Hquery Hlimit Hu Hc eq_refl Hstart)).
  cbv zeta. cbn [KeyUserId KeyUploadTimestamp Limit fst snd].
  unfold_M. by destruct (DynamoDBService.parse_items _).
Qed.

(** ** Listings of nothing *)

Lemma list_errors_nil fromisoformat q limit :
  valid_or_absent fromisoformat (list_images.start_date q) →
  valid_or_absent fromisoformat (list_images.end_date q) →
  1 <= limit <= 100 →
  ListImagesRequest.errors fromisoformat (request_of q limit) = [].
Proof.
  intros Hstart Hend Hrange. unfold ListImagesRequest.errors.
  cbn [request_of ListImagesRequest.start_date ListImagesRequest.end_date
       ListImagesRequest.limit].
  rewrite (validate_date_ok _ _ _ Hstart), (validate_date_ok _ _ _ Hend).
  by apply check_limit_range.
Qed.

Lemma list_handler_first fromisoformat int q limit w :
  list_images.parse_limit int (list_images.limit q) = Ok limit →
  1 <= limit <= 100 →
  valid_or_absent fromisoformat (list_images.start_date q) →
  valid_or_absent fromisoformat (list_images.end_date q) →
  list_images.next_token q = None →
  list_images.handler fromisoformat int q w
  = respond list_images.failure (list_images.list_page (request_of q limit) None) w.
Proof.
  intros Hlimit Hrange Hstart Hend Htoken. unfold list_images.handler, respond.
  by rewrite (list_flow_parsed _ _ _ _ _ Hlimit), list_errors_nil, Htoken.
Qed.

Lemma index_partition_nil t user_id :
  (∀ image_id item, t !! image_id = Some item → Item.user_id item ≠ Some user_id) →
  index_partition t user_id = [].
Proof.
  intros H. unfold index_partition.
  assert (Forall (fun kv => index_entry user_id kv = None) (map_to_list t)) as Hall.
  { apply Forall_forall. intros [image_id item] Hin%elem_of_map_to_list.
    specialize (H _ _ Hin). unfold index_entry. cbn.
    destruct (Item.user_id item) as [u|]; [|done].
    destruct (Item.upload_timestamp item); [|done].
    destruct (String.eqb_spec u user_id) as [->|]; done. }
  induction Hall as [|kv l Hkv _ IH]; [done|]. cbn. by rewrite Hkv.
Qed.

(** X23.  Listing nothing: an empty table, and an owner without records,
    are answered 200 with no images, [count = 0], no token and
    [has_more = false]. *)
Theorem empty_listing fromisoformat int q limit w :
  list_images.parse_limit int (list_images.limit q) = Ok limit →
  1 <= limit <= 100 →
  valid_or_absent fromisoformat (list_images.start_date q) →
  valid_or_absent fromisoformat (list_images.end_date q) →
  list_images.next_token q = None →
  (truthy (list_images.user_id q) = false → outage w Scan = None → table w = ∅ →
   list_images.handler fromisoformat int q w = (empty_page, w))
  ∧ (∀ user_id,
       list_images.user_id q = Some user_id → user_id ≠ EmptyString →
       outage w Query = None →
       valid_condition (DynamoDBService.key_condition (list_images.start_date q)
                          (list_images.end_date q)) = true →
       (∀ image_id item, table w !! image_id = Some item → Item.user_id item ≠ Some user_id) →
       list_images.handler fromisoformat int q w = (empty_page, w)).
Proof.
  intros Hlimit Hrange Hstart Hend Htoken.
  rewrite (list_handler_first _ _ _ _ _ Hlimit Hrange Hstart Hend Htoken).
  assert (∀ {A} (key_of : A → Json.keymap), page limit key_of [] = ([], None)) as Hpage.
  { intros A key_of. unfold page.
    replace (limit <=? Z.of_nat (length (@nil A))) with false
      by (symmetry; apply Z.leb_gt; cbn [length]; lia).
    by destruct (Z.to_nat limit). }
  split.
  - intros Huser Hscan Hempty. unfold respond, list_images.list_page, list_images.fetch.
    cbn [request_of ListImagesRequest.user_id ListImagesRequest.limit].
    assert (DynamoDBService.scan_all limit None w = (Ok ([], None), w)) as Hfetch.
    { rewrite (scan_all_cases limit None None w Hscan (proj1 Hrange) eq_refl). cbv zeta.
      unfold scan_run. rewrite Hempty, map_to_list_empty. cbn [scan_rest].
      change (merge_sort _ []) with (@nil (string * Item.t)). by rewrite Hpage. }
    destruct (list_images.user_id q) as [u|]; [cbn in Huser; rewrite Huser|];
      by rewrite (bind_ok _ _ _ _ _ Hfetch).
  - intros user_id Huser Hu Hquery Hc Hnone.
    unfold respond, list_images.list_page, list_images.fetch.
    cbn [request_of ListImagesRequest.user_id ListImagesRequest.limit
         ListImagesRequest.start_date ListImagesRequest.end_date].
    rewrite Huser. apply truthy_str_true in Hu as Hu'. rewrite Hu'.
    assert (DynamoDBService.query_by_user user_id (list_images.start_date q)
              (list_images.end_date q) limit None w = (Ok ([], None), w)) as Hfetch.
    { rewrite (query_by_user_cases _ _ _ _ None None w Hquery (proj1 Hrange) Hu Hc eq_refl).
      cbv zeta.
      unfold query_run. rewrite (index_partition_nil _ _ Hnone). cbn [query_rest].
      change (reverse (merge_sort entry_le (filter _ []))) with (@nil entry).
      by rewrite Hpage. }
    by rewrite (bind_ok _ _ _ _ _ Hfetch).
Qed.

Lemma empty_listing_witness :
  list_images.handler (fun _ => true) small_int no_filter idle = (empty_page, idle)
  ∧ list_images.handler (fun _ => true) small_int (owned_by "user-789") gallery
    = (empty_page, gallery).
Proof.
  split.
  - apply (proj1 (empty_listing (fun _ => true) small_int no_filter 50 idle
                    eq_refl ltac:(lia) I I eq_refl)); reflexivity.
  - apply (proj2 (empty_listing (fun _ => true) small_int (owned_by "user-789") 50 gallery
                    eq_refl ltac:(lia) I I eq_refl) "user-789");
      [reflexivity|discriminate|reflexivity|reflexivity|].
    intros image_id item Hitem.
    apply elem_of_map_to_list, list_elem_of_In in Hitem.
    assert (forallb (fun kv : string * Item.t =>
                       bool_decide (Item.user_id kv.2 ≠ Some "user-789"))
              (map_to_list (table gallery)) = true) as Hall by (vm_compute; reflexivity).
    rewrite forallb_forall in Hall. apply Hall in Hitem. by apply bool_decide_eq_true in Hitem.
Defined.

(** ** Date bounds in the wrong order *)

(** X24.  Date bounds in the wrong order pass the validation of the
    request; with an owner they reach the index as a [BETWEEN] condition
    whose bounds are reversed, which the index refuses, and the answer
    is 500. *)
Theorem reversed_bounds fromisoformat int q limit user_id start_date end_date w :
  list_images.parse_limit int (list_images.limit q) = Ok limit →
  1 <= limit <= 100 →
  list_images.user_id q = Some user_id → user_id ≠ EmptyString →
  list_images.start_date q = Some start_date → start_date ≠ EmptyString →
  list_images.end_date q = Some end_date → end_date ≠ EmptyString →
  fromisoformat (replace_Z start_date) = true →
  fromisoformat (replace_Z end_date) = true →
  list_images.next_token q = None →
  String.leb start_date end_date = false →
  outage w Query = None →
  statusCode (list_images.handler fromisoformat int q w).1 = 500
  ∧ (list_images.handler fromisoformat int q w).2 = w.
Proof.
  intros Hlimit Hrange Huser Hu Hstart Hs Hend He Hfs Hfe Htoken Horder Hquery.
  assert (list_images.handler fromisoformat int q w
          = (internal_error_response
               ("Failed to list images: "
                  +:+ str_exn (ValidationException Query
                                 "Invalid KeyConditionExpression: The BETWEEN operator requires upper bound to be greater than or equal to lower bound")),
             w)) as H; [|by rewrite H].
  rewrite (list_handler_first _ _ _ _ _ Hlimit Hrange);
    [|rewrite Hstart; by intros _|rewrite Hend; by intros _|done].
  unfold respond, list_images.list_page, list_images.fetch.
  cbn [request_of ListImagesRequest.user_id ListImagesRequest.limit
       ListImagesRequest.start_date ListImagesRequest.end_date].
  apply truthy_str_true in Hu, Hs, He. rewrite Huser, Hu, Hstart, Hend.
  unfold DynamoDBService.query_by_user, query. unfold_M. rewrite Hquery.
  unfold check_limit.
  cbn [KeyUserId KeyUploadTimestamp Limit DynamoDBService.key_condition].
  destruct (Z.leb_spec 1 limit); [|lia]. rewrite Hu, Hs, He.
  cbn [negb andb valid_condition]. by rewrite Horder.
Qed.

Lemma reversed_bounds_witness :
  statusCode (list_images.handler (fun _ => true) small_int reversed gallery).1 = 500.
Proof.
  apply (reversed_bounds (fun _ => true) small_int reversed 50 "user-123"
           "2026-02-13T23:59:59" "2026-02-11T00:00:00" gallery);
    try reflexivity; try discriminate; lia.
Defined.

(** ** Records that cannot be read *)

Lemma metadata_new_raises a e :
  ImageMetadata.new a = Raise e → ∃ errors, e = ValidationError "ImageMetadata" errors.
Proof.
  unfold ImageMetadata.new.
  destruct (ImageMetadata.errors a);
    destruct (ImageMetadata.a_image_id a), (ImageMetadata.a_user_id a),
      (ImageMetadata.a_filename a), (ImageMetadata.a_content_type a),
      (ImageMetadata.a_file_size a), (ImageMetadata.a_upload_timestamp a),
      (ImageMetadata.a_s3_key a); intros [= <-]; eauto.
Qed.

Lemma parse_items_cons kv items :
  DynamoDBService.parse_items (kv :: items)
  = (m ← ImageMetadata.new (DynamoDBService.args_of kv);
     k ← DynamoDBService.parse_items items; Ok (m :: k)).
Proof. reflexivity. Qed.

Lemma parse_items_raises items kv e :
  kv ∈ items →
  ImageMetadata.new (DynamoDBService.args_of kv) = Raise e →
  ∃ errors, DynamoDBService.parse_items items = Raise (ValidationError "ImageMetadata" errors).
Proof.
  intros Hin Hraise. induction items as [|x items IH]; [by apply elem_of_nil in Hin|].
  rewrite parse_items_cons.
  destruct (ImageMetadata.new (DynamoDBService.args_of x)) as [m|e'] eqn:Hx.
  - rewrite result_bind_Ok. apply elem_of_cons in Hin as [->|Hin]; [congruence|].
    destruct (IH Hin) as [errors ->]. by exists errors.
  - apply metadata_new_raises in Hx as [errors ->]. by exists errors.
Qed.

Lemma page_all {A} limit (key_of : A → Json.keymap) rest :
  Z.of_nat (length rest) <= limit → (page limit key_of rest).1 = rest.
Proof. intros H. unfold page. cbn [fst]. apply firstn_all2. lia. Qed.

Lemma scan_run_length t : length (scan_run t) = size t.
Proof.
  unfold scan_run. rewrite merge_sort_Permutation. apply length_map_to_list.
Qed.

Lemma scan_run_elem t image_id item :
  (image_id, item) ∈ scan_run t ↔ t !! image_id = Some item.
Proof. unfold scan_run. by rewrite merge_sort_Permutation, elem_of_map_to_list. Qed.

Lemma unreadable_record_scan limit image_id item e w :
  outage w Scan = None →
  1 <= limit →
  Z.of_nat (size (table w)) <= limit →
  table w !! image_id = Some item →
  ImageMetadata.new (DynamoDBService.args_of (image_id, item)) = Raise e →
  ∃ errors,
    DynamoDBService.scan_all limit None w = (Raise (ValidationError "ImageMetadata" errors), w).
Proof.
  intros Hscan Hlimit Hsize Hitem Hraise.
  rewrite (scan_all_cases limit None None w Hscan Hlimit eq_refl). cbv zeta.
  cbn [scan_rest]. rewrite page_all by by rewrite scan_run_length.
  destruct (parse_items_raises (scan_run (table w)) (image_id, item) e) as [errors ->];
    [by apply scan_run_elem|done|]. by exists errors.
Qed.

Lemma unreadable_record_listing fromisoformat int q limit image_id item e w :
  list_images.parse_limit int (list_images.limit q) = Ok limit →
  1 <= limit <= 100 →
  valid_or_absent fromisoformat (list_images.start_date q) →
  valid_or_absent fromisoformat (list_images.end_date q) →
  list_images.next_token q = None →
  truthy (list_images.user_id q) = false →
  outage w Scan = None →
  Z.of_nat (size (table w)) <= limit →
  table w !! image_id = Some item →
  ImageMetadata.new (DynamoDBService.args_of (image_id, item)) = Raise e →
  ∃ errors,
    list_images.handler fromisoformat int q w
    = (internal_error_response
         ("Failed to list images: " +:+ str_exn (ValidationError "ImageMetadata" errors)), w)
    ∧ statusCode (list_images.handler fromisoformat int q w).1 = 500.
Proof.
  intros Hlimit Hrange Hstart Hend Htoken Huser Hscan Hsize Hitem Hraise.
  destruct (unreadable_record_scan limit image_id item e w Hscan (proj1 Hrange) Hsize Hitem Hraise)
    as [errors Hfetch].
  exists errors.
  assert (list_images.handler fromisoformat int q w
          = (internal_error_response
               ("Failed to list images: " +:+ str_exn (ValidationError "ImageMetadata" errors)),
             w)) as H; [|by rewrite H].
  rewrite (list_handler_first _ _ _ _ _ Hlimit Hrange Hstart Hend Htoken).
  unfold respond, list_images.list_page, list_images.fetch.
  cbn [request_of ListImagesRequest.user_id ListImagesRequest.limit].
  destruct (list_images.user_id q) as [u|]; [cbn in Huser; rewrite Huser|];
    by rewrite (bind_raise _ _ _ _ _ Hfetch).
Qed.

(** X25.  One record that cannot be read fails the whole listing: when
    the table fits in a page and holds an item [ImageMetadata] rejects,
    the listing without owner is answered 500 with the validation error
    in its message. *)
Theorem unreadable_record_fails_listing fromisoformat int q limit image_id item e w :
  list_images.parse_limit int (list_images.limit q) = Ok limit →
  1 <= limit <= 100 →
  valid_or_absent fromisoformat (list_images.start_date q) →
  valid_or_absent fromisoformat (list_images.end_date q) →
  list_images.next_token q = None →
  truthy (list_images.user_id q) = false →
  outage w Scan = None →
  Z.of_nat (size (table w)) <= limit →
  table w !! image_id = Some item →
  ImageMetadata.new (DynamoDBService.args_of (image_id, item)) = Raise e →
  ∃ errors,
    list_images.handler fromisoformat int q w
    = (internal_error_response
         ("Failed to list images: " +:+ str_exn (ValidationError "ImageMetadata" errors)), w)
    ∧ statusCode (list_images.handler fromisoformat int q w).1 = 500.
Proof. apply unreadable_record_listing. Qed.

Lemma unreadable_record_fails_listing_witness :
  ∃ errors,
    list_images.handler (fun _ => true) small_int no_filter
      (with_table (insert "ghost" (status_only "failed" "2026-02-13T10:00:00")) gallery)
    = (internal_error_response
         ("Failed to list images: " +:+ str_exn (ValidationError "ImageMetadata" errors)),
       with_table (insert "ghost" (status_only "failed" "2026-02-13T10:00:00")) gallery)
    ∧ statusCode
        (list_images.handler (fun _ => true) small_int no_filter
           (with_table (insert "ghost" (status_only "failed" "2026-02-13T10:00:00"))
              gallery)).1 = 500.
Proof.
  eapply (unreadable_record_fails_listing (fun _ => true) small_int no_filter 50 "ghost"
            (status_only "failed" "2026-02-13T10:00:00"));
    [reflexivity|lia|exact I|exact I|reflexivity|reflexivity|reflexivity
    |vm_compute; discriminate|reflexivity|reflexivity].
Defined.

Lemma status_only_unreadable image_id status now :
  ∃ errors,
    ImageMetadata.new (DynamoDBService.args_of (image_id, status_only status now))
    = Raise (ValidationError "ImageMetadata" errors).
Proof. by eexists. Qed.

Lemma delete_unreadable image_id caller item e w :
  image_id ≠ EmptyString → caller ≠ EmptyString →
  outage w GetItem = None →
  table w !! image_id = Some item →
  ImageMetadata.new (DynamoDBService.args_of (image_id, item)) = Raise e →
  delete_image.handler (delete_request image_id caller) w
  = (internal_error_response ("Failed to delete image: " +:+ str_exn e), w).
Proof.
  intros Hid Hcaller Hget Hitem Hnew. unfold delete_image.handler, respond.
  rewrite delete_flow_cases by done.
  assert (DynamoDBService.get_item image_id w = (Raise e, w)) as H.
  { by rewrite get_item_cases, Hget, Hitem, Hnew. }
  by rewrite (bind_raise _ _ _ _ _ H).
Qed.

(** X26.  What [update_status] of an unknown image leaves behind: a
    record for which the download handler and the delete handler answer
    500, which the delete handler therefore cannot remove, and which
    makes the listing without owner answer 500 as well. *)
Theorem status_of_unknown_image now image_id status caller fromisoformat int w :
  image_id ≠ EmptyString → caller ≠ EmptyString →
  table w !! image_id = None →
  (∀ op, outage w op = None) →
  Z.of_nat (size (table w)) < 50 →
  let w' := (DynamoDBService.update_status now image_id status w).2 in
  statusCode (get_image_presigned_url.handler (Some image_id) w').1 = 500
  ∧ statusCode (delete_image.handler (delete_request image_id caller) w').1 = 500
  ∧ (delete_image.handler (delete_request image_id caller) w').2 = w'
  ∧ table w' !! image_id = Some (status_only status now)
  ∧ statusCode (list_images.handler fromisoformat int no_filter w').1 = 500.
Proof.
  intros Hid Hcaller Habsent Hup Hsize w'.
  assert (w' = with_table (insert image_id (status_only status now)) w) as Hw'.
  { unfold w'. rewrite update_status_ok by done. cbn [snd]. unfold with_table.
    by rewrite Habsent. }
  assert (table w' !! image_id = Some (status_only status now)) as Hitem.
  { rewrite Hw'. cbn. apply lookup_insert_eq. }
  assert (∀ op, outage w' op = None) as Hup'.
  { intros op. rewrite Hw'. apply Hup. }
  destruct (status_only_unreadable image_id status now) as [errors Hnew].
  split; [by rewrite (download_unreadable _ _ _ _ Hid (Hup' _) Hitem Hnew)|].
  rewrite (delete_unreadable _ _ _ _ _ Hid Hcaller (Hup' _) Hitem Hnew).
  split; [done|]. split; [done|]. split; [done|].
  destruct (unreadable_record_listing fromisoformat int no_filter 50 image_id
              (status_only status now) (ValidationError "ImageMetadata" errors) w')
    as (errors' & _ & Hcode); try done.
  rewrite Hw'. cbn [table with_table]. rewrite map_size_insert_None by done. lia.
Qed.

Lemma status_of_unknown_image_witness :
  let w' := (DynamoDBService.update_status "2026-02-13T10:00:00" "ghost" "failed" gallery).2 in
  statusCode (get_image_presigned_url.handler (Some "ghost") w').1 = 500
  ∧ statusCode (delete_image.handler (delete_request "ghost" "user-123") w').1 = 500
  ∧ (delete_image.handler (delete_request "ghost" "user-123") w').2 = w'
  ∧ table w' !! "ghost" = Some (status_only "failed" "2026-02-13T10:00:00")
  ∧ statusCode (list_images.handler (fun _ => true) small_int no_filter w').1 = 500.
Proof.
  apply (status_of_unknown_image "2026-02-13T10:00:00" "ghost" "failed" "user-123"
           (fun _ => true) small_int gallery);
    [discriminate|discriminate|reflexivity|reflexivity|vm_compute; reflexivity].
Defined.

(** ** Dates *)

Lemma replace_char_Z s : replace_char "Z" "+00:00" s = replace_Z s.
Proof. induction s as [|c s IH]; [done|]. cbn. by rewrite IH. Qed.

Lemma validate_iso_date_validator fromisoformat loc d :
  Validators.validate_iso_date fromisoformat d = true
  ↔ ListImagesRequest.validate_date fromisoformat loc d = [].
Proof.
  unfold Validators.validate_iso_date, ListImagesRequest.validate_date.
  destruct d as [s|]; [|done]. rewrite replace_char_Z.
  destruct (truthy_str s); [|done]. cbn [andb].
  by destruct (fromisoformat (replace_Z s)).
Qed.

(** X27.  The list handler answers 400 for its request parameters exactly
    when [validate_iso_date] rejects one of the two dates (the [limit]
    being in range). *)
Theorem list_dates_validated fromisoformat int q limit w :
  list_images.parse_limit int (list_images.limit q) = Ok limit →
  1 <= limit <= 100 →
  (Validators.validate_iso_date fromisoformat (list_images.start_date q) = true
   ∧ Validators.validate_iso_date fromisoformat (list_images.end_date q) = true)
  ↔ ¬ ∃ errors,
        list_images.handler fromisoformat int q w
        = (validation_error_response "Invalid request parameters" (Some errors), w).
Proof.
  intros Hlimit Hrange. unfold list_images.handler, respond.
  rewrite (list_flow_parsed _ _ _ _ _ Hlimit).
  rewrite (validate_iso_date_validator _ "start_date"), (validate_iso_date_validator _ "end_date").
  unfold ListImagesRequest.errors.
  cbn [request_of ListImagesRequest.start_date ListImagesRequest.end_date
       ListImagesRequest.limit].
  rewrite (proj2 (check_limit_range limit) Hrange), app_nil_r.
  destruct (ListImagesRequest.validate_date fromisoformat "start_date" _) as [|e1 l1].
  2:{ split; [by intros [? _]|]. intros H. destruct H. by eexists. }
  destruct (ListImagesRequest.validate_date fromisoformat "end_date" _) as [|e2 l2].
  2:{ split; [by intros [_ ?]|]. intros H. destruct H. by eexists. }
  split; [|done]. intros _ [errors H]. cbn [app] in H.
  assert (∀ key, (let (r0, w') := list_images.list_page (request_of q limit) key w in
                  match r0 with
                  | Ok r => (r, w')
                  | Raise e => (internal_error_response (list_images.failure +:+ str_exn e), w')
                  end)
                 ≠ (validation_error_response "Invalid request parameters" (Some errors), w))
    as Hpage.
  { intros key.
    destruct (list_images.list_page (request_of q limit) key w) as [[r|e] w'] eqn:Hp; [|done].
    by apply list_page_response in Hp as (images & next_key & _ & ->). }
  destruct (list_images.next_token q) as [token|]; [|by apply Hpage in H].
  destruct (truthy_str token); [|by apply Hpage in H].
  destruct (list_images.decode token); [by apply Hpage in H|done].
Qed.

Lemma list_dates_validated_witness :
  ¬ ∃ errors,
      list_images.handler (fun _ => true) sample_int dated gallery
      = (validation_error_response "Invalid request parameters" (Some errors), gallery).
Proof.
  apply (list_dates_validated (fun _ => true) sample_int dated 50 gallery eq_refl ltac:(lia)).
  by split.
Defined.

(** ** Stray characters in a token *)

Lemma a2b_loop_skip c a b :
  Ascii.eqb c Base64.PAD = false → Base64.a2b c = None →
  ∀ quad_pos leftchar pads,
    Base64.a2b_loop (a +:+ String c b) quad_pos leftchar pads
    = Base64.a2b_loop (a +:+ b) quad_pos leftchar pads.
Proof.
  intros Hpad Hc. induction a as [|x a IH]; intros quad_pos leftchar pads.
  - rewrite !append_nil_l. cbn [Base64.a2b_loop]. by rewrite Hpad, Hc.
  - rewrite !append_cons. cbn [Base64.a2b_loop].
    destruct (Ascii.eqb x Base64.PAD); [by rewrite IH|].
    destruct (Base64.a2b x) as [v|]; [|by rewrite IH].
    by rewrite !IH.
Qed.

(** X28.  A character that is neither a base64 digit nor the pad is
    skipped when a token is decoded, wherever it stands: the token with
    it decodes as the token without it. *)
Theorem token_junk_skipped a c b :
  code c < 128 → c ≠ Base64.PAD → Base64.a2b c = None →
  list_images.decode (a +:+ String c b) = list_images.decode (a +:+ b).
Proof.
  intros Hascii Hpad Hc. unfold list_images.decode, Base64.b64decode.
  rewrite !is_ascii_append. cbn [is_ascii].
  destruct (Z.ltb_spec (code c) 128); [|lia]. cbn [andb].
  destruct (is_ascii a && is_ascii b); [|done].
  rewrite a2b_loop_skip; [done| |done]. by apply Ascii.eqb_neq.
Qed.

Lemma token_junk_skipped_witness :
  list_images.decode ("eyJmb28i" +:+ String "010" "OiAiYmFyIn0=")
  = list_images.decode ("eyJmb28i" +:+ "OiAiYmFyIn0=").
Proof. apply token_junk_skipped; [vm_compute; reflexivity|discriminate|reflexivity]. Defined.

(** ** Lists in order *)



Lemma last_fmap_Some {A} (l : list A) : List.last (Some <$> l) None = last l.
Proof.
  induction l as [|x l IH]; [done|]. destruct l as [|y l]; [done|].
  rewrite last_cons_cons, <- IH. reflexivity.
Qed.

Lemma last_take {A} (l : list A) n :
  (0 < n <= length l)%nat → last (take n l) = l !! (n - 1)%nat.
Proof.
  revert n. induction l as [|x l IH]; intros n Hn; [cbn in Hn; lia|].
  destruct n as [|n]; [lia|]. cbn [take length] in *.
  destruct n as [|n]; [done|].
  replace (S (S n) - 1)%nat with (S n) by lia. cbn [lookup list_lookup].
  change (take (S (S n)) (x :: l)) with (x :: take (S n) l).
  destruct l as [|y l]; [cbn in Hn; lia|].
  change (take (S n) (y :: l)) with (y :: take n l). rewrite last_cons_cons.
  change (y :: take n l) with (take (S n) (y :: l)).
  rewrite IH by (cbn [length] in *; lia). by replace (S n - 1)%nat with n by lia.
Qed.


(** ** The order of the two traversals *)



#[local] Instance key_le_total :
  Total (fun a b : string * Item.t => Is_true (String.leb a.1 b.1)).
Proof. intros a b. destruct (String.leb_total a.1 b.1) as [->| ->]; auto. Qed.

#[local] Instance key_le_trans :
  Transitive (fun a b : string * Item.t => Is_true (String.leb a.1 b.1)).
Proof.
  intros a b c H1%Is_true_true H2%Is_true_true. apply Is_true_true.
  by eapply string_leb_trans.
Qed.


Lemma scan_run_NoDup t : NoDup (scan_run t).*1.
Proof. unfold scan_run. rewrite merge_sort_Permutation. apply NoDup_fst_map_to_list. Qed.





Lemma index_partition_ids t user_id :
  NoDup ((fun e : entry => e.1.2) <$> index_partition t user_id).
Proof.
  apply (sublist_NoDup _ (map_to_list t).*1); [apply NoDup_fst_map_to_list|].
  unfold index_partition. induction (map_to_list t) as [|kv l IH]; [constructor|].
  cbn [omap list_omap fmap list_fmap]. unfold index_entry at 1.
  destruct (Item.user_id kv.2) as [u|]; [|by apply sublist_cons].
  destruct (Item.upload_timestamp kv.2) as [ts|]; [|by apply sublist_cons].
  destruct (String.eqb u user_id); [|by apply sublist_cons].
  by apply sublist_skip.
Qed.

Lemma query_run_ids t user_id c :
  NoDup ((fun e : entry => e.1.2) <$> query_run t user_id c).
Proof.
  unfold query_run. rewrite reverse_Permutation, merge_sort_Permutation.
  eapply sublist_NoDup; [apply (index_partition_ids t user_id)|].
  apply fmap_sublist, sublist_filter.
Qed.






(** ** The page after a page *)



(** A page that was returned: the service answered, and the items of
    the page were read. *)
Lemma scan_all_returned limit w images next_key :
  (DynamoDBService.scan_all limit None w).1 = Ok (images, next_key) →
  outage w Scan = None ∧ 1 <= limit
  ∧ DynamoDBService.parse_items (page limit scan_key (scan_run (table w))).1 = Ok images
  ∧ (page limit scan_key (scan_run (table w))).2 = next_key.
Proof.
  intros H.
  assert (outage w Scan = None ∧ 1 <= limit) as [Hscan Hlimit].
  { unfold DynamoDBService.scan_all, scan in H. unfold_M.
    destruct (outage w Scan) as [[? ?]|]; [done|]. split; [done|].
    unfold check_limit in H. by destruct (Z.leb_spec 1 limit). }
  split; [done|]. split; [done|].
  rewrite (scan_all_cases limit None None w Hscan Hlimit eq_refl) in H.
  cbv zeta in H. cbn [fst scan_rest] in H.
  destruct (DynamoDBService.parse_items _) as [parsed|]; [|done].
  rewrite result_bind_Ok in H. by injection H as <- <-.
Qed.

Lemma query_by_user_returned user_id start_date end_date limit w images next_key :
  (DynamoDBService.query_by_user user_id start_date end_date limit None w).1
  = Ok (images, next_key) →
  let c := DynamoDBService.key_condition start_date end_date in
  let found := page limit (query_key user_id) (query_run (table w) user_id c) in
  outage w Query = None ∧ 1 <= limit ∧ user_id ≠ EmptyString ∧ valid_condition c = true
  ∧ DynamoDBService.parse_items ((fun e : entry => (e.1.2, e.2)) <$> found.1) = Ok images
  ∧ found.2 = next_key.
Proof.
  intros H c found.
  assert (outage w Query = None ∧ 1 <= limit ∧ user_id ≠ EmptyString
          ∧ valid_condition c = true) as (Hquery & Hlimit & Hu & Hc).
  { unfold DynamoDBService.query_by_user, query in H. unfold_M.
    cbn [KeyUserId KeyUploadTimestamp Limit] in H.
    destruct (outage w Query) as [[? ?]|]; [done|]. split; [done|].
    unfold check_limit in H. destruct (Z.leb_spec 1 limit); [|done]. split; [done|].
    destruct (truthy_str user_id) eqn:Hu; [|done]. split; [by apply truthy_str_true|].
    fold c in H. by destruct (valid_condition c). }
  split; [done|]. split; [done|]. split; [done|]. split; [done|].
  rewrite (query_by_user_cases _ _ _ _ None None w Hquery Hlimit Hu Hc eq_refl) in H.
  cbv zeta in H. cbn [fst query_rest] in H. fold c in H. fold found in H.
  destruct (DynamoDBService.parse_items _) as [parsed|]; [|done].
  rewrite result_bind_Ok in H. by injection H as <- <-.
Qed.








(** ** The last page *)

Lemma within_key_condition start_date end_date ts :
  within start_date end_date ts →
  in_condition (DynamoDBService.key_condition start_date end_date) ts = true.
Proof.
  unfold within, DynamoDBService.key_condition.
  destruct start_date as [[|c s]|], end_date as [[|c' e]|]; simpl; try done.
  intros [-> ->]. done.
Qed.

Lemma page_unfinished {A} limit (key_of : A → Json.keymap) run :
  1 <= limit → (page limit key_of run).2 = None → (page limit key_of run).1 = run.
Proof.
  intros Hlimit. unfold page. cbn [fst snd].
  destruct (Z.leb_spec limit (Z.of_nat (length run))) as [Hlen|Hlen].
  - rewrite last_fmap_Some, last_take by lia.
    destruct (run !! (Z.to_nat limit - 1)%nat) eqn:Hx; [done|].
    apply lookup_ge_None in Hx. lia.
  - intros _. apply firstn_all2. lia.
Qed.

Lemma parse_items_ids items images :
  DynamoDBService.parse_items items = Ok images →
  ImageMetadata.image_id <$> images = items.*1.
Proof.
  intros H%parse_items_Forall2. induction H as [|kv m items images Hm _ IH]; [done|].
  cbn [fmap list_fmap]. apply metadata_of_item in Hm as [-> _]. by f_equal.
Qed.

Lemma index_partition_elem t user_id image_id item ts :
  t !! image_id = Some item →
  Item.user_id item = Some user_id →
  Item.upload_timestamp item = Some ts →
  (ts, image_id, item) ∈ index_partition t user_id.
Proof.
  intros Hitem Hu Hts. unfold index_partition. apply list_elem_of_omap.
  exists (image_id, item). split; [by apply elem_of_map_to_list|].
  unfold index_entry. cbn. by rewrite Hu, Hts, String.eqb_refl.
Qed.

(** X30.  A page that comes without a key is complete: it holds every
    record the request asks for (all of them, or those of the owner
    inside the date bounds), each once. *)
Theorem last_page_complete request w images :
  (list_images.fetch request None w).1 = Ok (images, None) →
  NoDup (ImageMetadata.image_id <$> images)
  ∧ ∀ image_id item,
      table w !! image_id = Some item → matches request item →
      image_id ∈ ImageMetadata.image_id <$> images.
Proof.
  unfold list_images.fetch, matches.
  assert ((DynamoDBService.scan_all (ListImagesRequest.limit request) None w).1
          = Ok (images, None) →
          NoDup (ImageMetadata.image_id <$> images)
          ∧ ∀ image_id item,
              table w !! image_id = Some item → image_id ∈ ImageMetadata.image_id <$> images)
    as Hscan.
  { intros (_ & Hlimit & Hparse & Hkey)%scan_all_returned.
    rewrite (page_unfinished _ _ _ Hlimit Hkey) in Hparse.
    rewrite (parse_items_ids _ _ Hparse). split; [apply scan_run_NoDup|].
    intros image_id item Hitem. apply list_elem_of_fmap. exists (image_id, item).
    split; [done|]. by apply scan_run_elem. }
  destruct (ListImagesRequest.user_id request) as [u|] eqn:Huser; cbn [truthy];
    [|intros H; split; [|intros ? ? ? _]; by eapply Hscan].
  destruct (truthy_str u) eqn:Hu; [|intros H; split; [|intros ? ? ? _]; by eapply Hscan].
  intros (_ & Hlimit & _ & _ & Hparse & Hkey)%query_by_user_returned.
  rewrite (page_unfinished _ _ _ Hlimit Hkey) in Hparse.
  rewrite (parse_items_ids _ _ Hparse), <- list_fmap_compose. split.
  - apply query_run_ids.
  - intros image_id item Hitem (Hitem_user & ts & Hts & Hin).
    apply list_elem_of_fmap. exists (ts, image_id, item). split; [done|].
    unfold query_run. rewrite elem_of_reverse, merge_sort_Permutation.
    apply list_elem_of_filter. split.
    + apply Is_true_true. by apply within_key_condition.
    + by apply index_partition_elem.
Qed.

Lemma last_page_complete_witness :
  ∃ images,
    (list_images.fetch (ListImagesRequest.mk (Some "user-123") None None 10 None) None
       gallery).1 = Ok (images, None)
    ∧ NoDup (ImageMetadata.image_id <$> images)
    ∧ "img-12" ∈ ImageMetadata.image_id <$> images.
Proof.
  destruct (list_images.fetch (ListImagesRequest.mk (Some "user-123") None None 10 None) None
              gallery).1 as [[images [k|]]|] eqn:H; try (vm_compute in H; discriminate).
  destruct (last_page_complete _ _ _ H) as [Hnodup Hall].
  exists images. split; [done|]. split; [done|].
  apply (Hall "img-12" (sample_record "user-123" "2026-02-12T10:00:00")); [reflexivity|].
  split; [reflexivity|]. exists "2026-02-12T10:00:00".
  split; [reflexivity|exact I].
Defined.
